(** * Unreal Engine Plugin Builder: engine discovery and build orchestration

    A shallow embedding of [source/backend/engine_finder.py] and
    [source/backend/plugin_builder.py], and the properties of the
    specification that are stated over them.

    Conventions of the embedding:
    - a Python [str] is the list of its Unicode code points ([list N]);
      literals are written [u "..."], the UTF-8 decoding of the literal;
    - a Python value that travels through JSON or through the option map is
      a [pyval];
    - the operating system is a [world] record (file system, permissions,
      registry, environment, issued shell commands);
    - library behaviour that the repository only calls ([os.path], the
      Unicode tables behind [re] and [str]) is taken through the classes
      [PyLib] and [Unicode]; one plain instance of each is given so that
      every definition can be run;
    - methods are computations in a state-and-exception monad over the
      object and the world; emitted Qt signals are appended to the state. *)

From Stdlib Require Import ZArith NArith String Ascii List Bool Lia.
From stdpp Require Import base option list gmap pretty.

Import ListNotations.
#[local] Set Warnings "-register-all".
Local Open Scope N_scope.
Local Open Scope list_scope.

(* ===================================================================== *)
(** ** Python strings *)
(* ===================================================================== *)

(** A [str] is a sequence of code points. *)
Abbreviation str := (list N).

Definition bytes_of_string (s : string) : list N :=
  map N_of_ascii (list_ascii_of_string s).

(** UTF-8 decoding of a literal (one, two and three byte sequences; an
    ill-formed tail decodes to U+FFFD). *)
Fixpoint utf8_decode (bs : list N) : str :=
  match bs with
  | [] => []
  | b :: rest =>
      if b <? 128 then b :: utf8_decode rest
      else if b <? 224 then
        match rest with
        | c1 :: r => (N.lor (N.shiftl (N.land b 31) 6) (N.land c1 63)) :: utf8_decode r
        | [] => [65533]
        end
      else
        match rest with
        | c1 :: c2 :: r =>
            (N.lor (N.shiftl (N.land b 15) 12)
                   (N.lor (N.shiftl (N.land c1 63) 6) (N.land c2 63))) :: utf8_decode r
        | _ => [65533]
        end
  end.

Definition u (s : string) : str := utf8_decode (bytes_of_string s).

Definition str_eqb (a b : str) : bool := bool_decide (a = b).

(** [needle in haystack] for strings. *)
Fixpoint starts_with (p s : str) : bool :=
  match p, s with
  | [], _ => true
  | _ :: _, [] => false
  | a :: p', b :: s' => (a =? b) && starts_with p' s'
  end.

Fixpoint str_contains (needle hay : str) : bool :=
  starts_with needle hay ||
  match hay with
  | [] => false
  | _ :: hay' => str_contains needle hay'
  end.

(** [str(n)] for an integer. *)
Definition str_of_Z (z : Z) : str := u (pretty z).

(** [sep.join(parts)] *)
Fixpoint str_join (sep : str) (parts : list str) : str :=
  match parts with
  | [] => []
  | [p] => p
  | p :: rest => p ++ sep ++ str_join sep rest
  end.

(* ===================================================================== *)
(** ** Python values *)
(* ===================================================================== *)

(** The values of JSON documents and of the option map. Floating-point
    numbers are left out. *)
Inductive pyval : Type :=
  | PNone
  | PBool (b : bool)
  | PInt (z : Z)
  | PStr (s : str)
  | PList (items : list pyval)
  | PDict (items : list (str * pyval)).

(** Exceptions the modelled code can raise or catch. *)
Inductive exn : Type :=
  | FileNotFoundError
  | PermissionError
  | OtherOSError
  | JSONDecodeError
  | UnicodeDecodeError
  | AttributeError
  | TypeError
  | IndexError.

(** [d.get(key, default)] on the items of a dict (keys are unique in a
    Python dict, so the first binding is the binding). *)
Fixpoint dict_get {A} (key : str) (items : list (str * A)) : option A :=
  match items with
  | [] => None
  | (k, v) :: rest => if str_eqb k key then Some v else dict_get key rest
  end.

(** [d[key] = v]: replaces the value of an existing key in place, appends a
    new key at the end (insertion order). *)
Fixpoint dict_set {A} (key : str) (v : A) (items : list (str * A)) : list (str * A) :=
  match items with
  | [] => [(key, v)]
  | (k, x) :: rest =>
      if str_eqb k key then (k, v) :: rest else (k, x) :: dict_set key v rest
  end.

(** Truth value of a Python value. *)
Definition truthy (v : pyval) : bool :=
  match v with
  | PNone => false
  | PBool b => b
  | PInt z => negb (z =? 0)%Z
  | PStr s => match s with [] => false | _ => true end
  | PList l => match l with [] => false | _ => true end
  | PDict l => match l with [] => false | _ => true end
  end.

(* ===================================================================== *)
(** ** Library behaviour taken as an interface *)
(* ===================================================================== *)

(** Nodes of the file system. A file is kept as what opening it for
    reading as text and [json.load] make of it: a file that cannot be
    opened, bytes that are not text in the encoding asked for, a text that
    is not JSON, or the value [json.dump] was given when it wrote the
    file. *)
Inductive file_content : Type :=
  | Unreadable             (* [open] raises PermissionError *)
  | NotText                (* reading raises UnicodeDecodeError *)
  | NotJson                (* [json.load] raises JSONDecodeError *)
  | Json (j : pyval).

Inductive node : Type :=
  | Dir
  | File (content : file_content).

(** [os.path] and other library calls of the code. *)
Class PyLib := {
  os_path_join : str -> list str -> str;
  os_path_normpath : str -> str;
  os_path_dirname : str -> str;
  (** text of an exception, as interpolated by an f-string *)
  exn_text : exn -> str;
  (** [str(v)] for lists and dicts *)
  container_repr : pyval -> str;
  (** [list(s)] for a set [s] built from the given insertions *)
  set_iteration_order : list str -> list str;
  (** [s.upper()] *)
  str_upper : str -> str;
  (** [os.makedirs(p, exist_ok=True)] on a file system; [None] when it raises
      OSError *)
  os_makedirs : gmap (list N) node -> str -> option (gmap (list N) node);
  (** [shutil.rmtree(p, ignore_errors=True)]; [None] when it raises *)
  shutil_rmtree : gmap (list N) node -> str -> option (gmap (list N) node)
}.

(** The Unicode database, as used by [re] and by [str] methods. *)
Class Unicode := {
  (** [\d] *)
  is_decimal : N -> bool;
  (** the value [int()] gives a decimal digit *)
  decimal_value : N -> Z;
  (** whitespace removed by [str.strip()] *)
  is_space : N -> bool;
  (** [re.IGNORECASE]: pattern character against subject character *)
  ignorecase_eq : N -> N -> bool
}.

(* ===================================================================== *)
(** ** The operating system *)
(* ===================================================================== *)

Record world : Type := mkWorld {
  fs : gmap (list N) node;
  (** [os.access(p, os.W_OK)] *)
  access_w : str -> bool;
  (** [open(p, "w")] raises IOError *)
  open_w_fails : str -> bool;
  (** [os.listdir(p)] *)
  listdir : str -> exn + list str;
  (** HKLM key -> its subkeys, each with its InstalledDirectory value if any;
      [None] when the key is absent *)
  registry : str -> option (list (option str));
  (** [os.environ.values()] *)
  environ : list str;
  (** the user's home directory, if the environment names one *)
  home : option str;
  (** [os.path.exists(fd)] for an integer file descriptor *)
  fd_open : Z -> bool;
  (** commands run to completion through [subprocess.Popen(..).wait()] *)
  shell_log : list str;
  (** whether the operating system can start a program *)
  can_spawn : str -> bool;
  (** the process id the next started process gets *)
  next_pid : Z;
  (** programs started so far: process id, program, arguments *)
  spawn_log : list (Z * str * list str)
}.

Definition set_fs (w : world) (f : gmap (list N) node) : world :=
  mkWorld f (access_w w) (open_w_fails w) (listdir w) (registry w) (environ w)
          (home w) (fd_open w) (shell_log w) (can_spawn w) (next_pid w) (spawn_log w).

Definition run_shell (w : world) (cmd : str) : world :=
  mkWorld (fs w) (access_w w) (open_w_fails w) (listdir w) (registry w) (environ w)
          (home w) (fd_open w) (shell_log w ++ [cmd]) (can_spawn w) (next_pid w)
          (spawn_log w).

Definition spawn (w : world) (program : str) (arguments : list str) : world :=
  mkWorld (fs w) (access_w w) (open_w_fails w) (listdir w) (registry w) (environ w)
          (home w) (fd_open w) (shell_log w) (can_spawn w) (next_pid w + 1)%Z
          (spawn_log w ++ [(next_pid w, program, arguments)]).

(** [os.path.exists(p)] *)
Definition path_exists (w : world) (p : str) : bool :=
  match fs w !! p with Some _ => true | None => false end.

(** [os.path.isdir(p)] *)
Definition path_isdir (w : world) (p : str) : bool :=
  match fs w !! p with Some Dir => true | _ => false end.

(* ===================================================================== *)
(** ** Signals *)
(* ===================================================================== *)

Inductive log_type : Type := INFO | ERROR | WARNING | SUCCESS.

Inductive event : Type :=
  | LogMessage (text : str) (ty : log_type)
  | BuildStarted
  | BuildFinished (success : bool) (message : str)
  | BuildProgress (percent : Z).

(** A localization manager is a callable [(key, default, **kwargs) -> str]. *)
Definition localizer : Type := str -> str -> list (str * str) -> str.

(* ===================================================================== *)
(** ** State and exceptions *)
(* ===================================================================== *)

Inductive res (A : Type) : Type :=
  | Ok (a : A)
  | Raise (e : exn).
Arguments Ok {A} a.
Arguments Raise {A} e.

Definition M (S A : Type) : Type := S -> res A * S.

Definition ret {S A} (a : A) : M S A := fun s => (Ok a, s).

Definition bind {S A B} (m : M S A) (k : A -> M S B) : M S B :=
  fun s => match m s with
           | (Ok a, s') => k a s'
           | (Raise e, s') => (Raise e, s')
           end.

Definition raise {S A} (e : exn) : M S A := fun s => (Raise e, s).

(** [try: m except <caught>: handler] *)
Definition try_except {S A} (m : M S A) (caught : exn -> bool) (handler : exn -> M S A) : M S A :=
  fun s => match m s with
           | (Ok a, s') => (Ok a, s')
           | (Raise e, s') => if caught e then handler e s' else (Raise e, s')
           end.

Definition get_state {S} : M S S := fun s => (Ok s, s).
Definition put_state {S} (s : S) : M S unit := fun _ => (Ok tt, s).

Declare Scope py_scope.
Delimit Scope py_scope with py.
Notation "x <- m ;; k" := (bind m (fun x => k))
  (at level 100, m at next level, right associativity) : py_scope.
Notation "m ;;; k" := (bind m (fun _ => k))
  (at level 100, right associativity) : py_scope.

(* ===================================================================== *)
(** ** Operations on Python values *)
(* ===================================================================== *)

Section PyValues.
Context `{PyLib}.

(** [str(v)], as an f-string interpolates a value. *)
Definition py_str (v : pyval) : str :=
  match v with
  | PNone => u "None"
  | PBool true => u "True"
  | PBool false => u "False"
  | PInt z => str_of_Z z
  | PStr s => s
  | PList _ | PDict _ => container_repr v
  end.

End PyValues.

(** The integer a value counts as in a comparison ([bool] is a subclass of
    [int]). *)
Definition as_int (v : pyval) : option Z :=
  match v with
  | PBool true => Some 1%Z
  | PBool false => Some 0%Z
  | PInt z => Some z
  | _ => None
  end.

(** [a == b] where [b] is [None], a bool, an int or a string. *)
Definition py_eq (a b : pyval) : bool :=
  match as_int a, as_int b with
  | Some x, Some y => (x =? y)%Z
  | _, _ =>
      match a, b with
      | PNone, PNone => true
      | PStr x, PStr y => str_eqb x y
      | _, _ => false
      end
  end.

(** [v in (t1, t2, ...)] *)
Definition py_in (v : pyval) (tuple : list pyval) : bool := existsb (py_eq v) tuple.

(** [for x in v]: the items a value yields when iterated; [None] when it is
    not iterable. *)
Definition py_iter (v : pyval) : option (list pyval) :=
  match v with
  | PList items => Some items
  | PDict items => Some (map (fun kv => PStr (fst kv)) items)
  | PStr s => Some (map (fun c => PStr [c]) s)
  | _ => None
  end.

(** [s.replace("\\", "/")] *)
Definition backslashes_to_slashes (s : str) : str :=
  map (fun c => if c =? 92 then 47 else c) s.

(** [s.lstrip('-')] *)
Fixpoint lstrip_dash (s : str) : str :=
  match s with
  | c :: r => if c =? 45 then lstrip_dash r else s
  | [] => []
  end.

(** [data.splitlines()] *)
Definition is_linebreak (c : N) : bool :=
  (c =? 10) || (c =? 11) || (c =? 12) || (c =? 13) || (c =? 28) || (c =? 29)
  || (c =? 30) || (c =? 133) || (c =? 8232) || (c =? 8233).

Fixpoint splitlines_from (s cur : str) : list str :=
  match s with
  | [] => match cur with [] => [] | _ => [cur] end
  | c :: r =>
      if c =? 13 then
        match r with
        | c2 :: r' => if c2 =? 10 then cur :: splitlines_from r' []
                      else cur :: splitlines_from r []
        | [] => [cur]
        end
      else if is_linebreak c then cur :: splitlines_from r []
      else splitlines_from r (cur ++ [c])
  end.

Definition splitlines (s : str) : list str := splitlines_from s [].

Section Strip.
Context `{Unicode}.

Fixpoint lstrip (s : str) : str :=
  match s with
  | c :: r => if is_space c then lstrip r else s
  | [] => []
  end.

(** [s.strip()] *)
Definition strip (s : str) : str := rev (lstrip (rev (lstrip s))).

End Strip.

(* ===================================================================== *)
(** ** The regular expressions of the code *)
(* ===================================================================== *)

Section Regex.
Context `{Unicode}.

(** [\d+] followed by a continuation: greedy, and backtracking to shorter
    runs when the continuation fails. [acc] is what [\d+] has taken so far. *)
Fixpoint digits_then {A} (s acc : str) (k : str -> str -> option A) : option A :=
  match s with
  | c :: r =>
      if is_decimal c then
        match digits_then r (acc ++ [c]) k with
        | Some x => Some x
        | None => k (acc ++ [c]) r
        end
      else None
  | [] => None
  end.

(** [(\d+\.\d+)] matched at the head of [s]; the value is group 1. *)
Definition version_token (s : str) : option str :=
  digits_then s []
    (fun major rest =>
       match rest with
       | c :: r =>
           if c =? 46 (* . *) then
             digits_then r [] (fun minor _ => Some (major ++ [46] ++ minor))
           else None
       | [] => None
       end).

(** [UE_?(\d+\.\d+)] matched at the head of [s]. *)
Definition ue_version_at (s : str) : option str :=
  match s with
  | 85 (* U *) :: 69 (* E *) :: rest =>
      match rest with
      | 95 (* _ *) :: r =>
          match version_token r with
          | Some v => Some v
          | None => version_token rest
          end
      | _ => version_token rest
      end
  | _ => None
  end.

(** [re.search(r'UE_?(\d+\.\d+)', s)], giving [group(1)] of the leftmost match. *)
Fixpoint search_ue_version (s : str) : option str :=
  match ue_version_at s with
  | Some v => Some v
  | None => match s with [] => None | _ :: r => search_ue_version r end
  end.

(** [(\d+)%] matched at the head of [s]; the value is group 1. *)
Definition percent_at (s : str) : option str :=
  digits_then s []
    (fun ds rest => match rest with
                    | c :: _ => if c =? 37 (* % *) then Some ds else None
                    | [] => None
                    end).

(** [re.search(r'(\d+)%', s)], giving [group(1)] of the leftmost match. *)
Fixpoint search_percent (s : str) : option str :=
  match percent_at s with
  | Some ds => Some ds
  | None => match s with [] => None | _ :: r => search_percent r end
  end.

(** [int(ds)] for a string of decimal digits. *)
Definition int_of_digits (ds : str) : Z :=
  fold_left (fun acc c => (10 * acc + decimal_value c)%Z) ds 0%Z.

(** A literal keyword matched at the head of [s] under [re.IGNORECASE]. *)
Fixpoint keyword_at (kw s : str) : bool :=
  match kw, s with
  | [], _ => true
  | _ :: _, [] => false
  | p :: kw', c :: s' => ignorecase_eq p c && keyword_at kw' s'
  end.

(** [re.search('k1|k2|...', s, re.IGNORECASE)] finds a match. *)
Fixpoint search_keywords (kws : list str) (s : str) : bool :=
  existsb (fun kw => keyword_at kw s) kws ||
  match s with
  | [] => false
  | _ :: s' => search_keywords kws s'
  end.

End Regex.

(* ===================================================================== *)
(** ** EngineFinder *)
(* ===================================================================== *)

Module EngineFinder.

Record finder : Type := mkFinder {
  config_file : str;
  found_engines : list (str * str);
  localization : option localizer;
  os : world;
  signals : list event           (* emitted so far, oldest first *)
}.

Definition set_os (f : finder) (w : world) : finder :=
  mkFinder (config_file f) (found_engines f) (localization f) w (signals f).

Definition set_found_engines (f : finder) (e : list (str * str)) : finder :=
  mkFinder (config_file f) e (localization f) (os f) (signals f).

Definition emit (e : event) : M finder unit :=
  fun f => (Ok tt, mkFinder (config_file f) (found_engines f) (localization f) (os f)
                            (signals f ++ [e])).

(** [self.log(message, log_type)] *)
Definition log (message : str) (ty : log_type) : M finder unit :=
  emit (LogMessage message ty).

(** [self.localization(key, default, **kwargs) if self.localization else plain] *)
Definition tr (f : finder) (key default : str) (kwargs : list (str * str)) (plain : str) : str :=
  match localization f with
  | Some loc => loc key default kwargs
  | None => plain
  end.

Section WithLibraries.
Context `{PyLib} `{Unicode}.

Local Open Scope py_scope.

Definition uat_rel : list str := [u "Engine"; u "Build"; u "BatchFiles"; u "RunUAT.bat"].
Definition ue_editor_rel : list str := [u "Engine"; u "Binaries"; u "Win64"; u "UnrealEditor.exe"].
Definition ue4_editor_rel : list str := [u "Engine"; u "Binaries"; u "Win64"; u "UE4Editor.exe"].
Definition content_rel : list str := [u "Engine"; u "Content"].
Definition plugins_rel : list str := [u "Engine"; u "Plugins"].
Definition source_rel : list str := [u "Engine"; u "Source"].

Definition is_valid_engine_path (w : world) (engine_path : str) : bool :=
  let uat_path := os_path_join engine_path uat_rel in
  let ue_editor_path := os_path_join engine_path ue_editor_rel in
  let ue4_editor_path := os_path_join engine_path ue4_editor_rel in
  if negb (path_exists w uat_path) then false
  else
    let has_editor := path_exists w ue_editor_path || path_exists w ue4_editor_path in
    let required_dirs :=
      [ os_path_join engine_path content_rel;
        os_path_join engine_path plugins_rel;
        os_path_join engine_path source_rel ] in
    let dirs_exist := forallb (path_isdir w) required_dirs in
    has_editor && dirs_exist.

Definition REGISTRY_PATHS : list str :=
  [ u "SOFTWARE\EpicGames\Unreal Engine"; u "SOFTWARE\EpicGames" ].

Definition POSSIBLE_ENGINE_NAMES : list str := [u "Unreal"; u "UE_"; u "UE5"; u "UE4"].

(** [os.path.expanduser("~/Epic Games")] *)
Definition expanduser (w : world) (p : str) : str :=
  match home w with
  | Some h => h ++ drop 1 p
  | None => p
  end.

Definition STANDARD_PATHS (w : world) : list str :=
  [ u "C:/Program Files/Epic Games";
    u "C:/Epic Games";
    expanduser w (u "~/Epic Games");
    u "D:/Epic Games" ].

(** The body of the loop over the subkeys of one registry key. *)
Fixpoint scan_subkeys (subkeys : list (option str)) (found_paths : list str)
  : M finder (list str) :=
  match subkeys with
  | [] => ret found_paths
  | None :: rest => scan_subkeys rest found_paths      (* FileNotFoundError: continue *)
  | Some install_path :: rest =>
      f <- get_state ;;
      if path_exists (os f) install_path && is_valid_engine_path (os f) install_path then
        log (tr f (u "log_engine_found_registry") (u "Unreal Engine found in registry: {0}")
                [(u "0", install_path)]
                (u "Unreal Engine found in registry: " ++ install_path)) SUCCESS ;;;
        scan_subkeys rest (found_paths ++ [install_path])
      else scan_subkeys rest found_paths
  end.

Fixpoint scan_registry (reg_paths : list str) (found_paths : list str)
  : M finder (list str) :=
  match reg_paths with
  | [] => ret found_paths
  | reg_path :: rest =>
      f <- get_state ;;
      match registry (os f) reg_path with
      | None => scan_registry rest found_paths          (* FileNotFoundError: continue *)
      | Some subkeys =>
          found_paths' <- scan_subkeys subkeys found_paths ;;
          scan_registry rest found_paths'
      end
  end.

Definition find_unreal_in_registry : M finder (list str) :=
  f <- get_state ;;
  log (tr f (u "log_engines_search_start") (u "Starting Unreal Engine search...") []
          (u "Starting Unreal Engine search in registry...")) INFO ;;;
  found_paths <- scan_registry REGISTRY_PATHS [] ;;
  match found_paths with
  | [] =>
      log (tr f (u "log_engine_not_found_registry") (u "Unreal Engine not found in registry.") []
              (u "Unreal Engine not found in registry.")) INFO ;;;
      ret found_paths
  | _ => ret found_paths
  end.

Fixpoint scan_env (vars : list str) (found_paths : list str) : M finder (list str) :=
  match vars with
  | [] => ret found_paths
  | var :: rest =>
      f <- get_state ;;
      if existsb (fun engine_name => str_contains engine_name var) POSSIBLE_ENGINE_NAMES then
        if path_exists (os f) var && is_valid_engine_path (os f) var then
          log (tr f (u "log_engine_found_env")
                  (u "Unreal Engine found through environment variables: {0}")
                  [(u "0", var)]
                  (u "Unreal Engine found through environment variables: " ++ var)) SUCCESS ;;;
          scan_env rest (found_paths ++ [var])
        else scan_env rest found_paths
      else scan_env rest found_paths
  end.

Definition find_unreal_in_env_vars : M finder (list str) :=
  f <- get_state ;;
  log (u "Checking environment variables...") INFO ;;;
  found_paths <- scan_env (environ (os f)) [] ;;
  match found_paths with
  | [] =>
      log (tr f (u "log_engine_not_found_env")
              (u "Unreal Engine not found in environment variables.") []
              (u "Unreal Engine not found in environment variables.")) INFO ;;;
      ret found_paths
  | _ => ret found_paths
  end.

Fixpoint scan_subdirs (base_path : str) (subdirs : list str) (found_paths : list str)
  : M finder (list str) :=
  match subdirs with
  | [] => ret found_paths
  | subdir :: rest =>
      f <- get_state ;;
      let engine_path := os_path_join base_path [subdir] in
      if is_valid_engine_path (os f) engine_path then
        log (tr f (u "log_engine_found_standard") (u "Unreal Engine found: {0}")
                [(u "0", engine_path)]
                (u "Unreal Engine found: " ++ engine_path)) SUCCESS ;;;
        scan_subdirs base_path rest (found_paths ++ [engine_path])
      else scan_subdirs base_path rest found_paths
  end.

Definition caught_by_listing (e : exn) : bool :=
  match e with
  | FileNotFoundError | PermissionError => true
  | _ => false
  end.

Fixpoint scan_standard (bases : list str) (found_paths : list str) : M finder (list str) :=
  match bases with
  | [] => ret found_paths
  | base_path :: rest =>
      f <- get_state ;;
      if path_exists (os f) base_path then
        match listdir (os f) base_path with
        | inr subdirs =>
            found_paths' <- scan_subdirs base_path subdirs found_paths ;;
            scan_standard rest found_paths'
        | inl e =>
            if caught_by_listing e then
              log (u "Error accessing " ++ base_path ++ u ": " ++ exn_text e) WARNING ;;;
              scan_standard rest found_paths
            else raise e
        end
      else scan_standard rest found_paths
  end.

Definition find_unreal_in_standard_paths : M finder (list str) :=
  f <- get_state ;;
  log (u "Searching standard installation paths...") INFO ;;;
  found_paths <- scan_standard (STANDARD_PATHS (os f)) [] ;;
  match found_paths with
  | [] =>
      log (tr f (u "log_engine_not_found_standard")
              (u "Unreal Engine not found in standard paths.") []
              (u "Unreal Engine not found in standard paths.")) INFO ;;;
      ret found_paths
  | _ => ret found_paths
  end.

(** [with open(p, 'r') as f: json.load(f)] *)
Definition read_json (p : str) : M finder pyval :=
  f <- get_state ;;
  match fs (os f) !! p with
  | None => raise FileNotFoundError
  | Some Dir => raise PermissionError
  | Some (File Unreadable) => raise PermissionError
  | Some (File NotText) => raise UnicodeDecodeError
  | Some (File NotJson) => raise JSONDecodeError
  | Some (File (Json j)) => ret j
  end.

(** [v.get(key, default)]; only a dict has the method. *)
Definition py_get (v : pyval) (key : str) (default : pyval) : M finder pyval :=
  match v with
  | PDict items => ret (match dict_get key items with Some x => x | None => default end)
  | _ => raise AttributeError
  end.

Definition extract_version_from_path (engine_path : str) : M finder (option str) :=
  f <- get_state ;;
  let engine_path :=
    if negb (path_exists (os f) (os_path_join engine_path [u "Engine"])) then
      if str_contains (u "Engine") engine_path then
        os_path_dirname (os_path_dirname engine_path)
      else engine_path
    else engine_path in
  match search_ue_version engine_path with
  | Some v => ret (Some v)
  | None =>
      let version_file := os_path_join engine_path [u "Engine"; u "Build"; u "Build.version"] in
      if path_exists (os f) version_file then
        try_except
          (version_data <- read_json version_file ;;
           major <- py_get version_data (u "MajorVersion") (PInt 0) ;;
           minor <- py_get version_data (u "MinorVersion") (PInt 0) ;;
           ret (Some (py_str major ++ u "." ++ py_str minor)))
          (fun _ => true)
          (fun e =>
             log (u "Error reading version file: " ++ exn_text e) WARNING ;;;
             ret None)
      else ret None
  end.

(** The JSON document [{"unreal_engines": engines_data}]. *)
Definition config_document (engines_data : list (str * str)) : pyval :=
  PDict [(u "unreal_engines", PDict (map (fun kv => (fst kv, PStr (snd kv))) engines_data))].

Definition save_config (engines_data : list (str * str)) : M finder bool :=
  f <- get_state ;;
  let config_data := config_document engines_data in
  let config_dir := os_path_dirname (config_file f) in
  if negb (access_w (os f) config_dir) then
    log (u "No write permission for config directory: " ++ config_dir) ERROR ;;;
    ret false
  else if path_exists (os f) (config_file f) && negb (access_w (os f) (config_file f)) then
    log (u "No write permission for config file: " ++ config_file f) ERROR ;;;
    ret false
  else if open_w_fails (os f) (config_file f) then
    log (u "Error saving engine configuration: " ++ exn_text OtherOSError) ERROR ;;;
    ret false
  else
    put_state (set_os f (set_fs (os f) (<[config_file f := File (Json config_data)]> (fs (os f))))) ;;;
    log (u "Unreal Engine paths saved to " ++ config_file f) INFO ;;;
    ret true.

Definition load_config : M finder pyval :=
  f <- get_state ;;
  log (tr f (u "log_config_check") (u "Checking configuration file...") []
          (u "Checking configuration file...")) INFO ;;;
  if path_exists (os f) (config_file f) then
    try_except
      (config_data <- read_json (config_file f) ;;
       log (tr f (u "log_config_loaded") (u "Configuration file loaded successfully.") []
               (u "Configuration file loaded successfully.")) INFO ;;;
       py_get config_data (u "unreal_engines") (PDict []))
      (fun e => match e with JSONDecodeError => true | _ => false end)
      (fun e =>
         log (u "Error reading configuration file: " ++ exn_text e) WARNING ;;;
         ret (PDict []))
  else
    log (tr f (u "log_config_not_found") (u "Configuration file not found.") []
            (u "Configuration file not found.")) INFO ;;;
    ret (PDict []).

Fixpoint process_paths (paths : list str) (result : list (str * str))
  : M finder (list (str * str)) :=
  match paths with
  | [] => ret result
  | path :: rest =>
      version <- extract_version_from_path path ;;
      match version with
      | Some (c :: v) =>
          let version := c :: v in
          f <- get_state ;;
          let normalized_path :=
            if negb (path_exists (os f) (os_path_join path [u "Engine"])) then
              os_path_dirname (os_path_dirname path)
            else path in
          log (tr f (u "found_engine_version")
                  (u "Found Unreal Engine version " ++ version ++ u ": " ++ normalized_path)
                  [(u "0", version); (u "1", normalized_path)]
                  (u "Found Unreal Engine version " ++ version ++ u ": " ++ normalized_path))
              SUCCESS ;;;
          process_paths rest (dict_set version normalized_path result)
      | _ => process_paths rest result
      end
  end.

Definition _process_found_paths (paths : list str) : M finder (list (str * str)) :=
  result <- process_paths paths [] ;;
  match result with
  | [] => ret result
  | _ =>
      _ <- save_config result ;;
      f <- get_state ;;
      put_state (set_found_engines f result) ;;;
      ret result
  end.

(** The loop that re-validates the entries loaded from the configuration.
    A path that is not a string is outside the declared [Dict[str, str]]:
    an integer is looked up as a file descriptor and then fails in
    [os.path.join]; any other value fails in [os.path.exists]. *)
Fixpoint revalidate (items : list (str * pyval)) (valid_engines : list (str * str))
  : M finder (list (str * str)) :=
  match items with
  | [] => ret valid_engines
  | (version, path) :: rest =>
      f <- get_state ;;
      let invalid :=
        log (u "Engine version " ++ version ++ u " at path " ++ py_str path
             ++ u " is no longer valid or complete") WARNING ;;;
        revalidate rest valid_engines in
      match path with
      | PStr p =>
          if path_exists (os f) p && is_valid_engine_path (os f) p then
            revalidate rest (dict_set version p valid_engines)
          else invalid
      | PInt n => if fd_open (os f) n then raise TypeError else invalid
      | PBool b => if fd_open (os f) (if b then 1 else 0)%Z then raise TypeError else invalid
      | _ => raise TypeError
      end
  end.

(** Steps 2 to 5 of [find_all_engines]: the fresh scan. *)
Definition fresh_scan (stop_on_first : bool) : M finder (list (str * str)) :=
  registry_paths <- find_unreal_in_registry ;;
  match stop_on_first, registry_paths with
  | true, p :: _ => _process_found_paths [p]
  | _, _ =>
      env_paths <- find_unreal_in_env_vars ;;
      match stop_on_first, env_paths with
      | true, p :: _ => _process_found_paths [p]
      | _, _ =>
          standard_paths <- find_unreal_in_standard_paths ;;
          match stop_on_first, standard_paths with
          | true, p :: _ => _process_found_paths [p]
          | _, _ =>
              let all_paths := registry_paths ++ env_paths ++ standard_paths in
              match all_paths with
              | [] =>
                  f <- get_state ;;
                  log (tr f (u "quick_search_failed")
                          (u "Quick search methods failed to find Unreal Engine installations.") []
                          (u "Quick search methods failed to find Unreal Engine installations."))
                      INFO ;;;
                  log (tr f (u "manual_entry_required") (u "Manual entry will be required.") []
                          (u "Manual entry will be required.")) INFO ;;;
                  ret []
              | _ => _process_found_paths (set_iteration_order all_paths)
              end
          end
      end
  end.

Definition find_all_engines (stop_on_first force_rescan : bool) : M finder (list (str * str)) :=
  log (u "Starting search for installed Unreal Engine instances...") INFO ;;;
  if negb force_rescan then
    saved_engines <- load_config ;;
    if truthy saved_engines then
      f <- get_state ;;
      log (tr f (u "log_engines_loaded") (u "Unreal Engine paths loaded from configuration") []
              (u "Unreal Engine paths loaded from configuration")) SUCCESS ;;;
      valid_engines <-
        match saved_engines with
        | PDict items => revalidate items []
        | _ => raise AttributeError
        end ;;
      match valid_engines with
      | _ :: _ =>
          f <- get_state ;;
          put_state (set_found_engines f valid_engines) ;;;
          ret valid_engines
      | [] =>
          f <- get_state ;;
          log (tr f (u "log_paths_invalid") (u "Saved paths are invalid, performing new search") []
                  (u "Saved paths are invalid, performing new search")) WARNING ;;;
          fresh_scan stop_on_first
      end
    else fresh_scan stop_on_first
  else
    log (u "Forced rescan requested. Ignoring configuration file.") INFO ;;;
    fresh_scan stop_on_first.

End WithLibraries.

End EngineFinder.

(* ===================================================================== *)
(** ** PluginBuilder *)
(* ===================================================================== *)

Module PluginBuilder.

(** [QProcess.ProcessState] *)
Inductive process_state : Type := NotRunning | Starting | Running.

(** A [QProcess] object, as far as the builder looks at it. The three
    connections made in [build_plugin] are never undone, so a handle is
    always connected to the builder's three slots. *)
Record qprocess : Type := mkProcess {
  processId : Z;
  state : process_state;
  program : str;
  arguments : list str
}.

Record builder : Type := mkBuilder {
  process : option qprocess;
  source_plugin_path : option str;
  output_folder : option str;
  target_engine_path : option str;
  additional_params : list (str * pyval);
  localization : option localizer;
  os : world;
  signals : list event           (* emitted so far, oldest first *)
}.

(** [PluginBuilder(localization)] *)
Definition init (loc : option localizer) (w : world) : builder :=
  mkBuilder None None None None [] loc w [].

Definition set_os (b : builder) (w : world) : builder :=
  mkBuilder (process b) (source_plugin_path b) (output_folder b) (target_engine_path b)
            (additional_params b) (localization b) w (signals b).

Definition set_process (b : builder) (p : option qprocess) : builder :=
  mkBuilder p (source_plugin_path b) (output_folder b) (target_engine_path b)
            (additional_params b) (localization b) (os b) (signals b).

Definition set_request (b : builder) (src out tgt : str) (params : list (str * pyval))
  : builder :=
  mkBuilder (process b) (Some src) (Some out) (Some tgt) params (localization b) (os b)
            (signals b).

Definition emit (e : event) : M builder unit :=
  fun b => (Ok tt, mkBuilder (process b) (source_plugin_path b) (output_folder b)
                             (target_engine_path b) (additional_params b) (localization b)
                             (os b) (signals b ++ [e])).

(** [self.log(message, log_type)] *)
Definition log (message : str) (ty : log_type) : M builder unit :=
  emit (LogMessage message ty).

(** [self.localization(key, default, **kwargs) if self.localization else plain] *)
Definition tr (b : builder) (key default : str) (kwargs : list (str * str)) (plain : str) : str :=
  match localization b with
  | Some loc => loc key default kwargs
  | None => plain
  end.

(** The dict built by [extract_plugin_info]. *)
Record plugin_info : Type := mkInfo {
  name : pyval;
  version : pyval;
  description : pyval;
  category : pyval;
  modules : list pyval;
  is_engine_plugin : bool;
  engine_version : pyval;
  marketplace_url : pyval;
  supported_platforms : pyval
}.

Section WithLibraries.
Context `{PyLib} `{Unicode}.

Local Open Scope py_scope.

(** [with open(p, 'r') as f: json.load(f)] *)
Definition read_json (p : str) : M builder pyval :=
  b <- get_state ;;
  match fs (os b) !! p with
  | None => raise FileNotFoundError
  | Some Dir => raise PermissionError
  | Some (File Unreadable) => raise PermissionError
  | Some (File NotText) => raise UnicodeDecodeError
  | Some (File NotJson) => raise JSONDecodeError
  | Some (File (Json j)) => ret j
  end.

(** [v.get(key, default)]; only a dict has the method. *)
Definition py_get (v : pyval) (key : str) (default : pyval) : M builder pyval :=
  match v with
  | PDict items => ret (match dict_get key items with Some x => x | None => default end)
  | _ => raise AttributeError
  end.

(** [[m.get("Name") for m in ms]] *)
Fixpoint module_names (ms : list pyval) : M builder (list pyval) :=
  match ms with
  | [] => ret []
  | m :: rest =>
      n <- py_get m (u "Name") PNone ;;
      ns <- module_names rest ;;
      ret (n :: ns)
  end.

Definition extract_plugin_info (plugin_path : str) : M builder (option plugin_info) :=
  try_except
    (plugin_data <- read_json plugin_path ;;
     name <- py_get plugin_data (u "FriendlyName") (PStr (u "Unknown Plugin")) ;;
     version <- py_get plugin_data (u "Version") (PInt 0) ;;
     description <- py_get plugin_data (u "Description") (PStr []) ;;
     category <- py_get plugin_data (u "Category") (PStr []) ;;
     mods <- py_get plugin_data (u "Modules") (PList []) ;;
     modules <- match py_iter mods with
                | Some ms => module_names ms
                | None => raise TypeError
                end ;;
     ev <- py_get plugin_data (u "EngineVersion") (PStr []) ;;
     engine_version <- py_get plugin_data (u "EngineVersion") (PStr []) ;;
     marketplace_url <- py_get plugin_data (u "MarketplaceURL") (PStr []) ;;
     supported_platforms <- py_get plugin_data (u "SupportedTargetPlatforms") (PList []) ;;
     ret (Some (mkInfo name version description category modules
                       (negb (py_eq ev (PStr [])))
                       engine_version marketplace_url supported_platforms)))
    (fun _ => true)
    (fun e =>
       log (u "Error reading plugin information: " ++ exn_text e) ERROR ;;;
       ret None).

(** [not s] for an attribute that is [None] or a string. *)
Definition unset (s : option str) : bool :=
  match s with
  | None | Some [] => true
  | Some (_ :: _) => false
  end.

Definition attr (s : option str) : str := default [] s.

(** The loop over [self.additional_params.items()]. *)
Fixpoint add_params (params : list (str * pyval)) (command : list str) : list str :=
  match params with
  | [] => command
  | (param, value) :: rest =>
      match value with
      | PBool true => add_params rest (command ++ [u "-" ++ param])
      | _ =>
          if negb (py_in value [PBool false; PNone; PStr []]) then
            add_params rest ((command ++ [u "-" ++ param]) ++ [py_str value])
          else add_params rest command
      end
  end.

Definition get_build_command : M builder (option (list str)) :=
  b <- get_state ;;
  if unset (source_plugin_path b) || unset (output_folder b) || unset (target_engine_path b)
  then
    log (tr b (u "not_all_parameters_set")
            (u "Not all required parameters are set for building") []
            (u "Not all required parameters are set for building")) ERROR ;;;
    ret None
  else
    let uat_path :=
      os_path_normpath
        (os_path_join (attr (target_engine_path b))
                      [u "Engine"; u "Build"; u "BatchFiles"; u "RunUAT.bat"]) in
    if negb (path_exists (os b) uat_path) then
      log (tr b (u "help_error_uat") (u "RunUAT.bat file not found at path: " ++ uat_path)
              [(u "0", uat_path)]
              (u "RunUAT.bat file not found at path: " ++ uat_path)) ERROR ;;;
      ret None
    else
      let source_plugin_path := os_path_normpath (attr (source_plugin_path b)) in
      let output_folder := os_path_normpath (attr (output_folder b)) in
      let command :=
        [ uat_path; u "BuildPlugin"; u "-plugin"; source_plugin_path;
          u "-package"; output_folder ] in
      ret (Some (add_params (additional_params b) command)).

(** The loop [for i in range(2, len(command), 2)] of [get_command_string],
    over the arguments from index 2 on. *)
Fixpoint format_pairs_text (w : world) (args : list str) : list str :=
  match args with
  | [] => []
  | [param] => [param]
  | param :: value :: rest =>
      (if path_exists w (os_path_dirname value) then
         param ++ u "=" ++ [34] ++ backslashes_to_slashes value ++ [34]
       else param ++ u "=" ++ value)
      :: format_pairs_text w rest
  end.

Definition get_command_string : M builder str :=
  command <- get_build_command ;;
  b <- get_state ;;
  match command with
  | None | Some [] => ret []
  | Some [c0] => raise IndexError
  | Some (c0 :: c1 :: args) =>
      ret (str_join (u " ") (c0 :: c1 :: format_pairs_text (os b) args))
  end.

(** [p[0].upper() + p[1:]] after [lstrip('-')] *)
Definition capitalized (param : str) : M builder str :=
  match lstrip_dash param with
  | [] => raise IndexError
  | c :: r => ret (str_upper [c] ++ r)
  end.

(** The loop of [build_plugin] that formats the arguments for [QProcess]. *)
Fixpoint format_pairs_args (w : world) (args : list str) : M builder (list str) :=
  match args with
  | [] => ret []
  | [param] =>
      p <- capitalized param ;;
      ret [u "-" ++ p]
  | param :: value :: rest =>
      let value := if path_exists w (os_path_dirname value)
                   then backslashes_to_slashes value else value in
      p <- capitalized param ;;
      others <- format_pairs_args w rest ;;
      ret ((u "-" ++ p ++ u "=" ++ value) :: others)
  end.

(** [QProcess()] *)
Definition new_process : qprocess := mkProcess 0 NotRunning [] [].

(** [self.process.start(program, arguments)] *)
Definition start (program : str) (arguments : list str) : M builder unit :=
  b <- get_state ;;
  if can_spawn (os b) program then
    put_state (set_os (set_process b (Some (mkProcess (next_pid (os b)) Running program arguments)))
                      (spawn (os b) program arguments))
  else
    put_state (set_process b (Some (mkProcess 0 NotRunning program arguments))).

Definition build_plugin (source_plugin_path output_folder target_engine_path : str)
    (additional_params : option (list (str * pyval))) : M builder bool :=
  b <- get_state ;;
  put_state (set_request b source_plugin_path output_folder target_engine_path
                         (default [] additional_params)) ;;;
  b <- get_state ;;
  if negb (path_exists (os b) source_plugin_path) then
    log (tr b (u "error_plugin_not_found") (u "Plugin file not found: " ++ source_plugin_path)
            [(u "0", source_plugin_path)]
            (u "Plugin file not found: " ++ source_plugin_path)) ERROR ;;;
    ret false
  else
    let parent_dir := os_path_dirname output_folder in
    if negb (access_w (os b) parent_dir) then
      log (u "No permission to create directory in: " ++ parent_dir) ERROR ;;;
      ret false
    else
      match os_makedirs (fs (os b)) output_folder with
      | None =>
          log (u "Failed to create output directory: " ++ exn_text OtherOSError) ERROR ;;;
          ret false
      | Some fs' =>
          put_state (set_os b (set_fs (os b) fs')) ;;;
          command <- get_build_command ;;
          match command with
          | None | Some [] => ret false
          | Some (c0 :: rest) =>
              command_str <- get_command_string ;;
              b <- get_state ;;
              log (tr b (u "log_build_command") (u "Build command: " ++ command_str)
                      [(u "0", command_str)]
                      (u "Build command: " ++ command_str)) INFO ;;;
              emit BuildStarted ;;;
              b <- get_state ;;
              put_state (set_process b (Some new_process)) ;;;
              match rest with
              | [] => raise IndexError
              | c1 :: args =>
                  formatted <- format_pairs_args (os b) args ;;
                  start c0 (c1 :: formatted) ;;;
                  ret true
              end
          end
      end.

(** The severity [_process_stdout] gives a stripped line. *)
Definition classify (line : str) : log_type :=
  if search_keywords [u "error"; u "ошибка"; u "failed"] line then ERROR
  else if search_keywords [u "warning"; u "предупреждение"] line then WARNING
  else if search_keywords [u "success"; u "успешно"; u "completed"] line then SUCCESS
  else INFO.

(** The loop of [_process_stdout] over the lines of what was read. *)
Fixpoint stdout_lines (lines : list str) : M builder unit :=
  match lines with
  | [] => ret tt
  | line :: rest =>
      let line := strip line in
      match line with
      | [] => stdout_lines rest
      | _ :: _ =>
          log line (classify line) ;;;
          match search_percent line with
          | Some digits =>
              emit (BuildProgress (int_of_digits digits)) ;;;
              stdout_lines rest
          | None => stdout_lines rest
          end
      end
  end.

(** [_process_stdout], on the decoded text [readAllStandardOutput] returned. *)
Definition _process_stdout (data : str) : M builder unit :=
  stdout_lines (splitlines data).

Fixpoint stderr_lines (lines : list str) : M builder unit :=
  match lines with
  | [] => ret tt
  | line :: rest =>
      let line := strip line in
      match line with
      | [] => stderr_lines rest
      | _ :: _ => log line ERROR ;;; stderr_lines rest
      end
  end.

Definition _process_stderr (data : str) : M builder unit :=
  stderr_lines (splitlines data).

Definition _process_finished (exit_code : Z) : M builder unit :=
  b <- get_state ;;
  if (exit_code =? 0)%Z then
    let success_msg :=
      tr b (u "log_build_success") (u "Plugin build completed successfully") []
           (u "Plugin build completed successfully") in
    log success_msg SUCCESS ;;;
    emit (BuildFinished true success_msg)
  else
    let error_msg :=
      tr b (u "log_build_error")
           (u "Plugin build failed with error (code: " ++ str_of_Z exit_code ++ u ")")
           [(u "0", str_of_Z exit_code)]
           (u "Plugin build failed with error (code: " ++ str_of_Z exit_code ++ u ")") in
    log error_msg ERROR ;;;
    emit (BuildFinished false error_msg).

Definition shell (cmd : str) : M builder unit :=
  fun b => (Ok tt, set_os b (run_shell (os b) cmd)).

Fixpoint kill_by_name (names : list str) : M builder unit :=
  match names with
  | [] => ret tt
  | proc_name :: rest =>
      shell (u "taskkill /F /IM " ++ proc_name) ;;;
      kill_by_name rest
  end.

(** The message of the cancellation event. *)
Definition cancelled_message (b : builder) : str :=
  tr b (u "log_build_cancelled") (u "Plugin build cancelled by user") []
       (u "Plugin build cancelled by user").

Definition cancel_build : M builder bool :=
  b <- get_state ;;
  match process b with
  | None => ret false
  | Some p =>
      match state p with
      | NotRunning => ret false
      | _ =>
          let pid := processId p in
          shell (u "taskkill /F /PID " ++ str_of_Z pid ++ u " /T") ;;;
          kill_by_name [u "UnrealBuildTool.exe"; u "UBT.exe"] ;;;
          b <- get_state ;;
          (if negb (unset (output_folder b)) && path_exists (os b) (attr (output_folder b)) then
             match shutil_rmtree (fs (os b)) (attr (output_folder b)) with
             | Some fs' =>
                 put_state (set_os b (set_fs (os b) fs')) ;;;
                 log (u "Successfully removed folder: " ++ attr (output_folder b)) SUCCESS
             | None =>
                 log (u "Failed to remove folder: " ++ exn_text OtherOSError) WARNING
             end
           else ret tt) ;;;
          let cancelled_msg := cancelled_message b in
          log cancelled_msg WARNING ;;;
          emit (BuildFinished false cancelled_msg) ;;;
          ret true
      end
  end.

(** *** The event loop

    What can happen to a builder: the application calls one of the two
    public operations, or Qt delivers a signal of the process handle to the
    slot connected to it. Qt reports output and exit of a handle whose
    process it has seen start and not yet seen exit; reporting the exit
    moves the handle to [NotRunning]. [cancel_build] ends the process from
    outside (taskkill) and does not touch the handle, so Qt still has that
    exit to report afterwards. *)
Inductive action : Type :=
  | CallBuildPlugin (source_plugin_path output_folder target_engine_path : str)
                    (additional_params : option (list (str * pyval)))
  | CallCancelBuild
  | ReadyReadStandardOutput (data : str)
  | ReadyReadStandardError (data : str)
  | Finished (exit_code : Z).

Definition handle_running (b : builder) : bool :=
  match process b with
  | Some p => match state p with NotRunning => false | _ => true end
  | None => false
  end.

Definition mark_exited (b : builder) : builder :=
  match process b with
  | Some p => set_process b (Some (mkProcess (processId p) NotRunning (program p) (arguments p)))
  | None => b
  end.

Definition forget {A} (m : M builder A) : M builder unit := _ <- m ;; ret tt.

(** One step of the event loop; [None] when the action cannot happen in
    this state. An exception that leaves a call is reported by Qt and the
    loop goes on, with the builder as the call left it. *)
Definition step (a : action) (b : builder) : option builder :=
  let run (m : M builder unit) (b : builder) := Some (snd (m b)) in
  match a with
  | CallBuildPlugin src out tgt params => run (forget (build_plugin src out tgt params)) b
  | CallCancelBuild => run (forget cancel_build) b
  | ReadyReadStandardOutput data =>
      if handle_running b then run (_process_stdout data) b else None
  | ReadyReadStandardError data =>
      if handle_running b then run (_process_stderr data) b else None
  | Finished exit_code =>
      if handle_running b then run (_process_finished exit_code) (mark_exited b) else None
  end.

Fixpoint run (actions : list action) (b : builder) : option builder :=
  match actions with
  | [] => Some b
  | a :: rest => match step a b with
                 | Some b' => run rest b'
                 | None => None
                 end
  end.

End WithLibraries.

End PluginBuilder.

(* ===================================================================== *)
(** ** A plain instance of the library interfaces *)
(* ===================================================================== *)

(** The instances below are what the examples run on. They follow the
    Windows behaviour of the library for plain inputs: paths that are more
    than a bare drive, without dot segments or doubled separators, joined
    with relative components; ASCII digits; ASCII and Cyrillic letters. The
    whitespace of [str.strip] is the full set. *)
Module Plain.

Definition is_sep (c : N) : bool := (c =? 92) || (c =? 47).

Definition ends_with_sep (p : str) : bool :=
  match last p with
  | Some c => is_sep c
  | None => true
  end.

Definition join (p : str) (components : list str) : str :=
  fold_left (fun acc c => if ends_with_sep acc then acc ++ c else acc ++ [92] ++ c)
            components p.

Definition normpath (p : str) : str := map (fun c => if c =? 47 then 92 else c) p.

(** Drops the last component of a reversed path, then the separators
    before it (unless nothing else is left). *)
Fixpoint drop_component (rp : str) : str :=
  match rp with
  | [] => []
  | c :: r => if is_sep c then rp else drop_component r
  end.

Fixpoint drop_seps (rp : str) : str :=
  match rp with
  | [] => []
  | c :: r => if is_sep c then drop_seps r else rp
  end.

Definition dirname (p : str) : str :=
  let head := drop_component (rev p) in
  match drop_seps head with
  | [] => rev head
  | stripped => rev stripped
  end.

Definition ascii_upper (c : N) : N := if (97 <=? c) && (c <=? 122) then c - 32 else c.

Fixpoint dedup_paths (seen : list str) (l : list str) : list str :=
  match l with
  | [] => []
  | x :: r => if existsb (str_eqb x) seen then dedup_paths seen r
              else x :: dedup_paths (x :: seen) r
  end.

Definition under (p q : str) : bool :=
  str_eqb q p || starts_with (p ++ [92]) q || starts_with (p ++ [47]) q.

Definition text_of_exn (e : exn) : str :=
  match e with
  | FileNotFoundError => u "FileNotFoundError"
  | PermissionError => u "PermissionError"
  | OtherOSError => u "OSError"
  | JSONDecodeError => u "JSONDecodeError"
  | UnicodeDecodeError => u "UnicodeDecodeError"
  | AttributeError => u "AttributeError"
  | TypeError => u "TypeError"
  | IndexError => u "IndexError"
  end.

#[export] Instance pylib : PyLib := {|
  os_path_join := join;
  os_path_normpath := normpath;
  os_path_dirname := dirname;
  exn_text := text_of_exn;
  container_repr := fun _ => u "<container>";
  set_iteration_order := dedup_paths [];
  str_upper := map ascii_upper;
  os_makedirs := fun f p =>
    match f !! p with
    | Some (File _) => None
    | _ => Some (<[p := Dir]> f)
    end;
  shutil_rmtree := fun f p => Some (filter (fun kv => under p (fst kv) = false) f)
|}.

Definition lower (c : N) : N :=
  if (65 <=? c) && (c <=? 90) then c + 32
  else if (1040 <=? c) && (c <=? 1071) then c + 32
  else if (1024 <=? c) && (c <=? 1039) then c + 80
  else c.

#[export] Instance unicode : Unicode := {|
  is_decimal := fun c => (48 <=? c) && (c <=? 57);
  decimal_value := fun c => (Z.of_N c - 48)%Z;
  is_space := fun c =>
    ((9 <=? c) && (c <=? 13)) || ((28 <=? c) && (c <=? 32)) || (c =? 133) || (c =? 160)
    || (c =? 5760) || ((8192 <=? c) && (c <=? 8202)) || (c =? 8232) || (c =? 8233)
    || (c =? 8239) || (c =? 8287) || (c =? 12288);
  ignorecase_eq := fun p c => lower p =? lower c
|}.

(** A world with nothing in it. *)
Definition empty_world : world :=
  mkWorld ∅ (fun _ => false) (fun _ => false) (fun _ => inl FileNotFoundError)
          (fun _ => None) [] None (fun _ => false) [] (fun _ => true) 1000%Z [].

(** An engine installed at [root]. *)
Definition install_engine (root : str) (f : gmap (list N) node) : gmap (list N) node :=
  <[join root EngineFinder.uat_rel := File NotJson]>
  (<[join root EngineFinder.ue_editor_rel := File NotJson]>
  (<[join root EngineFinder.content_rel := Dir]>
  (<[join root EngineFinder.plugins_rel := Dir]>
  (<[join root EngineFinder.source_rel := Dir]>
  (<[join root [u "Engine"] := Dir]>
  (<[root := Dir]> f)))))).

End Plain.

(* ===================================================================== *)
(** ** Notions used to state the properties *)
(* ===================================================================== *)

Arguments u : simpl never.

Section Reasoning.
Context {S : Type}.

(** Running [m] from [s] leaves the observation [f] of the state as it was. *)
Definition keeps_at {X A} (f : S -> X) (m : M S A) (s : S) : Prop :=
  f (snd (m s)) = f s.

Definition keeps {X A} (f : S -> X) (m : M S A) : Prop := forall s, keeps_at f m s.

(** The outcome of running [m] from [s] satisfies [Q]. *)
Definition wp {A} (m : M S A) (s : S) (Q : res A -> S -> Prop) : Prop :=
  Q (fst (m s)) (snd (m s)).

End Reasoning.

Section BuilderNotions.
Context `{PyLib} `{Unicode}.
Import PluginBuilder.

(** The builder after it has emitted [evs]. *)
Definition add_signals (b : builder) (evs : list event) : builder :=
  mkBuilder (process b) (source_plugin_path b) (output_folder b) (target_engine_path b)
            (additional_params b) (localization b) (os b) (signals b ++ evs).

(** The four attributes [build_plugin] stores. *)
Definition request (b : builder) :=
  (source_plugin_path b, output_folder b, target_engine_path b, additional_params b).

(** The path of the entry script, as [get_build_command] forms it. *)
Definition uat_path_of (b : builder) : str :=
  os_path_normpath (os_path_join (attr (target_engine_path b))
                                 [u "Engine"; u "Build"; u "BatchFiles"; u "RunUAT.bat"]).

(** The six leading arguments. *)
Definition base_command (b : builder) : list str :=
  [ uat_path_of b; u "BuildPlugin"; u "-plugin";
    os_path_normpath (attr (source_plugin_path b));
    u "-package"; os_path_normpath (attr (output_folder b)) ].

(** The encoding of one option, value by value, as the code has it. *)
Definition encode_option (kv : str * pyval) : list str :=
  match snd kv with
  | PBool true => [u "-" ++ fst kv]
  | PBool false | PNone | PStr [] | PInt 0 => []
  | v => [u "-" ++ fst kv; py_str v]
  end.

(** The encoding of one option in the words of the specification: a bare
    flag for [True], nothing for [False], [None] and the empty string, and
    flag and value for any other value. *)
Definition encode_option_as_specified (kv : str * pyval) : list str :=
  match snd kv with
  | PBool true => [u "-" ++ fst kv]
  | PBool false | PNone | PStr [] => []
  | v => [u "-" ++ fst kv; py_str v]
  end.



End BuilderNotions.

Section OutputNotions.
Context `{PyLib} `{Unicode}.
Import PluginBuilder.

(** [kw] occurs somewhere in [line], letter case aside. *)
Definition occurs_ignoring_case (kw line : str) : Prop :=
  exists pre mid post,
    line = pre ++ mid ++ post /\ Forall2 (fun p c => ignorecase_eq p c = true) kw mid.

Definition mentions (kws : list str) (line : str) : Prop :=
  exists kw, In kw kws /\ occurs_ignoring_case kw line.

Definition error_words : list str := [u "error"; u "ошибка"; u "failed"].
Definition warning_words : list str := [u "warning"; u "предупреждение"].
Definition success_words : list str := [u "success"; u "успешно"; u "completed"].

(** The severity of a line by keyword, with precedence
    ERROR > WARNING > SUCCESS > INFO. *)
Inductive severity (line : str) : log_type -> Prop :=
  | severity_error :
      mentions error_words line -> severity line ERROR
  | severity_warning :
      ~ mentions error_words line -> mentions warning_words line ->
      severity line WARNING
  | severity_success :
      ~ mentions error_words line -> ~ mentions warning_words line ->
      mentions success_words line -> severity line SUCCESS
  | severity_info :
      ~ mentions error_words line -> ~ mentions warning_words line ->
      ~ mentions success_words line -> severity line INFO.

(** [s] begins with the digits [ds] followed by a percent sign: the
    pattern [(\d+)%] matches at the head of [s] with [ds] as its group. *)
Definition percent_match (s ds : str) : Prop :=
  ds <> [] /\ Forall (fun c => is_decimal c = true) ds
  /\ exists post, s = ds ++ [37] ++ post.

(** [ds] is the group of the match [re.search(r'(\d+)%', line)] finds: of
    the places of [line] where the pattern matches the leftmost, and there
    the match with the most digits. *)
Definition first_percent (line ds : str) : Prop :=
  exists pre rest,
    line = pre ++ rest
    /\ percent_match rest ds
    /\ (forall ds', percent_match rest ds' -> (length ds' <= length ds)%nat)
    /\ (forall pre' rest', line = pre' ++ rest' -> (length pre' < length pre)%nat ->
          ~ exists ds', percent_match rest' ds').

(** What one line of the text read gives rise to. *)
Definition line_outcome (raw : str) (evs : list event) : Prop :=
  match strip raw with
  | [] => evs = []
  | line =>
      exists ty, severity line ty
        /\ ((~ (exists ds, first_percent line ds) /\ evs = [LogMessage line ty])
            \/ (exists ds, first_percent line ds
                  /\ evs = [LogMessage line ty; BuildProgress (int_of_digits ds)]))
  end.

(** The events the loop of [_process_stdout] emits for one line. *)
Definition line_events (raw : str) : list event :=
  match strip raw with
  | [] => []
  | line =>
      LogMessage line (classify line)
      :: match search_percent line with
         | Some ds => [BuildProgress (int_of_digits ds)]
         | None => []
         end
  end.

Definition is_log (e : event) : Prop := exists m ty, e = LogMessage m ty.

(** The delivery of output of the process. *)
Definition is_output (a : action) : Prop :=
  exists data, a = ReadyReadStandardOutput data \/ a = ReadyReadStandardError data.

(** The value of a key of the descriptor, or its default. *)
Definition field (key : str) (dflt : pyval) (items : list (str * pyval)) : pyval :=
  default dflt (dict_get key items).

Definition is_object (v : pyval) : bool :=
  match v with PDict _ => true | _ => false end.

(** The Modules entry, when there is one, can be iterated and yields only
    objects: a list of objects, or a string or an object that is empty and
    so yields nothing. *)
Definition modules_yield_objects (items : list (str * pyval)) : bool :=
  match dict_get (u "Modules") items with
  | None => true
  | Some mods =>
      match py_iter mods with
      | Some ms => forallb is_object ms
      | None => false
      end
  end.

(** The names of the modules of a descriptor. *)
Definition names_of_modules (items : list (str * pyval)) : list pyval :=
  match dict_get (u "Modules") items with
  | Some mods =>
      map (fun m => match m with
                    | PDict kvs => field (u "Name") PNone kvs
                    | _ => PNone
                    end) (default [] (py_iter mods))
  | None => []
  end.

End OutputNotions.

Section FinderNotions.
Context `{PyLib} `{Unicode}.
Import EngineFinder.

(** The finder after it has logged [evs]. *)
Definition logged (f : finder) (evs : list event) : finder :=
  mkFinder (config_file f) (found_engines f) (localization f) (os f) (signals f ++ evs).

(** Every entry of [C] names an existing, valid installation. *)
Definition all_valid (w : world) (C : list (str * str)) : Prop :=
  Forall (fun kv => path_exists w (snd kv) = true
                    /\ is_valid_engine_path w (snd kv) = true) C.

(** The world and the recorded engines: what logging does not touch. *)
Definition fixed (f : finder) : world * list (str * str) := (os f, found_engines f).

(** In the world of [f] the three sources yield no candidate. *)
Definition sources_empty (f : finder) : Prop :=
  (forall g, os g = os f -> fst (find_unreal_in_registry g) = Ok [])
  /\ (forall g, os g = os f -> fst (find_unreal_in_env_vars g) = Ok [])
  /\ (forall g, os g = os f -> fst (find_unreal_in_standard_paths g) = Ok []).

(** What [find_all_engines] logs when it answers from the configuration. *)
Definition reload_log (f : finder) : list event :=
  [ LogMessage (u "Starting search for installed Unreal Engine instances...") INFO;
    LogMessage (tr f (u "log_config_check") (u "Checking configuration file...") []
                   (u "Checking configuration file...")) INFO;
    LogMessage (tr f (u "log_config_loaded") (u "Configuration file loaded successfully.") []
                   (u "Configuration file loaded successfully.")) INFO;
    LogMessage (tr f (u "log_engines_loaded")
                   (u "Unreal Engine paths loaded from configuration") []
                   (u "Unreal Engine paths loaded from configuration")) SUCCESS ].

End FinderNotions.

(* ===================================================================== *)
(** ** Concrete objects for the examples *)
(* ===================================================================== *)

Module Examples.
Import Plain.

Definition engine_root : str := u "C:\Engines\UE_5.3".
Definition plugin_file : str := u "C:\plugins\Foo\Foo.uplugin".
Definition output_dir : str := u "C:\plugins\Foo_5.3".
Definition config_path : str := u "C:\cfg\engines.json".

(** A descriptor with no key at all: the JSON text [{}]. *)
Definition empty_descriptor : pyval := PDict [].

(** A descriptor whose Modules entry is not a list of objects:
    [{"Modules": [1]}]. *)
Definition odd_descriptor : pyval := PDict [(u "Modules", PList [PInt 1])].
Definition odd_plugin_file : str := u "C:\plugins\Odd\Odd.uplugin".

Definition files : gmap (list N) node :=
  <[plugin_file := File (Json empty_descriptor)]>
  (<[odd_plugin_file := File (Json odd_descriptor)]>
  (<[u "C:\plugins" := Dir]>
  (<[u "C:\cfg" := Dir]>
  (install_engine engine_root ∅)))).

(** A workstation with one engine, known to the registry, where every
    directory is writable. *)
Definition workstation : world :=
  mkWorld files (fun _ => true) (fun _ => false) (fun _ => inl FileNotFoundError)
          (fun key => if str_eqb key (u "SOFTWARE\EpicGames\Unreal Engine")
                      then Some [Some engine_root] else None)
          [] None (fun _ => false) [] (fun _ => true) 1000%Z [].

Definition fresh_builder : PluginBuilder.builder := PluginBuilder.init None workstation.

(** The builder once a build of the plugin has been started. *)
Definition running_builder : PluginBuilder.builder :=
  snd (PluginBuilder.build_plugin plugin_file output_dir engine_root None fresh_builder).

Definition with_params (params : list (str * pyval)) : PluginBuilder.builder :=
  PluginBuilder.set_request fresh_builder plugin_file output_dir engine_root params.

Definition sample_params : list (str * pyval) :=
  [ (u "Strict", PBool true);
    (u "TargetPlatforms", PStr (u "Win64+Linux"));
    (u "Foo", PBool false);
    (u "Bar", PStr []) ].

Definition zero_params : list (str * pyval) := [ (u "Jobs", PInt 0) ].

(** A build, its cancellation, and the exit Qt reports afterwards. *)
Definition cancelled_run : list PluginBuilder.action :=
  [ PluginBuilder.CallBuildPlugin plugin_file output_dir engine_root None;
    PluginBuilder.CallCancelBuild;
    PluginBuilder.Finished 1 ].

(** The last [n] signals of a builder. *)
Definition last_signals (n : nat) (b : PluginBuilder.builder) : list event :=
  rev (take n (rev (PluginBuilder.signals b))).

Definition fresh_finder : EngineFinder.finder :=
  EngineFinder.mkFinder config_path [] None workstation [].




(** The content of a configuration written on an earlier day. *)
Definition earlier_mapping : list (str * str) := [ (u "4.27", u "C:\Engines\UE_4.27") ].

(** A workstation without any engine, with that configuration; every
    path is writable. *)
Definition idle_world : world :=
  mkWorld (<[config_path := File (Json (EngineFinder.config_document earlier_mapping))]>
           (<[u "C:\cfg" := Dir]> ∅))
          (fun _ => true) (fun _ => false) (fun _ => inl FileNotFoundError)
          (fun _ => None) [] None (fun _ => false) [] (fun _ => true) 1000%Z [].

Definition idle_finder : EngineFinder.finder :=
  EngineFinder.mkFinder config_path [] None idle_world [].

(** A line of output that reaches the builder in two reads. *)
Definition split_line : list PluginBuilder.action :=
  [ PluginBuilder.ReadyReadStandardOutput (u "Build 4");
    PluginBuilder.ReadyReadStandardOutput (u "2% complete") ].

End Examples.

(* ===================================================================== *)
(** ** Further notions: the engine finder *)
(* ===================================================================== *)

Section FinderFurtherNotions.
Context `{PyLib} `{Unicode}.
Import EngineFinder.

(** The path exists and is a valid installation: the test every source and
    the revalidation apply. *)
Definition passes (w : world) (p : str) : bool :=
  path_exists w p && is_valid_engine_path w p.

(** All of a finder but its log and its recorded engines, with the
    configuration file taken out of the file system. *)
Definition outside (f : finder) : str * option localizer * world :=
  (config_file f, localization f,
   set_fs (os f) (delete (config_file f) (fs (os f)))).

(** The entries of a loaded configuration, as JSON. *)
Definition as_json (C : list (str * str)) : list (str * pyval) :=
  map (fun kv => (fst kv, PStr (snd kv))) C.

(** The line logged for an entry that is dropped by the revalidation. *)
Definition dropped_line (kv : str * str) : event :=
  LogMessage (u "Engine version " ++ fst kv ++ u " at path " ++ snd kv
              ++ u " is no longer valid or complete") WARNING.

(** [UE], an optional underscore and the token [v] occur in [s]. *)
Definition names_version (s v : str) : Prop :=
  exists pre post, s = pre ++ u "UE" ++ v ++ post \/ s = pre ++ u "UE_" ++ v ++ post.

(** [v] is [<digits>.<digits>]. *)
Definition version_shaped (v : str) : Prop :=
  exists major minor,
    v = major ++ [46] ++ minor
    /\ major <> [] /\ Forall (fun c => is_decimal c = true) major
    /\ minor <> [] /\ Forall (fun c => is_decimal c = true) minor.

(** The root [_process_found_paths] stores for a candidate. *)
Definition normalized (w : world) (path : str) : str :=
  if negb (path_exists w (os_path_join path [u "Engine"])) then
    os_path_dirname (os_path_dirname path)
  else path.

(** The version [extract_version_from_path] gives a candidate, when it is a
    usable one. *)
Definition has_version (f : finder) (path v : str) : Prop :=
  fst (extract_version_from_path path f) = Ok (Some v) /\ v <> [].

End FinderFurtherNotions.

Section FinderSourceNotions.
Context `{PyLib} `{Unicode}.
Import EngineFinder.

(** [p] is the InstalledDirectory of a subkey of one of the registry keys. *)
Definition from_registry (w : world) (p : str) : Prop :=
  exists key subkeys,
    In key REGISTRY_PATHS /\ registry w key = Some subkeys /\ In (Some p) subkeys.

(** [p] is a value of the environment that contains one of the names. *)
Definition from_environment (w : world) (p : str) : Prop :=
  In p (environ w)
  /\ exists name, In name POSSIBLE_ENGINE_NAMES /\ str_contains name p = true.

(** [p] is an entry of one of the standard directories. *)
Definition from_standard_paths (w : world) (p : str) : Prop :=
  exists base names subdir,
    In base (STANDARD_PATHS w) /\ listdir w base = inr names /\ In subdir names
    /\ p = os_path_join base [subdir].

End FinderSourceNotions.

Section FinderConfigNotions.
Context `{PyLib} `{Unicode}.
Import EngineFinder.

(** The three conditions under which [save_config] writes. *)
Definition can_save (f : finder) : bool :=
  access_w (os f) (os_path_dirname (config_file f))
  && (negb (path_exists (os f) (config_file f)) || access_w (os f) (config_file f))
  && negb (open_w_fails (os f) (config_file f)).

(** The entries of [C] that pass the check in [w], and those that do not. *)
Definition survivors (w : world) (C : list (str * str)) : list (str * str) :=
  List.filter (fun kv => passes w (snd kv)) C.

Definition dropped (w : world) (C : list (str * str)) : list (str * str) :=
  List.filter (fun kv => negb (passes w (snd kv))) C.

(** A JSON value that is not an object. *)
Definition not_an_object (j : pyval) : Prop :=
  match j with PDict _ => False | _ => True end.

End FinderConfigNotions.

Section FinderErrorNotions.
Context `{PyLib} `{Unicode}.
Import EngineFinder.




End FinderErrorNotions.

(* ===================================================================== *)
(** ** Further notions: the plugin builder *)
(* ===================================================================== *)

Section BuilderFurtherNotions.
Context `{PyLib} `{Unicode}.
Import PluginBuilder.

(** The events [b'] has emitted since [b]. *)
Definition emitted (b b' : builder) (evs : list event) : Prop :=
  signals b' = signals b ++ evs.

(** The three ways a call of [build_plugin] on [b] can end in [b']. *)
Definition build_outcome (b : builder) (r : res bool) (b' : builder) : Prop :=
  match r with
  | Ok false =>
      (exists msg, emitted b b' [LogMessage msg ERROR])
      /\ process b' = process b
      /\ spawn_log (os b') = spawn_log (os b)
  | Ok true =>
      (exists msg, emitted b b' [LogMessage msg INFO; BuildStarted])
      /\ exists p formatted,
           process b' = Some p
           /\ program p = uat_path_of b'
           /\ arguments p = u "BuildPlugin" :: formatted
           /\ fst (format_pairs_args (os b')
                     (skipn 2 (base_command b'
                               ++ flat_map encode_option (additional_params b'))) b')
              = Ok formatted
           /\ spawn_log (os b')
              = spawn_log (os b)
                ++ match state p with
                   | Running => [(processId p, program p, arguments p)]
                   | _ => []
                   end
  | Raise e =>
      e = IndexError
      /\ (exists msg, emitted b b' [LogMessage msg INFO; BuildStarted])
      /\ process b' = Some new_process
      /\ spawn_log (os b') = spawn_log (os b)
  end.

End BuilderFurtherNotions.

Section BuilderCancelNotions.
Context `{PyLib} `{Unicode}.
Import PluginBuilder.

(** The commands [cancel_build] runs for the process [pid], in order. *)
Definition kill_commands (pid : Z) : list str :=
  [ u "taskkill /F /PID " ++ str_of_Z pid ++ u " /T";
    u "taskkill /F /IM " ++ u "UnrealBuildTool.exe";
    u "taskkill /F /IM " ++ u "UBT.exe" ].

(** The file system once [cancel_build] has removed the output folder, if
    one is stored and exists. *)
Definition without_output (b : builder) : gmap (list N) node :=
  if negb (unset (output_folder b)) && path_exists (os b) (attr (output_folder b)) then
    default (fs (os b)) (shutil_rmtree (fs (os b)) (attr (output_folder b)))
  else fs (os b).

(** The texts of the log events among [evs]. *)
Definition log_texts (evs : list event) : list str :=
  flat_map (fun e => match e with LogMessage m _ => [m] | _ => [] end) evs.

End BuilderCancelNotions.

Section BuilderArgumentNotions.
Context `{PyLib} `{Unicode}.
Import PluginBuilder.

(** A value as the argument loops pass it on: with forward slashes when
    its directory exists. *)
Definition slashed (w : world) (value : str) : str :=
  if path_exists w (os_path_dirname value) then backslashes_to_slashes value else value.

(** A name without its leading dashes, first character in upper case. *)
Definition capital (param : str) : str :=
  match lstrip_dash param with
  | [] => []
  | c :: r => str_upper [c] ++ r
  end.

(** A name that is more than dashes. *)
Definition named (param : str) : Prop := lstrip_dash param <> [].

(** A value [get_build_command] passes on after its flag. *)
Definition has_value (v : pyval) : Prop :=
  match v with
  | PBool _ | PNone | PStr [] | PInt 0 => False
  | _ => True
  end.

(** The single argument [-Key=value]. *)
Definition key_value (w : world) (key value : str) : str :=
  u "-" ++ capital key ++ u "=" ++ slashed w value.

End BuilderArgumentNotions.

Section BuilderLoopNotions.
Context `{PyLib} `{Unicode}.
Import PluginBuilder.

(** The number of start events among [evs]. *)
Definition announced (evs : list event) : nat :=
  length (List.filter (fun e => match e with BuildStarted => true | _ => false end) evs).

(** From [b] to [b'] the builder has emitted [evs] and started [procs]. *)
Definition progress (b b' : builder) (evs : list event) (procs : list (Z * str * list str))
  : Prop :=
  signals b' = signals b ++ evs /\ spawn_log (os b') = spawn_log (os b) ++ procs.

End BuilderLoopNotions.

(* ===================================================================== *)
(** ** AdvancedOptionsDialog: the option map handed to the builder *)
(* ===================================================================== *)

Section Split.
Context `{Unicode}.

(** [s.split()]: the maximal runs of characters that are not whitespace. *)
Fixpoint split_from (s cur : str) : list str :=
  match s with
  | [] => match cur with [] => [] | _ => [cur] end
  | c :: r =>
      if is_space c then
        match cur with
        | [] => split_from r []
        | _ => cur :: split_from r []
        end
      else split_from r (cur ++ [c])
  end.

Definition split (s : str) : list str := split_from s [].

End Split.

(** [s.split(sep, 1)] when [sep in s]: what stands before the first [sep]
    and what stands after it; [None] when [sep] is not in [s]. *)
Fixpoint split_once (sep : N) (s : str) : option (str * str) :=
  match s with
  | [] => None
  | c :: r =>
      if c =? sep then Some ([], r)
      else match split_once sep r with
           | Some (key, value) => Some (c :: key, value)
           | None => None
           end
  end.

Module AdvancedOptionsDialog.

(** The widgets [get_build_options] reads: the platform check boxes in the
    order the dialog creates them, the five option check boxes, and the
    line of additional parameters. *)
Record dialog : Type := mkDialog {
  platform_checkboxes : list (str * bool);
  create_dist_checkbox : bool;
  no_host_platform_checkbox : bool;
  include_debug_files_checkbox : bool;
  strict_checkbox : bool;
  unversioned_checkbox : bool;
  extra_params_edit : str
}.

(** The platforms the dialog offers. *)
Definition PLATFORMS : list str := [u "Win64"; u "Win32"; u "Mac"; u "Linux"].

(** The dialog as it opens: Win64 checked, nothing else. *)
Definition init : dialog :=
  mkDialog (map (fun platform => (platform, str_eqb platform (u "Win64"))) PLATFORMS)
           false false false false false [].

Section WithLibraries.
Context `{Unicode}.

(** The body of the loop over the additional parameters. *)
Definition add_custom (options : list (str * pyval)) (param : str) : list (str * pyval) :=
  if starts_with (u "-") param then
    let param := skipn 1 param in
    match split_once 61 (* = *) param with
    | Some (key, value) => dict_set key (PStr value) options
    | None => dict_set param (PBool true) options
    end
  else options.

Definition get_build_options (d : dialog) : list (str * pyval) :=
  let options := [] in
  let selected_platforms := map fst (List.filter snd (platform_checkboxes d)) in
  let options :=
    match selected_platforms with
    | [] => options
    | _ => dict_set (u "TargetPlatforms") (PStr (str_join (u "+") selected_platforms)) options
    end in
  let options :=
    if create_dist_checkbox d then dict_set (u "CreateSubFolder") (PBool true) options
    else options in
  let options :=
    if no_host_platform_checkbox d then dict_set (u "NoHostPlatform") (PBool true) options
    else options in
  let options :=
    if include_debug_files_checkbox d
    then dict_set (u "IncludeDebugFiles") (PBool true) options
    else options in
  let options :=
    if strict_checkbox d then dict_set (u "Strict") (PBool true) options else options in
  let options :=
    if unversioned_checkbox d then dict_set (u "Unversioned") (PBool true) options
    else options in
  let extra_params := strip (extra_params_edit d) in
  match extra_params with
  | [] => options
  | _ => fold_left add_custom (split extra_params) options
  end.

End WithLibraries.

End AdvancedOptionsDialog.

Section DialogNotions.
Context `{PyLib} `{Unicode}.
Import AdvancedOptionsDialog.

(** A bare flag or a text: the two kinds of value the dialog produces. *)
Definition flag_or_text (v : pyval) : Prop :=
  v = PBool true \/ exists s, v = PStr s.

(** The names of the option boxes that are checked, in the order
    [get_build_options] reads them. *)
Definition checked_flags (d : dialog) : list str :=
  (if create_dist_checkbox d then [u "CreateSubFolder"] else [])
  ++ (if no_host_platform_checkbox d then [u "NoHostPlatform"] else [])
  ++ (if include_debug_files_checkbox d then [u "IncludeDebugFiles"] else [])
  ++ (if strict_checkbox d then [u "Strict"] else [])
  ++ (if unversioned_checkbox d then [u "Unversioned"] else []).

(** The platforms that are checked. *)
Definition selected_platforms (d : dialog) : list str :=
  map fst (List.filter snd (platform_checkboxes d)).

(** The argument the process gets for the platforms, if any is checked. *)
Definition platform_arguments (w : world) (d : dialog) : list str :=
  match selected_platforms d with
  | [] => []
  | platforms => [key_value w (u "TargetPlatforms") (str_join (u "+") platforms)]
  end.

End DialogNotions.

Section DialogArgumentNotions.
Context `{PyLib} `{Unicode}.
Import AdvancedOptionsDialog.

(** Bare flags as the formatting loop of [build_plugin] passes them on:
    two by two, the second as the value of the first. *)
Fixpoint merged_flags (w : world) (flags : list str) : list str :=
  match flags with
  | [] => []
  | [k] => [u "-" ++ capital k]
  | k1 :: k2 :: rest => key_value w k1 (u "-" ++ k2) :: merged_flags w rest
  end.

End DialogArgumentNotions.

(* ===================================================================== *)
(** ** MainWindow: the engine selected as target *)
(* ===================================================================== *)

Module MainWindow.

(** What [get_target_engine_path] reads: the engines the window holds and
    the text of the entry selected in the combo box of target versions. *)
Record window : Type := mkWindow {
  engine_paths : list (str * str);
  target_version_combo : str     (* [currentText()] *)
}.

Definition get_target_engine_path (self : window) : option str :=
  let selected_version := target_version_combo self in
  let selected_version :=
    if starts_with (u "UE_") selected_version then skipn 3 selected_version
    else selected_version in
  dict_get selected_version (engine_paths self).

End MainWindow.

(* ===================================================================== *)
(** ** Further concrete objects *)
(* ===================================================================== *)

Module Scenarios.
Import Plain Examples.

(** A configuration that names the engine of the workstation and one that
    is gone. *)
Definition gone_root : str := u "C:\Engines\UE_4.27".

Definition stale_mapping : list (str * str) :=
  [ (u "4.27", gone_root); (u "5.3", engine_root) ].

Definition with_config (content : file_content) : EngineFinder.finder :=
  EngineFinder.mkFinder config_path [] None
    (set_fs workstation (<[config_path := File content]> files)) [].

Definition stale_finder : EngineFinder.finder :=
  with_config (Json (EngineFinder.config_document stale_mapping)).

(** A configuration file that holds the JSON text [[]]. *)
Definition list_finder : EngineFinder.finder := with_config (Json (PList [])).

(** A configuration file that is not UTF-8 text, and one that may not be
    opened. *)
Definition garbled_finder : EngineFinder.finder := with_config NotText.
Definition locked_finder : EngineFinder.finder := with_config Unreadable.

(** Two candidates that name the same version; only the second is
    installed. *)
Definition two_candidates : list str := [ u "D:\Old\UE_5.3"; engine_root ].

(** The handle of the running builder. *)
Definition running_handle : PluginBuilder.qprocess :=
  default PluginBuilder.new_process (PluginBuilder.process running_builder).

Definition valued_params : list (str * pyval) :=
  [ (u "TargetPlatforms", PStr (u "Win64+Linux")); (u "Jobs", PInt 4) ].

(** The dialog with Win64, Strict and Unversioned checked. *)
Definition two_boxes : AdvancedOptionsDialog.dialog :=
  AdvancedOptionsDialog.mkDialog
    (AdvancedOptionsDialog.platform_checkboxes AdvancedOptionsDialog.init)
    false false false true true [].

(** The builder after a build, its cancellation and the exit of the
    process. *)
Definition after_cancelled_run : PluginBuilder.builder :=
  default fresh_builder (PluginBuilder.run cancelled_run fresh_builder).

End Scenarios.

(* ===================================================================== *)
(** ** EngineFinder: construction *)
(* ===================================================================== *)

Module EngineFinderSetup.

Definition CONFIG_FILE : str := u "unreal_engines_config.json".

(** [EngineFinder(localization, config_path)] in the world [w]:
    [config_path or CONFIG_FILE]. *)
Definition init (localization : option localizer) (config_path : option str) (w : world)
  : EngineFinder.finder :=
  EngineFinder.mkFinder
    (match config_path with
     | Some (c :: p) => c :: p
     | Some [] | None => CONFIG_FILE
     end)
    [] localization w [].

End EngineFinderSetup.

Section FinderSetupNotions.
Context `{PyLib} `{Unicode}.
Import EngineFinder.

(** Where a finder works: its world and the name of its configuration. *)
Definition place (f : finder) : world * str := (os f, config_file f).

End FinderSetupNotions.

Module SetupScenarios.
Import Plain Examples.

(** The workstation, where the empty path is not writable. *)
Definition strict_workstation : world :=
  mkWorld files (fun p => negb (str_eqb p [])) (fun _ => false)
          (fun _ => inl FileNotFoundError)
          (fun key => if str_eqb key (u "SOFTWARE\EpicGames\Unreal Engine")
                      then Some [Some engine_root] else None)
          [] None (fun _ => false) [] (fun _ => true) 1000%Z [].

(** A finder constructed without a configuration path. *)
Definition default_finder : EngineFinder.finder :=
  EngineFinderSetup.init None None strict_workstation.

End SetupScenarios.

(* ===================================================================== *)
(** * Properties *)
(* ===================================================================== *)

(** ** Reasoning about computations *)

Section Keeps.
Context {S X : Type} (f : S -> X).

Lemma keeps_ret {A} (a : A) : keeps f (ret a).
Proof. intros s; reflexivity. Qed.

Lemma keeps_raise {A} e : keeps f (@raise S A e).
Proof. intros s; reflexivity. Qed.

Lemma keeps_at_bind {A B} (m : M S A) (k : A -> M S B) s :
  keeps_at f m s -> (forall a s', m s = (Ok a, s') -> keeps_at f (k a) s') ->
  keeps_at f (bind m k) s.
Proof.
  unfold keeps_at, bind. intros Hm Hk.
  destruct (m s) as [[a|e] s'] eqn:E; cbn in *.
  - rewrite (Hk a s' eq_refl). exact Hm.
  - exact Hm.
Qed.

Lemma keeps_bind {A B} (m : M S A) (k : A -> M S B) :
  keeps f m -> (forall a, keeps f (k a)) -> keeps f (bind m k).
Proof. intros Hm Hk s. apply keeps_at_bind; [apply Hm | intros; apply Hk]. Qed.

Lemma keeps_at_read {A} (k : S -> M S A) s :
  keeps_at f (k s) s -> keeps_at f (bind get_state k) s.
Proof. intros Hk. exact Hk. Qed.

Lemma keeps_at_try {A} (m : M S A) c (h : exn -> M S A) s :
  keeps_at f m s -> (forall e, keeps f (h e)) -> keeps_at f (try_except m c h) s.
Proof.
  unfold keeps_at, try_except. intros Hm Hh.
  destruct (m s) as [[a|e] s'] eqn:E; cbn in *; [exact Hm|].
  destruct (c e); cbn; [|exact Hm]. rewrite (Hh e s'). exact Hm.
Qed.

End Keeps.

Ltac keeps_step :=
  lazymatch goal with
  | |- keeps _ _ => intros ?
  | |- keeps_at _ (ret _) _ => reflexivity
  | |- keeps_at _ (raise _) _ => reflexivity
  | |- keeps_at _ (bind get_state _) _ => apply keeps_at_read
  | |- keeps_at _ (bind _ _) _ => apply keeps_at_bind; [ | intros ? ? _ ]
  | |- keeps_at _ (try_except _ _ _) _ => apply keeps_at_try; [ | intros ? ]
  | |- keeps_at _ (if ?c then _ else _) _ => destruct c
  | |- keeps_at _ (match ?x with _ => _ end) _ => destruct x
  end.

Section Wp.
Context {S : Type}.

Lemma wp_ret {A} (a : A) (s : S) (Q : res A -> S -> Prop) : Q (Ok a) s -> wp (ret a) s Q.
Proof. exact id. Qed.

Lemma wp_raise {A} e (s : S) (Q : res A -> S -> Prop) : Q (Raise e) s -> wp (raise e) s Q.
Proof. exact id. Qed.

Lemma wp_bind {A B} (m : M S A) (k : A -> M S B) s (Q : res B -> S -> Prop) :
  wp m s (fun r s1 => match r with
                      | Ok a => wp (k a) s1 Q
                      | Raise e => Q (Raise e) s1
                      end) ->
  wp (bind m k) s Q.
Proof. unfold wp, bind. destruct (m s) as [[a|e] s1]; exact id. Qed.

Lemma wp_read {A} (k : S -> M S A) s (Q : res A -> S -> Prop) :
  wp (k s) s Q -> wp (bind get_state k) s Q.
Proof. exact id. Qed.

Lemma wp_write {A} (k : unit -> M S A) (s s' : S) (Q : res A -> S -> Prop) :
  wp (k tt) s' Q -> wp (bind (put_state s') k) s Q.
Proof. exact id. Qed.

Lemma wp_put (s s' : S) (Q : res unit -> S -> Prop) :
  Q (Ok tt) s' -> wp (put_state s') s Q.
Proof. exact id. Qed.

Lemma wp_any {A} (m : M S A) s (Q : res A -> S -> Prop) :
  (forall r s1, Q r s1) -> wp m s Q.
Proof. intros HQ. apply HQ. Qed.

Lemma wp_try {A} (m : M S A) (c : exn -> bool) (h : exn -> M S A) s
    (Q : res A -> S -> Prop) :
  wp m s (fun r s1 => match r with
                      | Ok a => Q (Ok a) s1
                      | Raise e => if c e then wp (h e) s1 Q else Q (Raise e) s1
                      end) ->
  wp (try_except m c h) s Q.
Proof.
  unfold wp, try_except. destruct (m s) as [[a|e] s1]; cbn; [exact id|].
  destruct (c e); exact id.
Qed.

Lemma wp_mono {A} (m : M S A) s (Q Q' : res A -> S -> Prop) :
  wp m s Q -> (forall r s1, Q r s1 -> Q' r s1) -> wp m s Q'.
Proof. intros Hm HQ. apply HQ, Hm. Qed.

Lemma wp_eq {A} (m : M S A) s r s' (Q : res A -> S -> Prop) :
  m s = (r, s') -> Q r s' -> wp m s Q.
Proof. intros E HQ. unfold wp. rewrite E. exact HQ. Qed.

Lemma wp_exact {A} (m : M S A) s (x : res A * S) :
  wp m s (fun r s' => (r, s') = x) -> m s = x.
Proof. unfold wp. by destruct (m s). Qed.

Lemma wp_run {A} (m : M S A) s (Q : res A -> S -> Prop) r s' :
  wp m s Q -> m s = (r, s') -> Q r s'.
Proof. unfold wp. intros W E. rewrite E in W. exact W. Qed.

End Wp.

Ltac wp_step :=
  lazymatch goal with
  | |- wp (ret _) _ _ => apply wp_ret
  | |- wp (raise _) _ _ => apply wp_raise
  | |- wp (bind get_state _) _ _ => apply wp_read
  | |- wp (bind (put_state _) _) _ _ => apply wp_write
  | |- wp (put_state _) _ _ => apply wp_put
  | |- wp (bind _ _) _ _ => apply wp_bind
  | |- wp (if ?c then _ else _) _ _ => destruct c eqn:?
  | |- wp (match ?x with _ => _ end) _ _ => destruct x eqn:?
  end.


(** ** Strings and values *)

Lemma str_eqb_eq a b : str_eqb a b = true <-> a = b.
Proof. unfold str_eqb. apply bool_decide_eq_true. Qed.

Lemma str_eqb_refl a : str_eqb a a = true.
Proof. by apply str_eqb_eq. Qed.

Lemma str_eqb_neq a b : a <> b -> str_eqb a b = false.
Proof. unfold str_eqb. apply bool_decide_eq_false. Qed.

(** [value not in (False, None, "")], value by value. *)
Lemma py_in_falsy value :
  py_in value [PBool false; PNone; PStr []]
  = match value with
    | PBool false | PNone | PStr [] | PInt 0 => true
    | _ => false
    end.
Proof.
  destruct value as [ | [|] | [|p|p] | [|c s] | l | l ]; reflexivity.
Qed.

(** Comparing with the empty string. *)
Lemma py_eq_empty_str v : py_eq v (PStr []) = true <-> v = PStr [].
Proof.
  destruct v as [ | [|] | z | [|c s] | l | l ]; cbn; split; try discriminate; try reflexivity.
Qed.

(** ** EngineFinder: validity of an installation *)

Section EngineFinderValidity.
Context `{PyLib}.
Import EngineFinder.

(** C1. [is_valid_engine_path] accepts a path exactly when its five
    structural conditions hold: the entry script
    Engine/Build/BatchFiles/RunUAT.bat exists, one of the editor executables
    Engine/Binaries/Win64/UnrealEditor.exe and
    Engine/Binaries/Win64/UE4Editor.exe exists, and Engine/Content,
    Engine/Plugins and Engine/Source are directories. Only existence is
    looked at. *)
Theorem is_valid_engine_path_iff (w : world) (P : str) :
  is_valid_engine_path w P = true <->
    path_exists w (os_path_join P uat_rel) = true
    /\ (path_exists w (os_path_join P ue_editor_rel) = true
        \/ path_exists w (os_path_join P ue4_editor_rel) = true)
    /\ path_isdir w (os_path_join P content_rel) = true
    /\ path_isdir w (os_path_join P plugins_rel) = true
    /\ path_isdir w (os_path_join P source_rel) = true.
Proof.
  unfold is_valid_engine_path.
  destruct (path_exists w (os_path_join P uat_rel)) eqn:Huat; cbn [negb].
  - rewrite andb_true_iff, orb_true_iff. cbn [forallb].
    rewrite !andb_true_iff. intuition.
  - split; [discriminate | intros [? _]; discriminate].
Qed.

(** The contents of files play no part: two worlds with the same kinds of
    nodes give the same answer. *)
Lemma is_valid_engine_path_structural (w1 w2 : world) (P : str) :
  (forall p, path_exists w1 p = path_exists w2 p) ->
  (forall p, path_isdir w1 p = path_isdir w2 p) ->
  is_valid_engine_path w1 P = is_valid_engine_path w2 P.
Proof.
  intros He Hd. unfold is_valid_engine_path. cbn [forallb].
  rewrite !He, !Hd. reflexivity.
Qed.

End EngineFinderValidity.

(** ** PluginBuilder: frame lemmas *)

Section BuilderFrame.
Context `{PyLib} `{Unicode}.
Import PluginBuilder.

Lemma add_signals_nil b : add_signals b [] = b.
Proof. destruct b; unfold add_signals; cbn. by rewrite app_nil_r. Qed.

Lemma add_signals_app b e1 e2 : add_signals (add_signals b e1) e2 = add_signals b (e1 ++ e2).
Proof. unfold add_signals; cbn. by rewrite app_assoc. Qed.

Lemma wp_emit e b (Q : res unit -> builder -> Prop) :
  Q (Ok tt) (add_signals b [e]) -> wp (emit e) b Q.
Proof. exact id. Qed.

Lemma wp_log m ty b (Q : res unit -> builder -> Prop) :
  Q (Ok tt) (add_signals b [LogMessage m ty]) -> wp (log m ty) b Q.
Proof. exact id. Qed.

Section Projection.
Context {X : Type} (f : builder -> X).
Hypothesis f_signals : forall b evs,
  f (mkBuilder (process b) (source_plugin_path b) (output_folder b) (target_engine_path b)
               (additional_params b) (localization b) (os b) evs) = f b.

Lemma keeps_emit e : keeps f (emit e).
Proof. intros b. unfold keeps_at, emit; cbn. apply f_signals. Qed.

Lemma keeps_log m ty : keeps f (log m ty).
Proof. apply keeps_emit. Qed.

Lemma keeps_get_build_command : keeps f get_build_command.
Proof.
  unfold get_build_command. repeat (keeps_step; try apply keeps_log).
Qed.

Lemma keeps_get_command_string : keeps f get_command_string.
Proof.
  unfold get_command_string.
  keeps_step. keeps_step; [apply keeps_get_build_command|].
  repeat (keeps_step; try apply keeps_log).
Qed.

Lemma keeps_capitalized p : keeps f (capitalized p).
Proof. unfold capitalized. repeat keeps_step. Qed.

Lemma keeps_format_pairs_args w args : keeps f (format_pairs_args w args).
Proof.
  revert args. fix IH 1. intros [|param [|value rest]]; cbn [format_pairs_args].
  - apply keeps_ret.
  - apply keeps_bind; [apply keeps_capitalized | intros; apply keeps_ret].
  - apply keeps_bind; [apply keeps_capitalized | intros].
    apply keeps_bind; [apply IH | intros; apply keeps_ret].
Qed.


Lemma keeps_start program args :
  (forall b p w, f (set_os (set_process b p) w) = f b) ->
  (forall b p, f (set_process b p) = f b) ->
  keeps f (start program args).
Proof.
  intros H1 H2 b. unfold start. apply keeps_at_read.
  destruct (can_spawn _ _); unfold keeps_at, put_state; cbn [snd]; [apply H1 | apply H2].
Qed.

End Projection.

Lemma request_signals b evs :
  request (mkBuilder (process b) (source_plugin_path b) (output_folder b)
                     (target_engine_path b) (additional_params b) (localization b)
                     (os b) evs) = request b.
Proof. reflexivity. Qed.





End BuilderFrame.


(** ** PluginBuilder: the command line *)

Section BuilderCommand.
Context `{PyLib} `{Unicode}.
Import PluginBuilder.

Lemma add_params_flat_map params command :
  add_params params command = command ++ flat_map encode_option params.
Proof.
  revert command.
  induction params as [|[param value] rest IH]; intros command; cbn [add_params flat_map].
  - by rewrite app_nil_r.
  - rewrite py_in_falsy. unfold encode_option at 1; cbn [fst snd].
    destruct value as [ | [|] | [|p|p] | [|c s] | l | l ]; cbn [negb];
      rewrite IH, <- ?app_assoc; reflexivity.
Qed.

(** C2 (amended). Once the three paths are set and the entry script exists,
    [get_build_command] gives the six leading arguments followed, option by
    option in insertion order, by: the bare flag for the value [True];
    nothing for a value that compares equal to [False], [None] or the empty
    string, that is for [False], [None], the empty string and the integer 0;
    the flag and [str(value)] for every other value. Nothing is logged. *)
Theorem get_build_command_encoding (b : builder) :
  unset (source_plugin_path b) = false ->
  unset (output_folder b) = false ->
  unset (target_engine_path b) = false ->
  path_exists (os b) (uat_path_of b) = true ->
  get_build_command b
  = (Ok (Some (base_command b ++ flat_map encode_option (additional_params b))), b).
Proof.
  intros Hs Ho Ht Hu. unfold get_build_command, bind, get_state, ret.
  rewrite Hs, Ho, Ht. cbn [orb]. fold (uat_path_of b). rewrite Hu. cbn [negb].
  rewrite add_params_flat_map. reflexivity.
Qed.

(** On option maps without an integer 0 the encoding is the specified one. *)
Lemma encode_option_as_specified_eq kv :
  snd kv <> PInt 0 -> encode_option kv = encode_option_as_specified kv.
Proof.
  destruct kv as [k v]. cbn [snd]. intros Hv.
  destruct v as [ | [|] | [|p|p] | [|c s] | l | l ]; try reflexivity. by destruct Hv.
Qed.

End BuilderCommand.

(** ** PluginBuilder: cancellation, handle, stored request *)

Section BuilderLifecycle.
Context `{PyLib} `{Unicode}.
Import PluginBuilder.

(** C9. [cancel_build] with no active build (no handle, or a handle that is
    not running) returns false at once: no signal is emitted, nothing is
    run, the builder is as it was. *)
Theorem cancel_build_idle (b : builder) :
  handle_running b = false -> cancel_build b = (Ok false, b).
Proof.
  unfold handle_running, cancel_build, bind, get_state, ret.
  destruct (process b) as [p|]; [|reflexivity].
  destruct (state p); [reflexivity | discriminate | discriminate].
Qed.

(** C10. Every call of [build_plugin] first stores its four arguments (an
    absent option map as the empty map), whatever the outcome of the call:
    after a call that returns false, or raises, the builder holds the
    arguments of that call and not those of the build before. *)
Theorem build_plugin_stores_request src out tgt params b :
  request (snd (build_plugin src out tgt params b))
  = (Some src, Some out, Some tgt, default [] params).
Proof.
  unfold build_plugin.
  set (b1 := set_request b src out tgt (default [] params)).
  transitivity (request b1); [|reflexivity].
  match goal with |- request (snd (bind get_state ?k b)) = _ =>
    change (request (snd (k b b)) = request b1) end.
  cbv beta.
  match goal with |- request (snd (bind (put_state ?s) ?k b)) = _ =>
    change (keeps_at request (k tt) b1) end.
  cbv beta.
  repeat (keeps_step; try apply (keeps_log _ request_signals);
          try apply (keeps_emit _ request_signals);
          try apply (keeps_get_build_command _ request_signals);
          try apply (keeps_get_command_string _ request_signals);
          try apply keeps_format_pairs_args;
          try (apply keeps_start; reflexivity);
          try reflexivity).
Qed.

End BuilderLifecycle.

(** ** The regular expressions *)

Section RegexFacts.
Context `{Unicode}.

Lemma keyword_at_spec kw s :
  keyword_at kw s = true <->
  exists mid post, s = mid ++ post /\ Forall2 (fun p c => ignorecase_eq p c = true) kw mid.
Proof.
  revert s. induction kw as [|p kw IH]; intros s; cbn [keyword_at].
  - split; [intros _; exists [], s; split; [reflexivity|constructor] | reflexivity].
  - destruct s as [|c s].
    + split; [discriminate|].
      intros (mid & post & E & F). inversion F; subst. discriminate.
    + rewrite andb_true_iff, IH. split.
      * intros (Hc & mid & post & -> & F). exists (c :: mid), post.
        split; [reflexivity | by constructor].
      * intros (mid & post & E & F). inversion F as [|? c' ? mid' Hc F']; subst.
        injection E as -> ->. split; [exact Hc | by exists mid', post].
Qed.

Lemma search_keywords_spec kws s :
  search_keywords kws s = true <-> mentions kws s.
Proof.
  unfold mentions, occurs_ignoring_case.
  induction s as [|c s IH].
  - cbn [search_keywords]. rewrite orb_false_r, existsb_exists. split.
    + intros (kw & Hin & Hk). exists kw. split; [exact Hin|].
      apply keyword_at_spec in Hk as (mid & post & E & F).
      by exists [], mid, post.
    + intros (kw & Hin & pre & mid & post & E & F). exists kw. split; [exact Hin|].
      apply keyword_at_spec. destruct pre; [|discriminate]. by exists mid, post.
  - cbn [search_keywords]. rewrite orb_true_iff, existsb_exists, IH. split.
    + intros [(kw & Hin & Hk) | (kw & Hin & pre & mid & post & E & F)].
      * exists kw. split; [exact Hin|].
        apply keyword_at_spec in Hk as (mid & post & E & F).
        by exists [], mid, post.
      * exists kw. split; [exact Hin|]. exists (c :: pre), mid, post.
        split; [by rewrite E | exact F].
    + intros (kw & Hin & pre & mid & post & E & F).
      destruct pre as [|c' pre].
      * left. exists kw. split; [exact Hin|]. apply keyword_at_spec. by exists mid, post.
      * right. injection E as -> ->. exists kw. split; [exact Hin|]. by exists pre, mid, post.
Qed.

Lemma digits_then_sound {A} (k : str -> str -> option A) s acc x :
  digits_then s acc k = Some x ->
  exists ds rest, ds <> [] /\ Forall (fun c => is_decimal c = true) ds
                  /\ s = ds ++ rest /\ k (acc ++ ds) rest = Some x.
Proof.
  revert acc. induction s as [|c r IH]; intros acc; cbn [digits_then]; [discriminate|].
  destruct (is_decimal c) eqn:Hc; [|discriminate].
  destruct (digits_then r (acc ++ [c]) k) as [x'|] eqn:E.
  - intros [= ->]. destruct (IH _ E) as (ds & rest & Hne & Hd & -> & Hk).
    exists (c :: ds), rest. repeat split; [discriminate | by constructor |].
    by rewrite <- app_assoc in Hk.
  - intros Hk. exists [c], r. repeat split; [discriminate | by repeat constructor | exact Hk].
Qed.

Lemma digits_then_complete {A} (k : str -> str -> option A) ds rest acc x :
  ds <> [] -> Forall (fun c => is_decimal c = true) ds ->
  k (acc ++ ds) rest = Some x ->
  exists x', digits_then (ds ++ rest) acc k = Some x'.
Proof.
  revert acc. induction ds as [|c ds IH]; intros acc Hne Hd Hk; [done|].
  inversion Hd as [|? ? Hc Hd']; subst. cbn [app digits_then]. rewrite Hc.
  destruct (digits_then (ds ++ rest) (acc ++ [c]) k) as [x'|] eqn:E; [by exists x'|].
  destruct ds as [|c2 ds].
  - exists x. exact Hk.
  - exfalso. destruct (IH (acc ++ [c])) as (x' & E'); [discriminate | exact Hd' | |].
    + by rewrite <- app_assoc.
    + rewrite E in E'. discriminate.
Qed.

Lemma digits_then_none {A} (k : str -> str -> option A) ds rest acc :
  digits_then (ds ++ rest) acc k = None ->
  ds <> [] -> Forall (fun c => is_decimal c = true) ds ->
  k (acc ++ ds) rest = None.
Proof.
  intros E Hne Hd. destruct (k (acc ++ ds) rest) as [x|] eqn:Hk; [|reflexivity].
  destruct (digits_then_complete k ds rest acc x Hne Hd Hk) as (x' & E'). congruence.
Qed.

(** [\d+] is greedy: the continuation has failed on every longer run. *)
Lemma digits_then_longest {A} (k : str -> str -> option A) s acc x :
  digits_then s acc k = Some x ->
  exists ds rest,
    ds <> [] /\ Forall (fun c => is_decimal c = true) ds
    /\ s = ds ++ rest /\ k (acc ++ ds) rest = Some x
    /\ forall ds' rest',
         s = ds' ++ rest' -> Forall (fun c => is_decimal c = true) ds' ->
         (length ds < length ds')%nat -> k (acc ++ ds') rest' = None.
Proof.
  revert acc. induction s as [|c r IH]; intros acc; cbn [digits_then]; [discriminate|].
  destruct (is_decimal c) eqn:Hc; [|discriminate].
  destruct (digits_then r (acc ++ [c]) k) as [x'|] eqn:E.
  - intros [= ->]. destruct (IH _ E) as (ds & rest & Hne & Hd & -> & Hk & Hlong).
    exists (c :: ds), rest. split; [discriminate|]. split; [by constructor|].
    split; [reflexivity|]. split; [by rewrite <- app_assoc in Hk|].
    intros ds' rest' Hs Hd' Hlen. destruct ds' as [|c' ds']; [cbn in Hlen; lia|].
    cbn [app] in Hs. injection Hs as <- Hs. inversion Hd' as [|? ? _ Hd'']; subst.
    specialize (Hlong ds' rest' Hs Hd''). rewrite <- app_assoc in Hlong. cbn [app] in Hlong.
    apply Hlong. cbn in Hlen. lia.
  - intros Hk. exists [c], r. split; [discriminate|]. split; [by repeat constructor|].
    split; [reflexivity|]. split; [exact Hk|].
    intros ds' rest' Hs Hd' Hlen. destruct ds' as [|c' ds']; [cbn in Hlen; lia|].
    cbn [app] in Hs. injection Hs as <- Hs. inversion Hd' as [|? ? _ Hd'']; subst.
    destruct ds' as [|c2 ds']; [cbn in Hlen; lia|].
    pose proof (digits_then_none k (c2 :: ds') rest' (acc ++ [c]) E) as Hn.
    rewrite <- app_assoc in Hn. cbn [app] in Hn. by apply Hn.
Qed.

Lemma percent_at_sound s ds :
  percent_at s = Some ds ->
  percent_match s ds
  /\ forall ds', percent_match s ds' -> (length ds' <= length ds)%nat.
Proof.
  unfold percent_at, percent_match. intros E.
  apply digits_then_longest in E as (ds0 & rest & Hne & Hd & -> & Hk & Hlong).
  cbn [app] in Hk. destruct rest as [|c post]; [discriminate|].
  destruct (c =? 37) eqn:Hc; [|discriminate]. injection Hk as <-.
  apply N.eqb_eq in Hc as ->. split.
  - repeat split; [exact Hne | exact Hd | by exists post].
  - intros ds' (Hne' & Hd' & post' & E').
    destruct (Nat.le_gt_cases (length ds') (length ds0)) as [Hle|Hgt]; [exact Hle|].
    specialize (Hlong ds' ([37] ++ post') E' Hd' Hgt). cbn in Hlong. discriminate.
Qed.

Lemma percent_at_complete s ds : percent_match s ds -> percent_at s <> None.
Proof.
  intros (Hne & Hd & post & ->). unfold percent_at.
  destruct (digits_then_complete
              (fun ds rest => match rest with
                              | c :: _ => if c =? 37 then Some ds else None
                              | [] => None
                              end) ds ([37] ++ post) [] ds Hne Hd eq_refl) as (x & ->).
  discriminate.
Qed.

Lemma search_percent_sound s ds : search_percent s = Some ds -> first_percent s ds.
Proof.
  unfold first_percent. revert ds. induction s as [|c s IH]; intros ds; cbn [search_percent].
  - destruct (percent_at []) eqn:E; [|discriminate]. intros [= ->].
    apply percent_at_sound in E as [(Hne & Hd & post & E) _]. by destruct ds.
  - destruct (percent_at (c :: s)) eqn:E.
    + intros [= ->]. apply percent_at_sound in E as [Hm Hlong].
      exists [], (c :: s). split; [reflexivity|]. split; [exact Hm|].
      split; [exact Hlong|]. intros pre' rest' _ Hlen. cbn in Hlen. lia.
    + intros Hs. destruct (IH ds Hs) as (pre & rest & -> & Hm & Hlong & Hleft).
      exists (c :: pre), rest. split; [reflexivity|]. split; [exact Hm|].
      split; [exact Hlong|]. intros pre' rest' Hsplit Hlen (ds' & Hm').
      destruct pre' as [|c' pre'].
      * cbn [app] in Hsplit. subst rest'. by apply (percent_at_complete _ _ Hm').
      * cbn [app] in Hsplit. injection Hsplit as <- Hsplit.
        apply (Hleft pre' rest' Hsplit); [cbn in Hlen; lia | by exists ds'].
Qed.

Lemma search_percent_complete s :
  search_percent s = None -> ~ exists ds, first_percent s ds.
Proof.
  intros Hs (ds & pre & rest & -> & Hm & _). revert Hs.
  induction pre as [|c pre IH]; cbn [app search_percent].
  - destruct rest as [|c rest].
    + destruct Hm as (Hne & _ & post & E). by destruct ds.
    + cbn [search_percent]. pose proof (percent_at_complete _ _ Hm) as Hc.
      by destruct (percent_at (c :: rest)).
  - destruct (percent_at (c :: pre ++ rest)); [discriminate | exact IH].
Qed.

(** The match is determined by the line. *)
Lemma first_percent_functional s ds1 ds2 :
  first_percent s ds1 -> first_percent s ds2 -> ds1 = ds2.
Proof.
  intros (pre1 & rest1 & E1 & M1 & L1 & F1) (pre2 & rest2 & E2 & M2 & L2 & F2).
  assert (length pre1 = length pre2) as Hlen.
  { destruct (Nat.lt_trichotomy (length pre1) (length pre2)) as [Hlt|[Heq|Hgt]];
      [exfalso | exact Heq | exfalso].
    - apply (F2 pre1 rest1 E1 Hlt). by exists ds1.
    - apply (F1 pre2 rest2 E2 Hgt). by exists ds2. }
  assert (rest1 = rest2) as <-.
  { rewrite E1 in E2. by apply app_inj_1 in E2 as [_ ?]. }
  pose proof (L1 ds2 M2) as H12. pose proof (L2 ds1 M1) as H21.
  destruct M1 as (_ & _ & post1 & P1), M2 as (_ & _ & post2 & P2).
  rewrite P1 in P2. apply app_inj_1 in P2 as [? _]; [done | lia].
Qed.

End RegexFacts.

(** ** PluginBuilder: the output of the process *)

Section BuilderOutput.
Context `{PyLib} `{Unicode}.
Import PluginBuilder.

Lemma classify_severity line : severity line (classify line).
Proof.
  unfold classify.
  destruct (search_keywords [u "error"; u "ошибка"; u "failed"] line) eqn:E1.
  { apply severity_error. by apply search_keywords_spec. }
  assert (~ mentions error_words line) as N1.
  { intros M. apply search_keywords_spec in M. unfold error_words in M. congruence. }
  destruct (search_keywords [u "warning"; u "предупреждение"] line) eqn:E2.
  { apply severity_warning; [exact N1 | by apply search_keywords_spec]. }
  assert (~ mentions warning_words line) as N2.
  { intros M. apply search_keywords_spec in M. unfold warning_words in M. congruence. }
  destruct (search_keywords [u "success"; u "успешно"; u "completed"] line) eqn:E3.
  { apply severity_success; [exact N1 | exact N2 | by apply search_keywords_spec]. }
  apply severity_info; [exact N1 | exact N2 |].
  intros M. apply search_keywords_spec in M. unfold success_words in M. congruence.
Qed.

Lemma line_events_outcome raw : line_outcome raw (line_events raw).
Proof.
  unfold line_outcome, line_events. destruct (strip raw) as [|c line]; [reflexivity|].
  exists (classify (c :: line)). split; [apply classify_severity|].
  destruct (search_percent (c :: line)) as [ds|] eqn:E.
  - right. exists ds. split; [by apply search_percent_sound | reflexivity].
  - left. split; [by apply search_percent_complete | reflexivity].
Qed.

Lemma severity_functional line ty1 ty2 :
  severity line ty1 -> severity line ty2 -> ty1 = ty2.
Proof. by destruct 1; destruct 1. Qed.

(** What a line gives rise to is determined by the line. *)
Lemma line_outcome_functional raw evs1 evs2 :
  line_outcome raw evs1 -> line_outcome raw evs2 -> evs1 = evs2.
Proof.
  unfold line_outcome. destruct (strip raw) as [|c line]; [congruence|].
  intros (ty1 & S1 & O1) (ty2 & S2 & O2).
  rewrite (severity_functional _ _ _ S1 S2) in O1.
  destruct O1 as [[N1 ->]|(ds1 & P1 & ->)], O2 as [[N2 ->]|(ds2 & P2 & ->)].
  - reflexivity.
  - destruct N1. by exists ds2.
  - destruct N2. by exists ds1.
  - by rewrite (first_percent_functional _ _ _ P1 P2).
Qed.

Lemma stdout_lines_events lines b :
  stdout_lines lines b = (Ok tt, add_signals b (flat_map line_events lines)).
Proof.
  revert b. induction lines as [|raw rest IH]; intros b; cbn [stdout_lines flat_map].
  - by rewrite add_signals_nil.
  - unfold line_events at 1. destruct (strip raw) as [|c line].
    + apply IH.
    + destruct (search_percent (c :: line)) as [ds|];
        unfold bind, log, emit; cbn; rewrite IH; unfold add_signals; cbn;
        rewrite <- ?app_assoc; reflexivity.
Qed.

(** C3 (amended). [_process_stdout] goes through the lines of the text it
    has read. A line that is empty once leading and trailing whitespace is
    removed gives nothing. Every other line gives exactly one log event,
    with the stripped line as text and the severity chosen by keyword,
    letter case aside, with precedence ERROR > WARNING > SUCCESS > INFO; and,
    when the line contains digits followed by a percent sign, one progress
    event after it, carrying as an integer the digits of the leftmost such
    place, all of them. These rules fix the events of every line: no other
    list of events satisfies them. *)
Theorem process_stdout_events (data : str) (b : builder) :
  exists per_line : list (list event),
    _process_stdout data b = (Ok tt, add_signals b (concat per_line))
    /\ Forall2 line_outcome (splitlines data) per_line
    /\ forall other, Forall2 line_outcome (splitlines data) other -> other = per_line.
Proof.
  exists (map line_events (splitlines data)). split; [|split].
  - unfold _process_stdout. rewrite stdout_lines_events.
    by rewrite flat_map_concat_map.
  - induction (splitlines data) as [|raw rest IH]; constructor;
      [apply line_events_outcome | exact IH].
  - induction (splitlines data) as [|raw rest IH]; intros other Hother;
      inversion Hother as [|? evs ? others Hraw Hrest]; subst; [reflexivity|].
    cbn [map]. f_equal; [|by apply IH].
    exact (line_outcome_functional raw _ _ Hraw (line_events_outcome raw)).
Qed.

End BuilderOutput.

(** ** PluginBuilder: terminal events *)

Section BuilderTerminal.
Context `{PyLib} `{Unicode}.
Import PluginBuilder.

Lemma wp_shell cmd b (Q : res unit -> builder -> Prop) :
  Q (Ok tt) (set_os b (run_shell (os b) cmd)) -> wp (shell cmd) b Q.
Proof. exact id. Qed.

Lemma process_finished_events code b :
  exists msg ty,
    _process_finished code b
    = (Ok tt, add_signals b [LogMessage msg ty; BuildFinished (code =? 0)%Z msg]).
Proof.
  unfold _process_finished, bind, get_state, log, emit.
  destruct (code =? 0)%Z; do 2 eexists; unfold add_signals; cbn;
    rewrite <- app_assoc; reflexivity.
Qed.

Lemma cancel_build_events b :
  handle_running b = true ->
  wp cancel_build b (fun r b' =>
    r = Ok true
    /\ exists evs, Forall is_log evs
         /\ signals b' = signals b ++ evs
                         ++ [LogMessage (cancelled_message b) WARNING;
                             BuildFinished false (cancelled_message b)]).
Proof.
  unfold handle_running, cancel_build. intros Hr. apply wp_read.
  destruct (process b) as [p|]; [|discriminate].
  assert (forall (Q : res bool -> builder -> Prop) m,
            wp m b Q ->
            wp (match state p with NotRunning => ret false | _ => m end) b Q) as K.
  { intros Q m W. destruct (state p); [discriminate | exact W | exact W]. }
  apply K. clear K. cbn [kill_by_name].
  repeat (cbv beta iota;
          first [ wp_step | apply wp_log | apply wp_emit | apply wp_shell ]).
  all: split; [reflexivity|]; cbn.
  - exists [LogMessage (u "Successfully removed folder: " ++ attr (output_folder b)) SUCCESS].
    split; [repeat constructor; by do 2 eexists|]. by rewrite <- !app_assoc.
  - exists [LogMessage (u "Failed to remove folder: " ++ exn_text OtherOSError) WARNING].
    split; [repeat constructor; by do 2 eexists|]. by rewrite <- !app_assoc.
  - exists []. split; [constructor|]. by rewrite <- !app_assoc.
Qed.

Lemma finished_step code b b' :
  step (Finished code) b = Some b' ->
  (exists msg ty,
      signals b' = signals b ++ [LogMessage msg ty; BuildFinished (code =? 0)%Z msg])
  /\ (forall data, step (ReadyReadStandardOutput data) b' = None)
  /\ (forall data, step (ReadyReadStandardError data) b' = None)
  /\ (forall code', step (Finished code') b' = None).
Proof.
  unfold step at 1.
  destruct (handle_running b) eqn:Hr; [|discriminate].
  destruct (process_finished_events code (mark_exited b)) as (msg & ty & E).
  rewrite E. intros [= <-].
  assert (handle_running
            (add_signals (mark_exited b)
               [LogMessage msg ty; BuildFinished (code =? 0)%Z msg]) = false) as Hn.
  { unfold handle_running, mark_exited in *. destruct (process b); [reflexivity|discriminate]. }
  split; [|by unfold step; rewrite Hn].
  exists msg, ty. unfold mark_exited. by destruct (process b).
Qed.

Lemma completed_run outputs code b b' :
  Forall is_output outputs ->
  run (outputs ++ [Finished code]) b = Some b' ->
  exists msg, last (signals b') = Some (BuildFinished (code =? 0)%Z msg).
Proof.
  intros Hout. revert b. induction Hout as [|a rest _ _ IH]; intros b; cbn [app run].
  - destruct (step (Finished code) b) as [b1|] eqn:E; [|discriminate]. intros [= <-].
    apply finished_step in E as ((msg & ty & ->) & _). exists msg.
    by rewrite last_app.
  - destruct (step a b) as [b1|]; [apply IH | discriminate].
Qed.

(** C4 (amended). [_process_finished] emits two events, the log line and
    then the success/failure event, whose flag says whether the exit code is
    0. In a build that runs to its end (output is delivered, then the exit)
    that event is the last one, and once Qt has reported the exit nothing
    more is reported for the handle. [cancel_build] on a running build
    returns true and ends with the warning line and the cancellation event,
    both with the fixed cancellation message; before them it emits at most
    log lines, and no exit-code event. *)
Theorem terminal_events :
  (forall code b, exists msg ty,
      _process_finished code b
      = (Ok tt, add_signals b [LogMessage msg ty; BuildFinished (code =? 0)%Z msg]))
  /\ (forall outputs code b b',
        Forall is_output outputs ->
        run (outputs ++ [Finished code]) b = Some b' ->
        exists msg, last (signals b') = Some (BuildFinished (code =? 0)%Z msg))
  /\ (forall code b b', step (Finished code) b = Some b' ->
        (forall data, step (ReadyReadStandardOutput data) b' = None)
        /\ (forall data, step (ReadyReadStandardError data) b' = None)
        /\ (forall code', step (Finished code') b' = None))
  /\ (forall b, handle_running b = true ->
        exists b' evs,
          cancel_build b = (Ok true, b')
          /\ Forall is_log evs
          /\ signals b' = signals b ++ evs
                          ++ [LogMessage (cancelled_message b) WARNING;
                              BuildFinished false (cancelled_message b)]).
Proof.
  split; [exact process_finished_events|]. split; [exact completed_run|]. split.
  - intros code b b' E. by apply finished_step in E as (_ & H1).
  - intros b Hr. pose proof (cancel_build_events b Hr) as W. unfold wp in W.
    destruct (cancel_build b) as [r b'] eqn:E. cbn [fst snd] in W.
    destruct W as (-> & evs & Hlog & Hs). by exists b', evs.
Qed.

End BuilderTerminal.

(** ** PluginBuilder: the descriptor *)

Section BuilderDescriptor.
Context `{PyLib} `{Unicode}.
Import PluginBuilder.

Lemma module_names_objects ms b :
  forallb is_object ms = true ->
  module_names ms b
  = (Ok (map (fun m => match m with
                       | PDict kvs => field (u "Name") PNone kvs
                       | _ => PNone
                       end) ms), b).
Proof.
  induction ms as [|m ms IH]; [reflexivity|]. cbn [forallb].
  intros [Hm Hms]%andb_true_iff. destruct m; try discriminate.
  cbn [module_names map]. unfold bind at 1. cbn [py_get ret].
  unfold bind. rewrite (IH Hms). reflexivity.
Qed.

(** [m.get("Name")] on an item that is not an object ends the
    comprehension. *)
Lemma module_names_fails ms b :
  forallb is_object ms = false -> module_names ms b = (Raise AttributeError, b).
Proof.
  induction ms as [|m ms IH]; [discriminate|]. cbn [forallb module_names].
  destruct m; try reflexivity. cbn [is_object andb]. intros Hms.
  unfold bind at 1. cbn [py_get ret]. unfold bind. by rewrite (IH Hms).
Qed.

(** C8 (amended). For a descriptor that is a JSON object, the Modules
    entry decides. When there is none, or it can be iterated and yields
    only objects (a list of objects, an empty string, an empty object),
    [extract_plugin_info] succeeds and logs nothing; each field is the
    value of its key when the key is there, and otherwise its default:
    "Unknown Plugin" for FriendlyName, 0 for Version, the empty string for
    Description, Category, EngineVersion and MarketplaceURL, the empty list
    for Modules and for SupportedTargetPlatforms; [is_engine_plugin] is
    true exactly when EngineVersion is there with a value other than the
    empty string. With any other Modules entry the call logs one error and
    returns None. *)
Theorem extract_plugin_info_defaults (plugin_path : str) (items : list (str * pyval))
    (b : builder) :
  fs (os b) !! plugin_path = Some (File (Json (PDict items))) ->
  if modules_yield_objects items then
    exists info,
      extract_plugin_info plugin_path b = (Ok (Some info), b)
      /\ name info = field (u "FriendlyName") (PStr (u "Unknown Plugin")) items
      /\ version info = field (u "Version") (PInt 0) items
      /\ description info = field (u "Description") (PStr []) items
      /\ category info = field (u "Category") (PStr []) items
      /\ modules info = names_of_modules items
      /\ engine_version info = field (u "EngineVersion") (PStr []) items
      /\ marketplace_url info = field (u "MarketplaceURL") (PStr []) items
      /\ supported_platforms info = field (u "SupportedTargetPlatforms") (PList []) items
      /\ (is_engine_plugin info = true <->
          exists v, dict_get (u "EngineVersion") items = Some v /\ v <> PStr [])
  else
    exists msg,
      extract_plugin_info plugin_path b = (Ok None, add_signals b [LogMessage msg ERROR]).
Proof.
  intros Hfile. destruct (modules_yield_objects items) eqn:Hmods.
  - exists (mkInfo (field (u "FriendlyName") (PStr (u "Unknown Plugin")) items)
                   (field (u "Version") (PInt 0) items)
                   (field (u "Description") (PStr []) items)
                   (field (u "Category") (PStr []) items)
                   (names_of_modules items)
                   (negb (py_eq (field (u "EngineVersion") (PStr []) items) (PStr [])))
                   (field (u "EngineVersion") (PStr []) items)
                   (field (u "MarketplaceURL") (PStr []) items)
                   (field (u "SupportedTargetPlatforms") (PList []) items)).
    split.
    + unfold extract_plugin_info, try_except, read_json.
      unfold bind at 1. unfold bind at 1. cbn [get_state]. rewrite Hfile. cbn [ret].
      unfold bind. cbn [py_get ret].
      unfold modules_yield_objects, names_of_modules in *.
      destruct (dict_get (u "Modules") items) as [mods|] eqn:Em.
      * destruct (py_iter mods) as [ms|]; [|discriminate].
        rewrite (module_names_objects ms b Hmods). reflexivity.
      * reflexivity.
    + cbn [name version description category modules is_engine_plugin engine_version
           marketplace_url supported_platforms].
      repeat (split; [reflexivity|]).
      rewrite negb_true_iff. unfold field.
      destruct (dict_get (u "EngineVersion") items) as [v|]; cbn [default from_option id].
      * split.
        -- intros E. exists v. split; [reflexivity|]. intros ->. discriminate.
        -- intros (v' & [= <-] & Hv). destruct (py_eq v (PStr [])) eqn:E; [|reflexivity].
           apply py_eq_empty_str in E. contradiction.
      * split; [discriminate | intros (v' & [=] & _)].
  - unfold extract_plugin_info, try_except, read_json.
    unfold bind at 1. unfold bind at 1. cbn [get_state]. rewrite Hfile. cbn [ret].
    unfold bind. cbn [py_get ret].
    unfold modules_yield_objects in Hmods.
    destruct (dict_get (u "Modules") items) as [mods|] eqn:Em; [|discriminate].
    destruct (py_iter mods) as [ms|].
    + rewrite (module_names_fails ms b Hmods). cbn. by eexists.
    + cbn. by eexists.
Qed.

End BuilderDescriptor.

(** ** PluginBuilder: the handle is not consulted *)

Section BuilderOblivious.
Context `{PyLib} `{Unicode}.
Import PluginBuilder.


















End BuilderOblivious.

(** ** EngineFinder: what a search leaves untouched *)

Section FinderFrame.
Context `{PyLib} `{Unicode}.
Import EngineFinder.

Lemma wp_flog m ty f (Q : res unit -> finder -> Prop) :
  Q (Ok tt) (logged f [LogMessage m ty]) -> wp (log m ty) f Q.
Proof. exact id. Qed.

Lemma keeps_flog m ty : keeps fixed (log m ty).
Proof. intros f. reflexivity. Qed.

Ltac frame := repeat (keeps_step; try apply keeps_flog).

Lemma keeps_scan_subkeys subkeys found : keeps fixed (scan_subkeys subkeys found).
Proof.
  revert found. induction subkeys as [|[p|] rest IH]; intros found; cbn [scan_subkeys].
  - apply keeps_ret.
  - intros f. apply keeps_at_read. destruct (_ && _); [|apply IH].
    apply keeps_at_bind; [apply keeps_flog | intros; apply IH].
  - apply IH.
Qed.

Lemma keeps_scan_registry reg_paths found : keeps fixed (scan_registry reg_paths found).
Proof.
  revert found. induction reg_paths as [|p rest IH]; intros found; cbn [scan_registry].
  - apply keeps_ret.
  - intros f. apply keeps_at_read. destruct (registry _ _); [|apply IH].
    apply keeps_at_bind; [apply keeps_scan_subkeys | intros; apply IH].
Qed.

Lemma keeps_find_unreal_in_registry : keeps fixed find_unreal_in_registry.
Proof.
  unfold find_unreal_in_registry. keeps_step. keeps_step.
  keeps_step; [apply keeps_flog|].
  keeps_step; [apply keeps_scan_registry|]. frame.
Qed.

Lemma keeps_scan_env vars found : keeps fixed (scan_env vars found).
Proof.
  revert found. induction vars as [|v rest IH]; intros found; cbn [scan_env].
  - apply keeps_ret.
  - intros f. apply keeps_at_read. destruct (existsb _ _); [|apply IH].
    destruct (_ && _); [|apply IH].
    apply keeps_at_bind; [apply keeps_flog | intros; apply IH].
Qed.

Lemma keeps_find_unreal_in_env_vars : keeps fixed find_unreal_in_env_vars.
Proof.
  unfold find_unreal_in_env_vars. keeps_step. keeps_step.
  keeps_step; [apply keeps_flog|].
  keeps_step; [apply keeps_scan_env|]. frame.
Qed.

Lemma keeps_scan_subdirs base subdirs found : keeps fixed (scan_subdirs base subdirs found).
Proof.
  revert found. induction subdirs as [|d rest IH]; intros found; cbn [scan_subdirs].
  - apply keeps_ret.
  - intros f. apply keeps_at_read. destruct (is_valid_engine_path _ _); [|apply IH].
    apply keeps_at_bind; [apply keeps_flog | intros; apply IH].
Qed.

Lemma keeps_scan_standard bases found : keeps fixed (scan_standard bases found).
Proof.
  revert found. induction bases as [|p rest IH]; intros found; cbn [scan_standard].
  - apply keeps_ret.
  - intros f. apply keeps_at_read. destruct (path_exists _ _); [|apply IH].
    destruct (listdir _ _) as [e|subdirs].
    + destruct (caught_by_listing e); [|reflexivity].
      apply keeps_at_bind; [apply keeps_flog | intros; apply IH].
    + apply keeps_at_bind; [apply keeps_scan_subdirs | intros; apply IH].
Qed.

Lemma keeps_find_unreal_in_standard_paths : keeps fixed find_unreal_in_standard_paths.
Proof.
  unfold find_unreal_in_standard_paths. keeps_step. keeps_step.
  keeps_step; [apply keeps_flog|].
  keeps_step; [apply keeps_scan_standard|]. frame.
Qed.

Lemma keeps_read_json p : keeps fixed (read_json p).
Proof. unfold read_json. frame. Qed.

Lemma keeps_py_get v key d : keeps fixed (py_get v key d).
Proof. unfold py_get. frame. Qed.

Lemma keeps_load_config : keeps fixed load_config.
Proof.
  unfold load_config.
  repeat (keeps_step; try apply keeps_flog; try apply keeps_read_json;
          try apply keeps_py_get).
Qed.

Lemma keeps_revalidate items acc : keeps fixed (revalidate items acc).
Proof.
  revert acc. induction items as [|[version path] rest IH]; intros acc; cbn [revalidate].
  - apply keeps_ret.
  - intros f. apply keeps_at_read.
    assert (keeps_at fixed
              (bind (log (u "Engine version " ++ version ++ u " at path " ++ py_str path
                          ++ u " is no longer valid or complete") WARNING)
                    (fun _ => revalidate rest acc)) f) as Hinv.
    { apply keeps_at_bind; [apply keeps_flog | intros; apply IH]. }
    destruct path as [ | b | z | p | l | l ]; try reflexivity.
    + destruct (fd_open _ _); [reflexivity | exact Hinv].
    + destruct (fd_open _ _); [reflexivity | exact Hinv].
    + destruct (_ && _); [apply IH | exact Hinv].
Qed.

End FinderFrame.

(** ** EngineFinder: a search that finds nothing *)

Section FinderNothingFound.
Context `{PyLib} `{Unicode}.
Import EngineFinder.

Lemma wp_keeps_result {A} (m : M finder A) (g : finder) (r : res A)
    (Q : res A -> finder -> Prop) :
  keeps fixed m -> fst (m g) = r ->
  (forall g', fixed g' = fixed g -> Q r g') ->
  wp m g Q.
Proof. intros K E HQ. unfold wp. rewrite E. apply HQ, K. Qed.

Lemma fresh_scan_nothing f stop g :
  sources_empty f -> os g = os f ->
  wp (fresh_scan stop) g (fun r g' => r = Ok [] /\ fixed g' = fixed g).
Proof.
  intros (Hreg & Henv & Hstd) Hg. unfold fresh_scan.
  destruct stop.
  all: apply wp_bind;
    apply (wp_keeps_result _ _ (Ok []) _ keeps_find_unreal_in_registry (Hreg g Hg));
    intros g1 E1; cbv beta iota;
    assert (os g1 = os f) as Hg1 by (injection E1 as -> _; exact Hg);
    apply wp_bind;
    apply (wp_keeps_result _ _ (Ok []) _ keeps_find_unreal_in_env_vars (Henv g1 Hg1));
    intros g2 E2; cbv beta iota;
    assert (os g2 = os f) as Hg2 by (injection E2 as -> _; exact Hg1);
    apply wp_bind;
    apply (wp_keeps_result _ _ (Ok []) _ keeps_find_unreal_in_standard_paths (Hstd g2 Hg2));
    intros g3 E3; cbv beta iota; cbn [app];
    (split; [reflexivity|]); cbn; unfold fixed in *; cbn; congruence.
Qed.

End FinderNothingFound.

Section FinderCache.
Context `{PyLib} `{Unicode}.
Import EngineFinder.

Lemma wp_keeps {A} (m : M finder A) (g : finder) (Q : res A -> finder -> Prop) :
  keeps fixed m -> (forall r g', fixed g' = fixed g -> Q r g') -> wp m g Q.
Proof. intros K HQ. apply HQ, K. Qed.

Lemma all_valid_dict_set w version p acc :
  path_exists w p = true -> is_valid_engine_path w p = true ->
  all_valid w acc -> all_valid w (dict_set version p acc).
Proof.
  intros He Hv. unfold all_valid. induction 1 as [|[k x] rest Hx Hrest IH]; cbn [dict_set].
  - by repeat constructor.
  - destruct (str_eqb k version); constructor.
    + by split.
    + exact Hrest.
    + exact Hx.
    + exact IH.
Qed.

(** Whatever [revalidate] returns has passed the two checks. *)
Lemma wp_revalidate items acc g :
  all_valid (os g) acc ->
  wp (revalidate items acc) g
     (fun r g' => fixed g' = fixed g /\ forall C, r = Ok C -> all_valid (os g) C).
Proof.
  revert acc g. induction items as [|[version path] rest IH]; intros acc g Hacc;
    cbn [revalidate].
  - split; [reflexivity|]. by intros C [= <-].
  - apply wp_read.
    assert (wp (bind (log (u "Engine version " ++ version ++ u " at path " ++ py_str path
                           ++ u " is no longer valid or complete") WARNING)
                     (fun _ => revalidate rest acc)) g
               (fun r g' => fixed g' = fixed g
                            /\ forall C, r = Ok C -> all_valid (os g) C)) as Hinv.
    { apply wp_bind, wp_flog. cbv beta iota.
      eapply wp_mono; [apply IH; exact Hacc|].
      intros r g' [E HC]. split; [exact E | exact HC]. }
    destruct path as [ | b | z | p | l | l ]; try (split; [reflexivity | discriminate]).
    + destruct (fd_open _ _); [split; [reflexivity | discriminate] | exact Hinv].
    + destruct (fd_open _ _); [split; [reflexivity | discriminate] | exact Hinv].
    + destruct (path_exists (os g) p) eqn:He; [|exact Hinv].
      destruct (is_valid_engine_path (os g) p) eqn:Hv; [|exact Hinv].
      cbn [andb]. apply IH. by apply all_valid_dict_set.
Qed.

(** Without a configuration file there is nothing to load. *)
Lemma load_config_absent g :
  path_exists (os g) (config_file g) = false ->
  exists g', load_config g = (Ok (PDict []), g') /\ fixed g' = fixed g.
Proof.
  intros Hno. unfold load_config, bind, get_state, log, emit. cbn. rewrite Hno.
  eexists. split; reflexivity.
Qed.

Lemma no_config_no_engines f stop force :
  sources_empty f ->
  path_exists (os f) (config_file f) = false ->
  fst (find_all_engines stop force f) = Ok [].
Proof.
  intros Hsrc Hno.
  enough (wp (find_all_engines stop force) f (fun r _ => r = Ok [])) as W by exact W.
  unfold find_all_engines. apply wp_bind, wp_flog. cbv beta iota.
  assert (forall g, os g = os f -> wp (fresh_scan stop) g (fun r _ => r = Ok [])) as Hscan.
  { intros g Hg. apply (wp_mono _ _ _ _ (fresh_scan_nothing f stop g Hsrc Hg)).
    by intros r g' [-> _]. }
  destruct force; cbn [negb].
  - apply wp_bind, wp_flog. by apply Hscan.
  - apply wp_bind.
    destruct (load_config_absent
                (logged f [LogMessage
                   (u "Starting search for installed Unreal Engine instances...") INFO])
                Hno) as (g' & E & Hfix).
    eapply wp_eq; [exact E|]. cbn [truthy]. apply Hscan. by injection Hfix.
Qed.

(** C6. When the three sources yield no candidate, the discovery pass
    returns the empty mapping and leaves the world, and with it the
    configuration file, exactly as it was; so does [find_all_engines]: with
    a forced rescan, or with no configuration file, its answer is empty,
    and otherwise an answer that is not empty is the re-validated content
    of the configuration, returned before any discovery pass. Nothing is
    written in any case. *)
Theorem nothing_found_config_untouched (f : finder) (stop_on_first force_rescan : bool) :
  sources_empty f ->
  (fst (fresh_scan stop_on_first f) = Ok []
   /\ os (snd (fresh_scan stop_on_first f)) = os f)
  /\ os (snd (find_all_engines stop_on_first force_rescan f)) = os f
  /\ (force_rescan = true -> fst (find_all_engines stop_on_first force_rescan f) = Ok [])
  /\ (forall C, fst (find_all_engines stop_on_first force_rescan f) = Ok C ->
        C = [] \/ (force_rescan = false /\ all_valid (os f) C))
  /\ (forall e, fst (find_all_engines stop_on_first force_rescan f) = Raise e ->
        force_rescan = false)
  /\ (path_exists (os f) (config_file f) = false ->
      fst (find_all_engines stop_on_first force_rescan f) = Ok []).
Proof.
  intros Hsrc. split.
  { pose proof (fresh_scan_nothing f stop_on_first f Hsrc eq_refl) as [E1 E2].
    split; [exact E1 | by injection E2]. }
  assert (forall g, os g = os f ->
            wp (fresh_scan stop_on_first) g
               (fun r g' => os g' = os f
                  /\ (force_rescan = true -> r = Ok [])
                  /\ (forall C, r = Ok C -> C = [] \/ (force_rescan = false /\ all_valid (os f) C))
                  /\ (forall e, r = Raise e -> force_rescan = false))) as Hscan.
  { intros g Hg. apply (wp_mono _ _ _ _ (fresh_scan_nothing f stop_on_first g Hsrc Hg)).
    intros r g' [-> E]. injection E as E _. repeat split.
    - congruence.
    - intros C [= <-]. by left.
    - discriminate. }
  enough (wp (find_all_engines stop_on_first force_rescan) f
             (fun r g' => os g' = os f
                /\ (force_rescan = true -> r = Ok [])
                /\ (forall C, r = Ok C -> C = [] \/ (force_rescan = false /\ all_valid (os f) C))
                /\ (forall e, r = Raise e -> force_rescan = false))
          /\ (path_exists (os f) (config_file f) = false ->
              fst (find_all_engines stop_on_first force_rescan f) = Ok []))
    as [(W1 & W2 & W3 & W4) W5] by (repeat split; assumption).
  split; [|apply no_config_no_engines; assumption].
  unfold find_all_engines. apply wp_bind, wp_flog.
  destruct force_rescan; cbn [negb].
  - apply wp_bind, wp_flog. by apply Hscan.
  - apply wp_bind. apply (wp_keeps _ _ _ keeps_load_config).
    intros [saved|e] g1 E1; [|by injection E1 as -> _].
    assert (os g1 = os f) as Hg1 by (by injection E1 as -> _).
    destruct (truthy saved); [|by apply Hscan].
    apply wp_read. apply wp_bind, wp_flog. apply wp_bind.
    destruct saved as [ | | | | | items ]; try (by repeat split).
    eapply wp_mono; [apply (wp_revalidate items []); constructor|].
    cbn beta. intros [valid|e] g2 [E2 Hvalid].
    2:{ injection E2 as E2 _. cbn in E2. by repeat split; try congruence. }
    injection E2 as E2 _. cbn in E2.
    destruct valid as [|kv valid].
    + apply wp_read. apply wp_bind, wp_flog. apply Hscan. cbn. congruence.
    + apply wp_read. apply wp_write. apply wp_ret.
      split; [cbn; congruence|]. split; [discriminate|]. split; [|discriminate].
      intros C [= <-]. right. split; [reflexivity|].
      specialize (Hvalid _ eq_refl). cbn in Hvalid. by rewrite Hg1 in Hvalid.
Qed.

End FinderCache.

(** ** EngineFinder: the configuration round trip *)

Section FinderRoundTrip.
Context `{PyLib} `{Unicode}.
Import EngineFinder.

Lemma logged_logged f a b : logged (logged f a) b = logged f (a ++ b).
Proof. unfold logged; cbn. by rewrite app_assoc. Qed.

Lemma dict_set_keys {A} key (v : A) acc :
  map fst (dict_set key v acc)
  = if bool_decide (key ∈ map fst acc) then map fst acc else map fst acc ++ [key].
Proof.
  induction acc as [|[k x] rest IH]; cbn [dict_set map fst].
  - rewrite bool_decide_false; [reflexivity | by apply not_elem_of_nil].
  - destruct (str_eqb k key) eqn:E.
    + apply str_eqb_eq in E as ->. rewrite bool_decide_true; [reflexivity | by left].
    + cbn [map fst]. rewrite IH.
      assert (k <> key) as Hne by (intros ->; by rewrite str_eqb_refl in E).
      destruct (bool_decide (key ∈ map fst rest)) eqn:D.
      * apply bool_decide_eq_true in D. rewrite bool_decide_true; [reflexivity | by right].
      * apply bool_decide_eq_false in D. rewrite bool_decide_false; [reflexivity|].
        intros Hin. apply elem_of_cons in Hin as [->|Hin]; done.
Qed.

Lemma dict_set_NoDup {A} key (v : A) acc :
  NoDup (map fst acc) -> NoDup (map fst (dict_set key v acc)).
Proof.
  intros Hnd. rewrite dict_set_keys. case_bool_decide as D; [exact Hnd|].
  apply NoDup_app. split; [exact Hnd|]. split; [|apply NoDup_singleton].
  intros x Hx Hx'. apply list_elem_of_singleton in Hx' as ->. done.
Qed.

Lemma dict_set_fresh {A} key (v : A) acc :
  key ∉ map fst acc -> dict_set key v acc = acc ++ [(key, v)].
Proof.
  induction acc as [|[k x] rest IH]; cbn [dict_set map fst app]; intros Hnin; [reflexivity|].
  rewrite str_eqb_neq.
  - f_equal. apply IH. intros Hin. apply Hnin. by right.
  - intros ->. apply Hnin. by left.
Qed.

(** Writing the entries of a dict one by one into an empty dict gives the
    dict back. *)
Lemma rebuild_dict (C acc : list (str * str)) :
  NoDup (map fst (acc ++ C)) ->
  fold_left (fun a kv => dict_set (fst kv) (snd kv) a) C acc = acc ++ C.
Proof.
  revert acc. induction C as [|[k v] rest IH]; intros acc Hnd; cbn [fold_left fst snd].
  - by rewrite app_nil_r.
  - rewrite dict_set_fresh.
    + rewrite IH; [by rewrite <- app_assoc|]. by rewrite <- app_assoc.
    + rewrite map_app in Hnd. apply NoDup_app in Hnd as (_ & Hdisj & _).
      intros Hin. apply (Hdisj k Hin). by left.
Qed.





Lemma load_config_saved g C :
  fs (os g) !! config_file g = Some (File (Json (config_document C))) ->
  load_config g
  = (Ok (PDict (map (fun kv => (fst kv, PStr (snd kv))) C)),
     logged g
       [ LogMessage (tr g (u "log_config_check") (u "Checking configuration file...") []
                        (u "Checking configuration file...")) INFO;
         LogMessage (tr g (u "log_config_loaded")
                        (u "Configuration file loaded successfully.") []
                        (u "Configuration file loaded successfully.")) INFO ]).
Proof.
  intros Hfile. apply wp_exact. unfold load_config.
  apply wp_read. apply wp_bind, wp_flog. cbv beta iota.
  unfold path_exists. rewrite Hfile.
  apply wp_try. apply wp_bind. unfold read_json. apply wp_read. 
  cbn [os logged]. rewrite Hfile. apply wp_ret.
  apply wp_bind, wp_flog. cbv beta iota.
  unfold config_document, py_get. cbn [dict_get]. rewrite str_eqb_refl.
  apply wp_ret. by rewrite logged_logged.
Qed.


End FinderRoundTrip.

(** ** The properties on concrete inputs *)

Section Concrete.
Import Plain Examples.

(** The engine of the workstation is a valid installation. *)
Example workstation_engine_is_valid :
  EngineFinder.is_valid_engine_path workstation engine_root = true.
Proof. vm_compute. reflexivity. Qed.

(** Removing the entry script makes it invalid. *)
Example engine_without_script_is_invalid :
  EngineFinder.is_valid_engine_path
    (set_fs workstation (delete (join engine_root EngineFinder.uat_rel) files))
    engine_root = false.
Proof. vm_compute. reflexivity. Qed.

(** The options of the specification: a flag for [True], flag and value for a
    string, nothing for [False] and for the empty string. *)
Lemma get_build_command_encoding_witness :
  PluginBuilder.get_build_command (with_params sample_params)
  = (Ok (Some (base_command (with_params sample_params)
               ++ [u "-Strict"; u "-TargetPlatforms"; u "Win64+Linux"])),
     with_params sample_params).
Proof.
  exact (get_build_command_encoding (with_params sample_params)
           eq_refl eq_refl eq_refl eq_refl).
Defined.

(** C2, counterexample. The integer 0 is neither [True], [False], [None]
    nor the empty string, and yet the option is dropped: the command is the
    six leading arguments, not those followed by "-Jobs" and "0". *)
Lemma option_zero_is_dropped :
  fst (PluginBuilder.get_build_command (with_params zero_params))
  = Ok (Some (base_command (with_params zero_params)))
  /\ flat_map encode_option_as_specified zero_params = [u "-Jobs"; u "0"]
  /\ fst (PluginBuilder.get_build_command (with_params zero_params))
     <> Ok (Some (base_command (with_params zero_params)
                  ++ flat_map encode_option_as_specified zero_params)).
Proof.
  split; [vm_compute; reflexivity|]. split; [vm_compute; reflexivity|].
  vm_compute. intros E. discriminate E.
Qed.

(** The two lines of the specification. *)
Example progress_line :
  PluginBuilder.signals
    (snd (PluginBuilder._process_stdout (u "Build 42% complete") fresh_builder))
  = [LogMessage (u "Build 42% complete") INFO; BuildProgress 42].
Proof. vm_compute. reflexivity. Qed.

Example error_before_warning :
  PluginBuilder.classify (u "Warning: 1 Error(s) found") = ERROR
  /\ PluginBuilder.classify (u "ПРЕДУПРЕЖДЕНИЕ: успешно") = WARNING
  /\ PluginBuilder.classify (u "Build completed") = SUCCESS.
Proof. vm_compute. repeat split. Qed.

(** C3, counterexample. A line of three spaces is not empty, and no log
    event is emitted for it. And the line "Build 42% complete" of the output
    of the process, when it reaches the builder in two reads, gives two log
    events and a progress event with the value 2. *)
Lemma blank_line_and_split_line :
  (splitlines (u "   ") = [u "   "]
   /\ u "   " <> []
   /\ PluginBuilder._process_stdout (u "   ") fresh_builder = (Ok tt, fresh_builder))
  /\ (u "Build 4" ++ u "2% complete" = u "Build 42% complete"
      /\ option_map (last_signals 3) (PluginBuilder.run split_line running_builder)
         = Some [ LogMessage (u "Build 4") INFO;
                  LogMessage (u "2% complete") INFO;
                  BuildProgress 2 ]).
Proof.
  split.
  - split; [vm_compute; reflexivity|]. split; [vm_compute; discriminate|].
    vm_compute. reflexivity.
  - split; vm_compute; reflexivity.
Qed.

(** The leftmost place with digits and a percent sign decides, with all
    its digits. *)
Example first_percent_of_two :
  PluginBuilder.signals
    (snd (PluginBuilder._process_stdout (u "step 3: 100% of 7%") fresh_builder))
  = [LogMessage (u "step 3: 100% of 7%") INFO; BuildProgress 100].
Proof. vm_compute. reflexivity. Qed.

(** C4, counterexample. After [cancel_build] has emitted the cancellation
    event, the exit of the killed process is reported and
    [_process_finished] emits the exit-code failure event: the cancellation
    event is not the last event, nor the only terminal one. *)
Lemma completion_event_follows_cancellation :
  option_map (last_signals 3) (PluginBuilder.run cancelled_run fresh_builder)
  = Some [ BuildFinished false (u "Plugin build cancelled by user");
           LogMessage (u "Plugin build failed with error (code: 1)") ERROR;
           BuildFinished false (u "Plugin build failed with error (code: 1)") ].
Proof. vm_compute. reflexivity. Qed.

Lemma terminal_events_witness :
  PluginBuilder.handle_running running_builder = true
  /\ exists b' evs,
       PluginBuilder.cancel_build running_builder = (Ok true, b')
       /\ Forall is_log evs
       /\ PluginBuilder.signals b'
          = PluginBuilder.signals running_builder ++ evs
            ++ [ LogMessage (PluginBuilder.cancelled_message running_builder) WARNING;
                 BuildFinished false (PluginBuilder.cancelled_message running_builder) ].
Proof.
  split; [reflexivity|].
  exact (proj2 (proj2 (proj2 terminal_events)) running_builder eq_refl).
Defined.

Lemma idle_sources_empty : sources_empty idle_finder.
Proof.
  repeat split; intros g Hg.
  - unfold EngineFinder.find_unreal_in_registry, bind, get_state, EngineFinder.log,
      EngineFinder.emit, ret. cbn. rewrite Hg. reflexivity.
  - unfold EngineFinder.find_unreal_in_env_vars, bind, get_state, EngineFinder.log,
      EngineFinder.emit, ret. cbn. rewrite Hg. reflexivity.
  - unfold EngineFinder.find_unreal_in_standard_paths, bind, get_state, EngineFinder.log,
      EngineFinder.emit, ret. cbn. rewrite Hg. reflexivity.
Qed.

(** C6 on a workstation without any engine, where a configuration of an
    earlier day exists and may be written: the forced search returns the
    empty mapping, and after it, as after a search that is not forced, the
    file still holds what it held. *)
Lemma nothing_found_config_untouched_witness :
  (fs (EngineFinder.os idle_finder) !! config_path
   = Some (File (Json (EngineFinder.config_document earlier_mapping)))
   /\ can_save idle_finder = true)
  /\ fst (EngineFinder.find_all_engines false true idle_finder) = Ok []
  /\ fs (EngineFinder.os (snd (EngineFinder.find_all_engines false true idle_finder)))
       !! config_path
     = Some (File (Json (EngineFinder.config_document earlier_mapping)))
  /\ fs (EngineFinder.os (snd (EngineFinder.find_all_engines false false idle_finder)))
       !! config_path
     = Some (File (Json (EngineFinder.config_document earlier_mapping))).
Proof.
  pose proof (nothing_found_config_untouched idle_finder false true idle_sources_empty)
    as (_ & Hos & Hforced & _).
  pose proof (nothing_found_config_untouched idle_finder false false idle_sources_empty)
    as (_ & Hos' & _).
  split; [split; vm_compute; reflexivity|].
  split; [exact (Hforced eq_refl)|].
  split; [rewrite Hos | rewrite Hos']; vm_compute; reflexivity.
Defined.

(** There the search that is not forced finds the engine of the
    configuration gone, scans, and returns the empty mapping as well. *)
Example stale_configuration_is_kept :
  fst (EngineFinder.find_all_engines false false idle_finder) = Ok [].
Proof. vm_compute. reflexivity. Qed.



(** C8, counterexample. The descriptor [{}] is a well-formed JSON object
    without FriendlyName, and the name is not the empty string. And the
    descriptor [{"Modules": [1]}] is a well-formed JSON object for which the
    call does not succeed: it logs an error and returns nothing. *)
Lemma missing_name_and_odd_modules :
  (exists info,
     fst (PluginBuilder.extract_plugin_info plugin_file fresh_builder) = Ok (Some info)
     /\ dict_get (u "FriendlyName") [] = (None : option pyval)
     /\ PluginBuilder.name info = PStr (u "Unknown Plugin")
     /\ PluginBuilder.name info <> PStr [])
  /\ (fs (PluginBuilder.os fresh_builder) !! odd_plugin_file
      = Some (File (Json (PDict [(u "Modules", PList [PInt 1])])))
      /\ fst (PluginBuilder.extract_plugin_info odd_plugin_file fresh_builder) = Ok None
      /\ PluginBuilder.signals
           (snd (PluginBuilder.extract_plugin_info odd_plugin_file fresh_builder))
         = [LogMessage (u "Error reading plugin information: AttributeError") ERROR]).
Proof.
  split.
  - eexists. split; [vm_compute; reflexivity|]. split; [reflexivity|].
    split; [reflexivity|]. vm_compute. discriminate.
  - repeat split; vm_compute; reflexivity.
Qed.

(** What the Modules entry may be. *)
Example modules_entries :
  modules_yield_objects [(u "Modules", PList [PDict []; PDict [(u "Name", PStr (u "Core"))]])]
  = true
  /\ modules_yield_objects [(u "Modules", PDict [])] = true
  /\ modules_yield_objects [(u "Modules", PStr [])] = true
  /\ modules_yield_objects [(u "Modules", PList [PInt 1])] = false
  /\ modules_yield_objects [(u "Modules", PStr (u "Core"))] = false
  /\ modules_yield_objects [(u "Modules", PDict [(u "Core", PInt 1)])] = false
  /\ modules_yield_objects [(u "Modules", PInt 1)] = false
  /\ modules_yield_objects [(u "Modules", PNone)] = false.
Proof. vm_compute. repeat split. Qed.

Lemma extract_plugin_info_defaults_witness :
  exists info,
    PluginBuilder.extract_plugin_info plugin_file fresh_builder = (Ok (Some info), fresh_builder)
    /\ PluginBuilder.name info = PStr (u "Unknown Plugin")
    /\ PluginBuilder.version info = PInt 0
    /\ PluginBuilder.is_engine_plugin info = false.
Proof.
  destruct (extract_plugin_info_defaults plugin_file [] fresh_builder eq_refl)
    as (info & E & Hn & Hv & _ & _ & _ & _ & _ & _ & He).
  exists info. split; [exact E|]. split; [exact Hn|]. split; [exact Hv|].
  destruct (PluginBuilder.is_engine_plugin info); [|reflexivity].
  destruct (proj1 He eq_refl) as (v & Hget & _). discriminate Hget.
Defined.

Lemma cancel_build_idle_witness :
  PluginBuilder.cancel_build fresh_builder = (Ok false, fresh_builder).
Proof. exact (cancel_build_idle fresh_builder eq_refl). Defined.

(** A call that fails on its first check has nevertheless replaced what the
    previous build had stored. *)
Example failed_call_overwrites_request :
  fst (PluginBuilder.build_plugin (u "C:\missing.uplugin") (u "C:\out") (u "C:\none")
                                  (Some zero_params) running_builder) = Ok false
  /\ request running_builder = (Some plugin_file, Some output_dir, Some engine_root, [])
  /\ request (snd (PluginBuilder.build_plugin (u "C:\missing.uplugin") (u "C:\out")
                     (u "C:\none") (Some zero_params) running_builder))
     = (Some (u "C:\missing.uplugin"), Some (u "C:\out"), Some (u "C:\none"), zero_params).
Proof.
  split; [vm_compute; reflexivity|]. split; vm_compute; reflexivity.
Qed.

End Concrete.

(** * Further properties *)

(** ** EngineFinder: what each operation can change *)

Section FinderProjection.
Context `{PyLib} `{Unicode}.
Import EngineFinder.
Context {X : Type} (g : finder -> X).
Hypothesis g_signals : forall f evs,
  g (mkFinder (config_file f) (found_engines f) (localization f) (os f) evs) = g f.

Lemma keeps_finder_log m ty : keeps g (log m ty).
Proof. intros f. unfold keeps_at, log, emit; cbn. apply g_signals. Qed.

Ltac quiet := repeat (keeps_step; try apply keeps_finder_log).

Lemma quiet_scan_subkeys subkeys found : keeps g (scan_subkeys subkeys found).
Proof.
  revert found. induction subkeys as [|[p|] rest IH]; intros found; cbn [scan_subkeys].
  - apply keeps_ret.
  - intros f. apply keeps_at_read. destruct (_ && _); [|apply IH].
    apply keeps_at_bind; [apply keeps_finder_log | intros; apply IH].
  - apply IH.
Qed.

Lemma quiet_scan_registry reg_paths found : keeps g (scan_registry reg_paths found).
Proof.
  revert found. induction reg_paths as [|p rest IH]; intros found; cbn [scan_registry].
  - apply keeps_ret.
  - intros f. apply keeps_at_read. destruct (registry _ _); [|apply IH].
    apply keeps_at_bind; [apply quiet_scan_subkeys | intros; apply IH].
Qed.

Lemma quiet_find_unreal_in_registry : keeps g find_unreal_in_registry.
Proof.
  unfold find_unreal_in_registry. keeps_step. keeps_step.
  keeps_step; [apply keeps_finder_log|].
  keeps_step; [apply quiet_scan_registry|]. quiet.
Qed.

Lemma quiet_scan_env vars found : keeps g (scan_env vars found).
Proof.
  revert found. induction vars as [|v rest IH]; intros found; cbn [scan_env].
  - apply keeps_ret.
  - intros f. apply keeps_at_read. destruct (existsb _ _); [|apply IH].
    destruct (_ && _); [|apply IH].
    apply keeps_at_bind; [apply keeps_finder_log | intros; apply IH].
Qed.

Lemma quiet_find_unreal_in_env_vars : keeps g find_unreal_in_env_vars.
Proof.
  unfold find_unreal_in_env_vars. keeps_step. keeps_step.
  keeps_step; [apply keeps_finder_log|].
  keeps_step; [apply quiet_scan_env|]. quiet.
Qed.

Lemma quiet_scan_subdirs base subdirs found : keeps g (scan_subdirs base subdirs found).
Proof.
  revert found. induction subdirs as [|d rest IH]; intros found; cbn [scan_subdirs].
  - apply keeps_ret.
  - intros f. apply keeps_at_read. destruct (is_valid_engine_path _ _); [|apply IH].
    apply keeps_at_bind; [apply keeps_finder_log | intros; apply IH].
Qed.

Lemma quiet_scan_standard bases found : keeps g (scan_standard bases found).
Proof.
  revert found. induction bases as [|p rest IH]; intros found; cbn [scan_standard].
  - apply keeps_ret.
  - intros f. apply keeps_at_read. destruct (path_exists _ _); [|apply IH].
    destruct (listdir _ _) as [e|subdirs].
    + destruct (caught_by_listing e); [|reflexivity].
      apply keeps_at_bind; [apply keeps_finder_log | intros; apply IH].
    + apply keeps_at_bind; [apply quiet_scan_subdirs | intros; apply IH].
Qed.

Lemma quiet_find_unreal_in_standard_paths : keeps g find_unreal_in_standard_paths.
Proof.
  unfold find_unreal_in_standard_paths. keeps_step. keeps_step.
  keeps_step; [apply keeps_finder_log|].
  keeps_step; [apply quiet_scan_standard|]. quiet.
Qed.

Lemma quiet_read_json p : keeps g (read_json p).
Proof. unfold read_json. quiet. Qed.

Lemma quiet_py_get v key d : keeps g (py_get v key d).
Proof. unfold py_get. quiet. Qed.

Lemma quiet_load_config : keeps g load_config.
Proof.
  unfold load_config.
  repeat (keeps_step; try apply keeps_finder_log; try apply quiet_read_json;
          try apply quiet_py_get).
Qed.

Lemma quiet_extract_version_from_path path : keeps g (extract_version_from_path path).
Proof.
  unfold extract_version_from_path.
  repeat (keeps_step; try apply keeps_finder_log; try apply quiet_read_json;
          try apply quiet_py_get).
Qed.

Lemma quiet_revalidate items acc : keeps g (revalidate items acc).
Proof.
  revert acc. induction items as [|[version path] rest IH]; intros acc; cbn [revalidate].
  - apply keeps_ret.
  - intros f. apply keeps_at_read.
    assert (keeps_at g
              (bind (log (u "Engine version " ++ version ++ u " at path " ++ py_str path
                          ++ u " is no longer valid or complete") WARNING)
                    (fun _ => revalidate rest acc)) f) as Hinv.
    { apply keeps_at_bind; [apply keeps_finder_log | intros; apply IH]. }
    destruct path as [ | b | z | p | l | l ]; try reflexivity.
    + destruct (fd_open _ _); [reflexivity | exact Hinv].
    + destruct (fd_open _ _); [reflexivity | exact Hinv].
    + destruct (_ && _); [apply IH | exact Hinv].
Qed.

Lemma quiet_process_paths paths acc : keeps g (process_paths paths acc).
Proof.
  revert acc. induction paths as [|path rest IH]; intros acc; cbn [process_paths].
  - apply keeps_ret.
  - apply keeps_bind; [apply quiet_extract_version_from_path|].
    intros [[|c v]|]; try apply IH.
    intros f. apply keeps_at_read.
    apply keeps_at_bind; [apply keeps_finder_log | intros; apply IH].
Qed.

End FinderProjection.

(** ** EngineFinder: the three sources *)

Section FinderSources.
Context `{PyLib} `{Unicode}.
Import EngineFinder.

Lemma os_signals f evs :
  os (mkFinder (config_file f) (found_engines f) (localization f) (os f) evs) = os f.
Proof. reflexivity. Qed.

Lemma wp_quiet {A} (m : M finder A) (f : finder) (Q : res A -> finder -> Prop) :
  keeps os m -> (forall r f', os f' = os f -> Q r f') -> wp m f Q.
Proof. intros K HQ. apply HQ, K. Qed.

Lemma scan_subkeys_inv (P : str -> Prop) subkeys acc f :
  (forall p, In (Some p) subkeys -> passes (os f) p = true -> P p) ->
  Forall P acc ->
  wp (scan_subkeys subkeys acc) f
     (fun r f' => os f' = os f /\ forall l, r = Ok l -> Forall P l).
Proof.
  revert acc f. induction subkeys as [|[p|] rest IH]; intros acc f HP Hacc;
    cbn [scan_subkeys].
  - split; [reflexivity|]. by intros l [= <-].
  - apply wp_read.
    assert (forall acc', Forall P acc' ->
              wp (scan_subkeys rest acc') f
                 (fun r f' => os f' = os f /\ forall l, r = Ok l -> Forall P l)) as Hrest.
    { intros acc' Hacc'. apply IH; [|exact Hacc']. intros q Hq. apply HP. by right. }
    destruct (path_exists (os f) p && is_valid_engine_path (os f) p) eqn:E.
    + apply wp_bind, wp_flog. cbv beta iota.
      apply (IH (acc ++ [p]) (logged f _)).
      * intros q Hq. apply HP. by right.
      * apply Forall_app. split; [exact Hacc|]. constructor; [|constructor].
        apply HP; [by left | exact E].
    + by apply Hrest.
  - apply IH; [|exact Hacc]. intros q Hq. apply HP. by right.
Qed.

Lemma scan_registry_inv (P : str -> Prop) keys acc f :
  (forall key subkeys p, In key keys -> registry (os f) key = Some subkeys ->
                         In (Some p) subkeys -> passes (os f) p = true -> P p) ->
  Forall P acc ->
  wp (scan_registry keys acc) f
     (fun r f' => os f' = os f /\ forall l, r = Ok l -> Forall P l).
Proof.
  revert acc f. induction keys as [|key rest IH]; intros acc f HP Hacc;
    cbn [scan_registry].
  - split; [reflexivity|]. by intros l [= <-].
  - apply wp_read. destruct (registry (os f) key) as [subkeys|] eqn:E.
    + apply wp_bind.
      eapply wp_mono; [apply (scan_subkeys_inv P subkeys acc f); [|exact Hacc]|].
      * intros p Hp. apply (HP key subkeys p); [by left | exact E | exact Hp].
      * cbv beta. intros [acc'|e] f1 [Hos Hl]; [|split; [exact Hos | discriminate]].
        eapply wp_mono; [apply (IH acc' f1)|].
        -- intros key' subkeys' p Hk. rewrite Hos. apply HP. by right.
        -- by apply Hl.
        -- cbv beta. intros r f2 [Hos2 Hl2]. split; [congruence | exact Hl2].
    + apply IH; [|exact Hacc]. intros key' subkeys' p Hk. apply HP. by right.
Qed.

Lemma registry_candidates f r f' :
  find_unreal_in_registry f = (Ok r, f') ->
  Forall (fun p => from_registry (os f) p /\ passes (os f) p = true) r.
Proof.
  intros E.
  refine (wp_run _ _ (fun r _ => forall l, r = Ok l -> Forall _ l) _ _ _ E r eq_refl).
  unfold find_unreal_in_registry. apply wp_read. apply wp_bind, wp_flog. cbv beta iota.
  apply wp_bind.
  eapply wp_mono;
    [apply (scan_registry_inv
              (fun p => from_registry (os f) p /\ passes (os f) p = true)
              REGISTRY_PATHS [] (logged f _)); [|constructor]|].
  - intros key subkeys p Hk Hr Hp Hpass. split; [|exact Hpass]. by exists key, subkeys.
  - cbv beta. intros [l|e] f1 [_ Hl]; [|discriminate].
    destruct l as [|p l].
    + apply wp_bind, wp_flog. apply wp_ret. intros l' [= <-]. constructor.
    + apply wp_ret. intros l' [= <-]. by apply Hl.
Qed.

Lemma scan_env_inv (P : str -> Prop) vars acc f :
  (forall p, In p vars ->
             (exists name, In name POSSIBLE_ENGINE_NAMES /\ str_contains name p = true) ->
             passes (os f) p = true -> P p) ->
  Forall P acc ->
  wp (scan_env vars acc) f (fun r f' => forall l, r = Ok l -> Forall P l).
Proof.
  revert acc f. induction vars as [|var rest IH]; intros acc f HP Hacc; cbn [scan_env].
  - by intros l [= <-].
  - apply wp_read.
    assert (forall acc' f', os f' = os f -> Forall P acc' ->
              wp (scan_env rest acc') f' (fun r _ => forall l, r = Ok l -> Forall P l))
      as Hrest.
    { intros acc' f' Hos Hacc'. apply IH; [|exact Hacc'].
      intros q Hq. rewrite Hos. apply HP. by right. }
    destruct (existsb _ POSSIBLE_ENGINE_NAMES) eqn:En; [|by apply Hrest].
    destruct (path_exists (os f) var && is_valid_engine_path (os f) var) eqn:E;
      [|by apply Hrest].
    apply wp_bind, wp_flog. cbv beta iota. apply Hrest; [reflexivity|].
    apply Forall_app. split; [exact Hacc|]. constructor; [|constructor].
    apply HP; [by left | | exact E].
    apply existsb_exists in En as (name & Hin & Hc). by exists name.
Qed.

Lemma environment_candidates f r f' :
  find_unreal_in_env_vars f = (Ok r, f') ->
  Forall (fun p => from_environment (os f) p /\ passes (os f) p = true) r.
Proof.
  intros E.
  refine (wp_run _ _ (fun r _ => forall l, r = Ok l -> Forall _ l) _ _ _ E r eq_refl).
  unfold find_unreal_in_env_vars. apply wp_read. apply wp_bind, wp_flog. cbv beta iota.
  apply wp_bind.
  eapply wp_mono;
    [apply (scan_env_inv
              (fun p => from_environment (os f) p /\ passes (os f) p = true)
              (environ (os f)) [] (logged f _)); [|constructor]|].
  - intros p Hin Hname Hpass. by repeat split.
  - cbv beta. intros [l|e] f1 Hl; [|discriminate].
    destruct l as [|p l].
    + apply wp_bind, wp_flog. apply wp_ret. intros l' [= <-]. constructor.
    + apply wp_ret. intros l' [= <-]. by apply Hl.
Qed.

Lemma scan_subdirs_inv (P : str -> Prop) base subdirs acc f :
  (forall d, In d subdirs ->
             is_valid_engine_path (os f) (os_path_join base [d]) = true ->
             P (os_path_join base [d])) ->
  Forall P acc ->
  wp (scan_subdirs base subdirs acc) f
     (fun r f' => os f' = os f /\ forall l, r = Ok l -> Forall P l).
Proof.
  revert acc f. induction subdirs as [|d rest IH]; intros acc f HP Hacc;
    cbn [scan_subdirs].
  - split; [reflexivity|]. by intros l [= <-].
  - apply wp_read.
    destruct (is_valid_engine_path (os f) (os_path_join base [d])) eqn:E.
    + apply wp_bind, wp_flog. cbv beta iota.
      apply (IH (acc ++ [os_path_join base [d]]) (logged f _)).
      * intros q Hq. apply HP. by right.
      * apply Forall_app. split; [exact Hacc|]. constructor; [|constructor].
        apply HP; [by left | exact E].
    + apply IH; [|exact Hacc]. intros q Hq. apply HP. by right.
Qed.

Lemma scan_standard_inv (P : str -> Prop) bases acc f :
  (forall base names d, In base bases -> listdir (os f) base = inr names -> In d names ->
                        is_valid_engine_path (os f) (os_path_join base [d]) = true ->
                        P (os_path_join base [d])) ->
  Forall P acc ->
  wp (scan_standard bases acc) f
     (fun r f' => os f' = os f /\ forall l, r = Ok l -> Forall P l).
Proof.
  revert acc f. induction bases as [|base rest IH]; intros acc f HP Hacc;
    cbn [scan_standard].
  - split; [reflexivity|]. by intros l [= <-].
  - apply wp_read.
    assert (forall acc' f', os f' = os f -> Forall P acc' ->
              wp (scan_standard rest acc') f'
                 (fun r f2 => os f2 = os f /\ forall l, r = Ok l -> Forall P l)) as Hrest.
    { intros acc' f' Hos Hacc'. eapply wp_mono; [apply (IH acc' f'); [|exact Hacc']|].
      - intros b names d Hb. rewrite Hos. apply HP. by right.
      - cbv beta. intros r f2 [Hos2 Hl]. split; [congruence | exact Hl]. }
    destruct (path_exists (os f) base); [|by apply Hrest].
    destruct (listdir (os f) base) as [e|names] eqn:El.
    + destruct (caught_by_listing e); [|split; [reflexivity | discriminate]].
      apply wp_bind, wp_flog. cbv beta iota. by apply Hrest.
    + apply wp_bind.
      eapply wp_mono; [apply (scan_subdirs_inv P base names acc f); [|exact Hacc]|].
      * intros d Hd. apply (HP base names d); [by left | exact El | exact Hd].
      * cbv beta. intros [acc'|e] f1 [Hos Hl]; [|split; [exact Hos | discriminate]].
        apply Hrest; [exact Hos | by apply Hl].
Qed.

Lemma standard_candidates f r f' :
  find_unreal_in_standard_paths f = (Ok r, f') ->
  Forall (fun p => from_standard_paths (os f) p
                   /\ is_valid_engine_path (os f) p = true) r.
Proof.
  intros E.
  refine (wp_run _ _ (fun r _ => forall l, r = Ok l -> Forall _ l) _ _ _ E r eq_refl).
  unfold find_unreal_in_standard_paths. apply wp_read. apply wp_bind, wp_flog.
  cbv beta iota. apply wp_bind.
  eapply wp_mono;
    [apply (scan_standard_inv
              (fun p => from_standard_paths (os f) p
                        /\ is_valid_engine_path (os f) p = true)
              (STANDARD_PATHS (os f)) [] (logged f _)); [|constructor]|].
  - intros base names d Hb Hl Hd Hv. split; [|exact Hv]. by exists base, names, d.
  - cbv beta. intros [l|e] f1 [_ Hl]; [|discriminate].
    destruct l as [|p l].
    + apply wp_bind, wp_flog. apply wp_ret. intros l' [= <-]. constructor.
    + apply wp_ret. intros l' [= <-]. by apply Hl.
Qed.

(** X1. Whatever a source returns comes from that source and has passed the
    check: a registry candidate is the InstalledDirectory of a subkey of one
    of the two keys, exists and is a valid installation; an environment
    candidate is a value of the environment that contains one of the four
    names, exists and is valid; a candidate of the standard paths is an
    entry of one of the four directories and is valid. *)
Theorem sources_yield_checked_candidates (f : finder) :
  (forall r f', find_unreal_in_registry f = (Ok r, f') ->
     Forall (fun p => from_registry (os f) p /\ passes (os f) p = true) r)
  /\ (forall r f', find_unreal_in_env_vars f = (Ok r, f') ->
        Forall (fun p => from_environment (os f) p /\ passes (os f) p = true) r)
  /\ (forall r f', find_unreal_in_standard_paths f = (Ok r, f') ->
        Forall (fun p => from_standard_paths (os f) p
                         /\ is_valid_engine_path (os f) p = true) r).
Proof.
  split; [exact (registry_candidates f)|].
  split; [exact (environment_candidates f) | exact (standard_candidates f)].
Qed.

End FinderSources.

(** ** EngineFinder: what a search writes and records *)

Section FinderWrites.
Context `{PyLib} `{Unicode}.
Import EngineFinder.

Lemma wp_kept {A X} (g : finder -> X) (m : M finder A) (f : finder)
    (Q : res A -> finder -> Prop) :
  keeps g m -> (forall r f', g f' = g f -> Q r f') -> wp m f Q.
Proof. intros K HQ. apply HQ, K. Qed.

Lemma outside_signals f evs :
  outside (mkFinder (config_file f) (found_engines f) (localization f) (os f) evs)
  = outside f.
Proof. reflexivity. Qed.

Lemma found_signals f evs :
  found_engines (mkFinder (config_file f) (found_engines f) (localization f) (os f) evs)
  = found_engines f.
Proof. reflexivity. Qed.

Lemma keeps_outside_save_config C : keeps outside (save_config C).
Proof.
  unfold save_config.
  repeat (keeps_step; try apply (keeps_finder_log _ outside_signals)).
  unfold keeps_at, put_state, outside. cbn.
  by rewrite delete_insert_eq.
Qed.

Lemma keeps_found_save_config C : keeps found_engines (save_config C).
Proof.
  unfold save_config.
  repeat (keeps_step; try apply (keeps_finder_log _ found_signals)). reflexivity.
Qed.

Lemma keeps_outside_process_found_paths paths : keeps outside (_process_found_paths paths).
Proof.
  unfold _process_found_paths.
  apply keeps_bind; [apply (quiet_process_paths _ outside_signals)|].
  intros [|kv result]; [apply keeps_ret|].
  apply keeps_bind; [apply keeps_outside_save_config|]. intros _ f.
  apply keeps_at_read. reflexivity.
Qed.

Lemma keeps_outside_fresh_scan stop : keeps outside (fresh_scan stop).
Proof.
  unfold fresh_scan.
  apply keeps_bind; [apply (quiet_find_unreal_in_registry _ outside_signals)|].
  intros reg.
  assert (forall (m : M finder (list (str * str))) l,
            keeps outside m ->
            keeps outside (match stop, l with
                           | true, p :: _ => _process_found_paths [p]
                           | _, _ => m
                           end)) as Hstop.
  { intros m l K. destruct stop; [|exact K].
    destruct l; [exact K | apply keeps_outside_process_found_paths]. }
  apply Hstop.
  apply keeps_bind; [apply (quiet_find_unreal_in_env_vars _ outside_signals)|].
  intros env. apply Hstop.
  apply keeps_bind; [apply (quiet_find_unreal_in_standard_paths _ outside_signals)|].
  intros std. apply Hstop.
  destruct (reg ++ env ++ std); [|apply keeps_outside_process_found_paths].
  repeat (keeps_step; try apply (keeps_finder_log _ outside_signals)).
Qed.

Lemma keeps_outside_find_all_engines stop force : keeps outside (find_all_engines stop force).
Proof.
  unfold find_all_engines.
  apply keeps_bind; [apply (keeps_finder_log _ outside_signals)|]. intros _.
  destruct (negb force).
  - apply keeps_bind; [apply (quiet_load_config _ outside_signals)|]. intros saved.
    destruct (truthy saved); [|apply keeps_outside_fresh_scan].
    intros f. apply keeps_at_read.
    apply keeps_at_bind; [apply (keeps_finder_log _ outside_signals)|]. intros _ f1 _.
    apply keeps_at_bind.
    { destruct saved; try reflexivity. apply (quiet_revalidate _ outside_signals). }
    intros [|kv valid] f2 _.
    + apply keeps_at_read.
      apply keeps_at_bind; [apply (keeps_finder_log _ outside_signals)|].
      intros; apply keeps_outside_fresh_scan.
    + apply keeps_at_read. reflexivity.
  - apply keeps_bind; [apply (keeps_finder_log _ outside_signals)|]. intros _.
    apply keeps_outside_fresh_scan.
Qed.

(** X2. A search writes nothing but the configuration file: whatever
    [find_all_engines] does and returns, every other path of the file
    system is as before, and so is the rest of the world (no command run,
    no process started) and the name of the configuration file. *)
Theorem search_writes_only_the_configuration (stop_on_first force_rescan : bool)
    (f : finder) :
  config_file (snd (find_all_engines stop_on_first force_rescan f)) = config_file f
  /\ (forall p, p <> config_file f ->
        fs (os (snd (find_all_engines stop_on_first force_rescan f))) !! p
        = fs (os f) !! p)
  /\ set_fs (os (snd (find_all_engines stop_on_first force_rescan f))) ∅
     = set_fs (os f) ∅.
Proof.
  pose proof (keeps_outside_find_all_engines stop_on_first force_rescan f) as K.
  unfold keeps_at, outside in K.
  destruct (find_all_engines stop_on_first force_rescan f) as [r f']. cbn [snd] in *.
  assert (config_file f' = config_file f) as Hc by congruence.
  assert (set_fs (os f') (delete (config_file f) (fs (os f')))
          = set_fs (os f) (delete (config_file f) (fs (os f)))) as Hw.
  { rewrite <- Hc at 1. congruence. }
  split; [exact Hc|]. split.
  - intros p Hp.
    pose proof (f_equal (fun w => fs w !! p) Hw) as E. cbn in E.
    by rewrite !lookup_delete_ne in E.
  - exact (f_equal (fun w => set_fs w ∅) Hw).
Qed.

Lemma found_after_process_found_paths paths f :
  wp (_process_found_paths paths) f
     (fun r f' => match r with
                  | Ok [] | Raise _ => found_engines f' = found_engines f
                  | Ok C => found_engines f' = C
                  end).
Proof.
  unfold _process_found_paths. apply wp_bind.
  apply (wp_kept found_engines); [apply (quiet_process_paths _ found_signals)|].
  intros [[|kv result]|e] f1 E1; [by apply wp_ret | | exact E1].
  apply wp_bind.
  apply (wp_kept found_engines); [apply keeps_found_save_config|].
  intros [ok|e] f2 E2; [|congruence].
  apply wp_read, wp_write, wp_ret. reflexivity.
Qed.

Lemma found_after_fresh_scan stop f :
  wp (fresh_scan stop) f
     (fun r f' => match r with
                  | Ok [] | Raise _ => found_engines f' = found_engines f
                  | Ok C => found_engines f' = C
                  end).
Proof.
  unfold fresh_scan.
  assert (forall paths f0, found_engines f0 = found_engines f ->
            wp (_process_found_paths paths) f0
               (fun r f' => match r with
                            | Ok [] | Raise _ => found_engines f' = found_engines f
                            | Ok C => found_engines f' = C
                            end)) as Hp.
  { intros paths f0 E0.
    apply (wp_mono _ _ _ _ (found_after_process_found_paths paths f0)).
    intros [[|kv C]|e] f'; congruence. }
  apply wp_bind.
  apply (wp_kept found_engines); [apply (quiet_find_unreal_in_registry _ found_signals)|].
  intros [reg|e] f1 E1; [|exact E1].
  assert (forall (m : M finder (list (str * str))) f0 l,
            found_engines f0 = found_engines f ->
            wp m f0 (fun r f' => match r with
                                 | Ok [] | Raise _ => found_engines f' = found_engines f
                                 | Ok C => found_engines f' = C
                                 end) ->
            wp (match stop, l with
                | true, p :: _ => _process_found_paths [p]
                | _, _ => m
                end) f0
               (fun r f' => match r with
                            | Ok [] | Raise _ => found_engines f' = found_engines f
                            | Ok C => found_engines f' = C
                            end)) as Hstop.
  { intros m f0 l E0 W. destruct stop; [|exact W]. destruct l; [exact W | by apply Hp]. }
  apply Hstop; [exact E1|].
  apply wp_bind.
  apply (wp_kept found_engines); [apply (quiet_find_unreal_in_env_vars _ found_signals)|].
  intros [env|e] f2 E2; [|congruence].
  apply Hstop; [congruence|].
  apply wp_bind.
  apply (wp_kept found_engines);
    [apply (quiet_find_unreal_in_standard_paths _ found_signals)|].
  intros [std|e] f3 E3; [|congruence].
  apply Hstop; [congruence|].
  destruct (reg ++ env ++ std); [|apply Hp; congruence].
  apply wp_read. apply wp_bind, wp_flog. apply wp_bind, wp_flog. apply wp_ret.
  cbn. congruence.
Qed.

(** X3. [found_engines] holds the last answer that was not empty: when
    [find_all_engines] returns a mapping with an entry, the attribute is
    that mapping afterwards; when it returns the empty mapping, or raises,
    the attribute is what it was. *)
Theorem found_engines_records_the_answer (stop_on_first force_rescan : bool)
    (f : finder) :
  match fst (find_all_engines stop_on_first force_rescan f) with
  | Ok [] | Raise _ =>
      found_engines (snd (find_all_engines stop_on_first force_rescan f))
      = found_engines f
  | Ok C =>
      found_engines (snd (find_all_engines stop_on_first force_rescan f)) = C
  end.
Proof.
  enough (wp (find_all_engines stop_on_first force_rescan) f
             (fun r f' => match r with
                          | Ok [] | Raise _ => found_engines f' = found_engines f
                          | Ok C => found_engines f' = C
                          end)) as W by exact W.
  assert (forall f0, found_engines f0 = found_engines f ->
            wp (fresh_scan stop_on_first) f0
               (fun r f' => match r with
                            | Ok [] | Raise _ => found_engines f' = found_engines f
                            | Ok C => found_engines f' = C
                            end)) as Hscan.
  { intros f0 E0. apply (wp_mono _ _ _ _ (found_after_fresh_scan stop_on_first f0)).
    intros [[|kv C]|e] f'; congruence. }
  unfold find_all_engines. apply wp_bind, wp_flog. cbv beta iota.
  destruct (negb force_rescan).
  - apply wp_bind.
    apply (wp_kept found_engines); [apply (quiet_load_config _ found_signals)|].
    intros [saved|e] f1 E1; [|exact E1].
    destruct (truthy saved); [|by apply Hscan].
    apply wp_read. apply wp_bind, wp_flog. cbv beta iota. apply wp_bind.
    apply (wp_kept found_engines).
    { destruct saved; try (intros ?; reflexivity).
      apply (quiet_revalidate _ found_signals). }
    intros [[|kv valid]|e] f2 E2; [| |cbn in *; congruence].
    + apply wp_read. apply wp_bind, wp_flog. apply Hscan. cbn in *. congruence.
    + apply wp_read, wp_write, wp_ret. reflexivity.
  - apply wp_bind, wp_flog. by apply Hscan.
Qed.

Lemma process_paths_one p f :
  wp (process_paths [p] []) f
     (fun r _ => match r with Ok C => (length C <= 1)%nat | Raise _ => True end).
Proof.
  cbn [process_paths]. apply wp_bind, wp_any. intros [version|e] f1; [|exact I].
  destruct version as [[|c v]|]; try (apply wp_ret; cbn; lia).
  apply wp_read. apply wp_bind, wp_flog. apply wp_ret. cbn. lia.
Qed.

Lemma process_one_path p f :
  wp (_process_found_paths [p]) f (fun r _ => forall C, r = Ok C -> (length C <= 1)%nat).
Proof.
  unfold _process_found_paths. apply wp_bind.
  apply (wp_mono _ _ _ _ (process_paths_one p f)).
  intros [result|e] f1 Hlen; [|discriminate]. destruct result as [|kv rest].
  - apply wp_ret. by intros C [= <-].
  - apply wp_bind, wp_any. intros [ok|e] f2; [|discriminate].
    apply wp_read, wp_write, wp_ret. by intros C [= <-].
Qed.

(** X4. With [stop_on_first] a discovery pass returns at most one
    installation, and so does [find_all_engines] with a forced rescan. *)
Theorem stop_on_first_returns_at_most_one (f : finder) :
  (forall C f', fresh_scan true f = (Ok C, f') -> (length C <= 1)%nat)
  /\ (forall C f', find_all_engines true true f = (Ok C, f') -> (length C <= 1)%nat).
Proof.
  assert (forall f0, wp (fresh_scan true) f0
                        (fun r _ => forall C, r = Ok C -> (length C <= 1)%nat)) as Hscan.
  { intros f0. unfold fresh_scan.
    apply wp_bind, wp_any. intros [[|p reg]|e] f1; [| apply process_one_path | discriminate].
    apply wp_bind, wp_any. intros [[|p env]|e] f2; [| apply process_one_path | discriminate].
    apply wp_bind, wp_any. intros [[|p std]|e] f3; [| apply process_one_path | discriminate].
    cbn [app]. apply wp_read. apply wp_bind, wp_flog. apply wp_bind, wp_flog. apply wp_ret.
    intros C [= <-]. cbn. lia. }
  split.
  - intros C f' E. exact (wp_run _ _ _ _ _ (Hscan f) E C eq_refl).
  - intros C f' E.
    refine (wp_run _ _ (fun r _ => forall C, r = Ok C -> (length C <= 1)%nat) _ _ _ E C eq_refl).
    unfold find_all_engines. cbn [negb].
    apply wp_bind, wp_flog. apply wp_bind, wp_flog. apply Hscan.
Qed.

End FinderWrites.

(** ** EngineFinder: what a scan leaves in the configuration *)

Section FinderPersistence.
Context `{PyLib} `{Unicode}.
Import EngineFinder.

Lemma place_signals f evs :
  place (mkFinder (config_file f) (found_engines f) (localization f) (os f) evs) = place f.
Proof. reflexivity. Qed.






End FinderPersistence.

Section PersistenceConcrete.
Import Plain Examples EngineFinder.


End PersistenceConcrete.

(** ** EngineFinder: the configuration file *)

Section FinderConfig.
Context `{PyLib} `{Unicode}.
Import EngineFinder.


Lemma logged_nil f : logged f [] = f.
Proof. destruct f. unfold logged. cbn. by rewrite app_nil_r. Qed.

Lemma revalidate_survivors C acc g :
  revalidate (as_json C) acc g
  = (Ok (fold_left (fun a kv => dict_set (fst kv) (snd kv) a) (survivors (os g) C) acc),
     logged g (map dropped_line (dropped (os g) C))).
Proof.
  revert acc g. induction C as [|[k p] rest IH]; intros acc g.
  - cbn. by rewrite logged_nil.
  - cbn [as_json map revalidate fst snd survivors dropped List.filter].
    unfold bind at 1. cbn [get_state]. fold (passes (os g) p).
    fold (as_json rest). fold (survivors (os g) rest). fold (dropped (os g) rest).
    destruct (passes (os g) p); cbn [negb fold_left fst snd map].
    + apply IH.
    + unfold bind, log, emit. cbn [py_str]. rewrite IH. cbn [os logged].
      f_equal. unfold logged, dropped_line. cbn. by rewrite <- app_assoc.
Qed.

Lemma survivors_keys w C : NoDup (map fst C) -> NoDup (map fst (survivors w C)).
Proof.
  induction C as [|kv rest IH]; cbn; [done|]. intros Hnd.
  apply NoDup_cons in Hnd as [Hnin Hnd].
  destruct (passes w (snd kv)); cbn; [|by apply IH].
  apply NoDup_cons. split; [|by apply IH].
  intros Hin. apply Hnin. clear -Hin.
  induction rest as [|kv' rest IH]; cbn in *; [done|].
  destruct (passes w (snd kv')); cbn in *.
  - apply elem_of_cons in Hin as [->|Hin]; [by left | right; by apply IH].
  - right. by apply IH.
Qed.

(** X6. Answering from the configuration keeps the entries that still
    pass the check and drops the others: when the file holds the mapping
    [C] and at least one entry passes, [find_all_engines] without forced
    rescan returns the passing entries in the order of [C], records them,
    runs no source of the scan and leaves the world as it is; it logs the
    four lines of a reload and one warning for each dropped entry. *)
Theorem reload_returns_survivors (stop : bool) (f : finder) (C : list (str * str)) :
  NoDup (map fst C) ->
  fs (os f) !! config_file f = Some (File (Json (config_document C))) ->
  survivors (os f) C <> [] ->
  find_all_engines stop false f
  = (Ok (survivors (os f) C),
     set_found_engines
       (logged f (reload_log f ++ map dropped_line (dropped (os f) C)))
       (survivors (os f) C)).
Proof.
  intros Hnd Hfile Hne. apply wp_exact.
  unfold find_all_engines. cbn [negb].
  apply wp_bind, wp_flog. cbv beta iota.
  apply wp_bind. eapply wp_eq; [apply (load_config_saved _ C); exact Hfile|].
  rewrite logged_logged.
  assert (truthy (PDict (map (fun kv => (fst kv, PStr (snd kv))) C)) = true) as ->.
  { destruct C; [done | reflexivity]. }
  apply wp_read. apply wp_bind, wp_flog. cbv beta iota. rewrite logged_logged.
  apply wp_bind. eapply wp_eq; [apply (revalidate_survivors C [])|].
  cbn [os logged]. rewrite logged_logged.
  rewrite (rebuild_dict (survivors (os f) C) []) by (by apply survivors_keys).
  cbn [app]. destruct (survivors (os f) C) as [|kv0 C0] eqn:E; [done|].
  apply wp_read, wp_write, wp_ret. reflexivity.
Qed.

(** X7. A configuration that is JSON but not of the expected form stops
    the search: when the file holds a value that is not an object, or an
    object whose [unreal_engines] is true-like and not an object,
    [find_all_engines] without forced rescan raises [AttributeError]. The
    finder is then as it was but for the lines of a reload it has logged,
    the first three in the one case and all four in the other: no source
    is scanned, and nothing is written or recorded. *)
Theorem malformed_configuration_raises (stop : bool) (f : finder) (j : pyval) :
  fs (os f) !! config_file f = Some (File (Json j)) ->
  not_an_object j
  \/ (exists items v, j = PDict items /\ dict_get (u "unreal_engines") items = Some v
                      /\ not_an_object v /\ truthy v = true) ->
  find_all_engines stop false f
  = (Raise AttributeError,
     logged f (match j with
               | PDict _ => reload_log f
               | _ => take 3 (reload_log f)
               end)).
Proof.
  intros Hfile Hbad. apply wp_exact.
  unfold find_all_engines. cbn [negb].
  apply wp_bind, wp_flog. cbv beta iota.
  apply wp_bind. unfold load_config.
  apply wp_read. apply wp_bind, wp_flog. cbv beta iota.
  unfold path_exists. cbn [os config_file logged]. rewrite Hfile.
  apply wp_try. apply wp_bind. unfold read_json. apply wp_read.
  cbn [os config_file logged]. rewrite Hfile. apply wp_ret.
  apply wp_bind, wp_flog. cbv beta iota.
  destruct Hbad as [Hj | (items & v & -> & Hget & Hv & Ht)].
  - destruct j; try (apply wp_raise; unfold logged, reload_log; cbn;
                     by rewrite <- !app_assoc).
    destruct Hj.
  - unfold py_get. rewrite Hget. apply wp_ret. rewrite Ht.
    apply wp_read. apply wp_bind, wp_flog. cbv beta iota. apply wp_bind.
    destruct v; try (apply wp_raise; unfold logged, reload_log; cbn;
                     by rewrite <- !app_assoc).
    destruct Hv.
Qed.

End FinderConfig.

(** ** EngineFinder: the version of a candidate *)

Section FinderVersion.
Context `{PyLib} `{Unicode}.
Import EngineFinder.

Lemma version_token_sound s v :
  version_token s = Some v -> version_shaped v /\ exists post, s = v ++ post.
Proof.
  unfold version_token. intros E.
  apply digits_then_sound in E as (major & rest & Hne & Hd & -> & Hk). cbn [app] in Hk.
  destruct rest as [|c r]; [discriminate|].
  destruct (c =? 46) eqn:Hc; [|discriminate]. apply N.eqb_eq in Hc as ->.
  apply digits_then_sound in Hk as (minor & post & Hne' & Hd' & -> & Hk).
  cbn [app] in Hk. injection Hk as <-. split.
  - by exists major, minor.
  - exists post. by rewrite <- !app_assoc.
Qed.

Lemma version_token_complete v post :
  version_shaped v -> version_token (v ++ post) <> None.
Proof.
  intros (major & minor & -> & Hne & Hd & Hne' & Hd'). unfold version_token.
  destruct (digits_then_complete (fun minor0 _ : str => Some (major ++ [46] ++ minor0))
              minor post [] (major ++ [46] ++ minor) Hne' Hd' eq_refl) as (x & Ex).
  destruct (digits_then_complete
              (fun major0 rest =>
                 match rest with
                 | c :: r =>
                     if c =? 46
                     then digits_then r [] (fun minor0 _ => Some (major0 ++ [46] ++ minor0))
                     else None
                 | [] => None
                 end) major ([46] ++ minor ++ post) [] x Hne Hd) as (y & Ey).
  - cbn [app]. rewrite N.eqb_refl.
    exact Ex.
  - rewrite <- !app_assoc. cbn [app] in *. rewrite Ey. discriminate.
Qed.

Lemma ue_version_at_eq s :
  ue_version_at s
  = match s with
    | c1 :: c2 :: rest =>
        if (c1 =? 85) && (c2 =? 69) then
          match rest with
          | c3 :: r =>
              if c3 =? 95 then
                match version_token r with
                | Some v => Some v
                | None => version_token rest
                end
              else version_token rest
          | [] => version_token rest
          end
        else None
    | _ => None
    end.
Proof.
  destruct s as [|c1 [|c2 rest]].
  - reflexivity.
  - destruct c1 as [|p]; [reflexivity|]. do 7 (destruct p as [p|p|]; try reflexivity).
  - destruct c1 as [|p]; [reflexivity|].
    do 7 (destruct p as [p|p|]; try reflexivity).
    destruct c2 as [|p]; [reflexivity|].
    do 7 (destruct p as [p|p|]; try reflexivity).
    destruct rest as [|c3 r]; [reflexivity|].
    destruct c3 as [|p]; [reflexivity|].
    do 7 (destruct p as [p|p|]; try reflexivity).
Qed.

Lemma ue_version_at_sound s v :
  ue_version_at s = Some v ->
  version_shaped v
  /\ exists post, s = [85; 69] ++ v ++ post \/ s = [85; 69; 95] ++ v ++ post.
Proof.
  rewrite ue_version_at_eq.
  destruct s as [|c1 [|c2 rest]]; try discriminate.
  destruct (c1 =? 85) eqn:E1; [|discriminate]. apply N.eqb_eq in E1 as ->.
  destruct (c2 =? 69) eqn:E2; [|discriminate]. apply N.eqb_eq in E2 as ->.
  cbn [andb].
  assert (version_token rest = Some v ->
          version_shaped v
          /\ exists post, 85 :: 69 :: rest = [85; 69] ++ v ++ post
                          \/ 85 :: 69 :: rest = [85; 69; 95] ++ v ++ post) as Hplain.
  { intros E. apply version_token_sound in E as (Hv & post & ->).
    split; [exact Hv|]. exists post. by left. }
  destruct rest as [|c3 r]; [exact Hplain|].
  destruct (c3 =? 95) eqn:E3; [|exact Hplain]. apply N.eqb_eq in E3 as ->.
  destruct (version_token r) as [v'|] eqn:E; [|exact Hplain].
  intros [= ->]. apply version_token_sound in E as (Hv & post & ->).
  split; [exact Hv|]. exists post. by right.
Qed.

Lemma ue_version_at_complete v post :
  version_shaped v ->
  ue_version_at ([85; 69] ++ v ++ post) <> None
  /\ ue_version_at ([85; 69; 95] ++ v ++ post) <> None.
Proof.
  intros Hv. pose proof (version_token_complete v post Hv) as Hc.
  rewrite !ue_version_at_eq. cbn [app N.eqb Pos.eqb andb]. split.
  - destruct (v ++ post) as [|c3 r] eqn:E; [exact Hc|].
    destruct (c3 =? 95); [|exact Hc].
    destruct (version_token r); [discriminate | exact Hc].
  - destruct (version_token (v ++ post)); [discriminate | done].
Qed.

Lemma search_ue_version_sound s v :
  search_ue_version s = Some v ->
  version_shaped v
  /\ exists pre post, s = pre ++ [85; 69] ++ v ++ post \/ s = pre ++ [85; 69; 95] ++ v ++ post.
Proof.
  revert v. induction s as [|c s IH]; intros v; cbn [search_ue_version].
  - destruct (ue_version_at []) eqn:E; discriminate.
  - destruct (ue_version_at (c :: s)) as [v'|] eqn:E.
    + intros [= ->]. apply ue_version_at_sound in E as (Hv & post & E).
      split; [exact Hv|]. exists [], post. exact E.
    + intros Hs. destruct (IH v Hs) as (Hv & pre & post & E').
      split; [exact Hv|]. exists (c :: pre), post.
      destruct E' as [-> | ->]; [by left | by right].
Qed.

Lemma search_ue_version_complete s v :
  search_ue_version s = None -> version_shaped v ->
  ~ exists pre post, s = pre ++ [85; 69] ++ v ++ post \/ s = pre ++ [85; 69; 95] ++ v ++ post.
Proof.
  intros Hs Hv. revert Hs. induction s as [|c s IH]; cbn [search_ue_version].
  - intros _ (pre & post & [E|E]); by destruct pre.
  - destruct (ue_version_at (c :: s)) as [v'|] eqn:E; [discriminate|].
    intros Hs (pre & post & E').
    destruct (ue_version_at_complete v post Hv) as [C1 C2].
    destruct pre as [|c' pre].
    + destruct E' as [E'|E']; cbn [app] in E', C1, C2; rewrite E' in E; done.
    + apply (IH Hs). exists pre, post.
      destruct E' as [E'|E']; injection E' as -> ->; [by left | by right].
Qed.

(** X8. [re.search(r'UE_?(\d+\.\d+)', s)]: a version that is returned is
    [<digits>.<digits>] and stands in [s] after [UE] or [UE_]; nothing is
    returned only when [s] names no version in that way. *)
Theorem search_ue_version_spec (s : str) :
  (forall v, search_ue_version s = Some v -> version_shaped v /\ names_version s v)
  /\ (search_ue_version s = None -> ~ exists v, version_shaped v /\ names_version s v).
Proof.
  unfold names_version. change (u "UE_") with [85; 69; 95]. change (u "UE") with [85; 69].
  split.
  - intros v. apply search_ue_version_sound.
  - intros Hs (v & Hv & Hn). by apply (search_ue_version_complete s v Hs Hv).
Qed.

End FinderVersion.

Section FinderCandidates.
Context `{PyLib} `{Unicode}.
Import EngineFinder.

Lemma extract_version_depends_on_world path f g :
  os g = os f ->
  fst (extract_version_from_path path g) = fst (extract_version_from_path path f).
Proof.
  intros Hg. unfold extract_version_from_path, bind, get_state. cbn beta iota.
  rewrite Hg.
  destruct (search_ue_version _); [reflexivity|].
  destruct (path_exists (os f) _); [|reflexivity].
  unfold try_except, read_json, bind, get_state. rewrite Hg.
  destruct (fs (os f) !! _) as [[|[ | | |j]]|]; try reflexivity.
  destruct j; try reflexivity.
Qed.

Lemma extract_version_from_path_shape (path : str) (f : finder) :
  exists r evs,
    extract_version_from_path path f = (Ok r, logged f evs)
    /\ (evs = [] \/ r = None /\ exists m, evs = [LogMessage m WARNING])
    /\ forall v, r = Some v -> v <> [].
Proof.
  unfold extract_version_from_path, bind, get_state. cbn beta iota.
  match goal with |- context [search_ue_version ?e] => set (root := e) end.
  destruct (search_ue_version root) as [v|] eqn:Ev.
  { exists (Some v), []. rewrite logged_nil. split; [reflexivity|]. split; [by left|].
    intros v' [= <-]. apply search_ue_version_sound in Ev as [(major & minor & -> & Hne & _) _].
    by destruct major. }
  destruct (path_exists (os f) (os_path_join root _)).
  2:{ exists None, []. rewrite logged_nil. split; [reflexivity|]. split; [by left | done]. }
  assert (forall m, exists r evs,
            (Ok (@None str), logged f [LogMessage m WARNING]) = (Ok r, logged f evs)
            /\ (evs = [] \/ r = None /\ exists m, evs = [LogMessage m WARNING])
            /\ forall v, r = Some v -> v <> []) as Hwarn.
  { intros m. exists None, [LogMessage m WARNING]. split; [reflexivity|].
    split; [right; split; [reflexivity | by exists m] | done]. }
  unfold try_except, read_json, bind, get_state.
  destruct (fs (os f) !! _) as [[|[ | | |j]]|]; try apply Hwarn.
  destruct j; try apply Hwarn.
  cbn. eexists (Some _), []. rewrite logged_nil. split; [reflexivity|]. split; [by left|].
  intros v [= <-]. change (u ".") with [46]. intros E.
  by apply app_eq_nil in E as [_ E].
Qed.

(** X9. [extract_version_from_path] never raises and changes nothing but
    the log, to which it adds at most one line, a warning, and only when it
    returns [None]; a version it returns is never empty. *)
Theorem extract_version_from_path_is_quiet (path : str) (f : finder) :
  exists r evs,
    extract_version_from_path path f = (Ok r, logged f evs)
    /\ (evs = [] \/ r = None /\ exists m, evs = [LogMessage m WARNING])
    /\ forall v, r = Some v -> v <> [].
Proof. apply extract_version_from_path_shape. Qed.

Lemma dict_get_set_eq {A} key (v : A) acc : dict_get key (dict_set key v acc) = Some v.
Proof.
  induction acc as [|[k x] rest IH]; cbn [dict_set dict_get].
  - by rewrite str_eqb_refl.
  - destruct (str_eqb k key) eqn:E; cbn [dict_get]; by rewrite E.
Qed.

Lemma dict_get_set_ne {A} key key' (v : A) acc :
  key <> key' -> dict_get key (dict_set key' v acc) = dict_get key acc.
Proof.
  intros Hne. induction acc as [|[k x] rest IH]; cbn [dict_set dict_get].
  - rewrite str_eqb_neq; [reflexivity | congruence].
  - destruct (str_eqb k key') eqn:E; cbn [dict_get]; [|by rewrite IH].
    apply str_eqb_eq in E as ->. rewrite str_eqb_neq; [reflexivity | congruence].
Qed.

Lemma has_version_world f g path v :
  os g = os f -> has_version g path v <-> has_version f path v.
Proof.
  intros Hg. unfold has_version.
  by rewrite (extract_version_depends_on_world path f g Hg).
Qed.

Lemma process_paths_keeps_world paths acc : keeps os (process_paths paths acc).
Proof. apply (quiet_process_paths os). reflexivity. Qed.

Lemma process_paths_other paths acc f v :
  (forall q, In q paths -> ~ has_version f q v) ->
  wp (process_paths paths acc) f
     (fun r _ => forall C, r = Ok C -> dict_get v C = dict_get v acc).
Proof.
  revert acc f. induction paths as [|path rest IH]; intros acc f Hno; cbn [process_paths].
  - by intros C [= <-].
  - apply wp_bind.
    pose proof (quiet_extract_version_from_path os (fun _ _ => eq_refl) path f) as K.
    unfold keeps_at in K. unfold wp at 1.
    destruct (extract_version_from_path path f) as [[version|e] f1] eqn:E;
      cbn [fst snd] in *; [|discriminate].
    assert (forall acc', dict_get v acc' = dict_get v acc ->
              wp (process_paths rest acc') f1
                 (fun r _ => forall C, r = Ok C -> dict_get v C = dict_get v acc)) as Hrest.
    { intros acc' Eacc. eapply wp_mono.
      - apply (IH acc' f1). intros q Hq Hv. apply (Hno q); [by right|].
        by apply (has_version_world f f1).
      - cbv beta. intros r _ HC C ->. by rewrite (HC C eq_refl). }
    destruct version as [[|c w]|]; try by apply Hrest.
    apply wp_read. apply wp_bind, wp_flog. cbv beta iota.
    eapply wp_mono.
    + apply (IH _ (logged f1 _)). intros q Hq Hv. apply (Hno q); [by right|].
      refine (proj1 (has_version_world f _ _ _ _) Hv). exact K.
    + cbv beta. intros r _ HC C ->. rewrite (HC C eq_refl).
      apply dict_get_set_ne. intros ->. apply (Hno path); [by left|].
      split; [by rewrite E | done].
Qed.

Lemma process_paths_last pre p post acc f v :
  has_version f p v ->
  (forall q, In q post -> ~ has_version f q v) ->
  wp (process_paths (pre ++ p :: post) acc) f
     (fun r _ => forall C, r = Ok C -> dict_get v C = Some (normalized (os f) p)).
Proof.
  intros Hp Hpost. revert acc f Hp Hpost.
  induction pre as [|path pre IH]; intros acc f Hp Hpost; cbn [app process_paths].
  - apply wp_bind.
    pose proof (quiet_extract_version_from_path os (fun _ _ => eq_refl) p f) as K.
    unfold keeps_at in K. unfold wp at 1. destruct Hp as [Ev Hne].
    destruct (extract_version_from_path p f) as [r f1] eqn:E; cbn [fst snd] in *.
    subst r. destruct v as [|c w]; [done|].
    apply wp_read. apply wp_bind, wp_flog. cbv beta iota.
    eapply wp_mono.
    + apply (process_paths_other post _ (logged f1 _) (c :: w)).
      intros q Hq Hv. apply (Hpost q Hq).
      refine (proj1 (has_version_world f _ _ _ _) Hv). exact K.
    + cbv beta. intros r _ HC C ->. rewrite (HC C eq_refl), dict_get_set_eq.
      unfold normalized. by rewrite K.
  - apply wp_bind.
    pose proof (quiet_extract_version_from_path os (fun _ _ => eq_refl) path f) as K.
    unfold keeps_at in K. unfold wp at 1.
    destruct (extract_version_from_path path f) as [[version|e] f1] eqn:E;
      cbn [fst snd] in *; [|discriminate].
    assert (forall acc' (g : finder), os g = os f ->
              wp (process_paths (pre ++ p :: post) acc') g
                 (fun r _ => forall C, r = Ok C ->
                               dict_get v C = Some (normalized (os f) p))) as Hrest.
    { intros acc' g Hg. rewrite <- Hg. apply IH.
      - by apply (has_version_world f g).
      - intros q Hq Hv. apply (Hpost q Hq). by apply (has_version_world f g). }
    destruct version as [[|c w]|]; try by apply Hrest.
Qed.

(** X10. Of several candidates with the same version the last one is
    kept: [_process_found_paths] maps a version to the root of the last
    candidate that has it, and holds no version that no candidate has. *)
Theorem later_candidate_wins (paths : list str) (f f' : finder)
    (C : list (str * str)) (v : str) :
  _process_found_paths paths f = (Ok C, f') ->
  ((forall q, In q paths -> ~ has_version f q v) -> dict_get v C = None)
  /\ (forall pre p post,
        paths = pre ++ p :: post ->
        has_version f p v ->
        (forall q, In q post -> ~ has_version f q v) ->
        dict_get v C = Some (normalized (os f) p)).
Proof.
  intros E.
  assert (forall (P : list (str * str) -> Prop),
            wp (process_paths paths []) f (fun r _ => forall C, r = Ok C -> P C) ->
            P C) as Hvia.
  { intros P W. revert E. unfold _process_found_paths, bind. unfold wp in W.
    destruct (process_paths paths [] f) as [[result|e] f1]; [|discriminate].
    cbn [fst snd] in W. specialize (W result eq_refl).
    destruct result as [|kv result]; [by intros [= <- _]|].
    destruct (save_config (kv :: result) f1) as [[ok|e] f2]; [|discriminate].
    cbn. by intros [= <- _]. }
  split.
  - intros Hno. apply (Hvia (fun C => dict_get v C = None)).
    apply (process_paths_other paths [] f v Hno).
  - intros pre p post -> Hp Hpost.
    apply (Hvia (fun C => dict_get v C = Some (normalized (os f) p))).
    by apply process_paths_last.
Qed.

End FinderCandidates.

(** ** PluginBuilder: how a call of [build_plugin] ends *)

Section BuilderOutcome.
Context `{PyLib} `{Unicode}.
Import PluginBuilder.

Lemma get_build_command_cases b :
  (exists msg, get_build_command b = (Ok None, add_signals b [LogMessage msg ERROR]))
  \/ get_build_command b
     = (Ok (Some (base_command b ++ flat_map encode_option (additional_params b))), b).
Proof.
  unfold get_build_command, bind, get_state.
  destruct (unset (source_plugin_path b) || unset (output_folder b)
            || unset (target_engine_path b)); [left; by eexists|].
  fold (uat_path_of b). destruct (path_exists (os b) (uat_path_of b)); cbn [negb].
  - right. by rewrite add_params_flat_map.
  - left. by eexists.
Qed.

Lemma format_pairs_args_raises w args b :
  wp (format_pairs_args w args) b
     (fun r b' => b' = b /\ forall e, r = Raise e -> e = IndexError).
Proof.
  revert args. fix IH 1. intros [|param [|value rest]]; cbn [format_pairs_args].
  - by split.
  - unfold capitalized. destruct (lstrip_dash param); cbn; split; try done.
    by intros e [= <-].
  - unfold capitalized, bind. destruct (lstrip_dash param); cbn.
    + split; [done|]. by intros e [= <-].
    + pose proof (IH rest) as W. unfold wp in W |- *.
      destruct (format_pairs_args w rest b) as [[others|e] b1]; cbn in *;
        (split; [apply W|]); [done | apply W].
Qed.

Lemma format_pairs_args_world w1 w2 args b1 b2 :
  fs w1 = fs w2 ->
  fst (format_pairs_args w1 args b1) = fst (format_pairs_args w2 args b2).
Proof.
  intros Hfs. revert args. fix IH 1. intros [|param [|value rest]]; cbn [format_pairs_args].
  - reflexivity.
  - unfold capitalized, bind. by destruct (lstrip_dash param).
  - unfold capitalized, bind, path_exists. rewrite Hfs.
    destruct (lstrip_dash param); [reflexivity|]. cbn.
    pose proof (format_pairs_args_raises w1 rest b1) as [E1 _].
    pose proof (format_pairs_args_raises w2 rest b2) as [E2 _].
    pose proof (IH rest) as E.
    destruct (format_pairs_args w1 rest b1) as [[o1|e1] s1],
             (format_pairs_args w2 rest b2) as [[o2|e2] s2]; cbn in *; congruence.
Qed.

Lemma build_plugin_outcome src out tgt params b :
  wp (build_plugin src out tgt params) b (build_outcome b).
Proof.
  unfold build_plugin. apply wp_read. apply wp_write. apply wp_read. cbv beta.
  set (b1 := set_request b src out tgt (default [] params)).
  destruct (path_exists (os b1) src); cbn [negb].
  2:{ apply wp_bind, wp_log, wp_ret. repeat split. by eexists. }
  destruct (access_w (os b1) (os_path_dirname out)); cbn [negb].
  2:{ apply wp_bind, wp_log, wp_ret. repeat split. by eexists. }
  destruct (os_makedirs (fs (os b1)) out) as [fs'|].
  2:{ apply wp_bind, wp_log, wp_ret. repeat split. by eexists. }
  apply wp_write. set (b2 := set_os b1 (set_fs (os b1) fs')).
  apply wp_bind.
  destruct (get_build_command_cases b2) as [(msg & E) | E]; eapply wp_eq; try exact E.
  { apply wp_ret. repeat split. by exists msg. }
  cbn [base_command app].
  apply wp_bind. unfold get_command_string. apply wp_bind. eapply wp_eq; [exact E|].
  cbn [base_command app]. apply wp_read. apply wp_ret.
  apply wp_read. apply wp_bind, wp_log. apply wp_bind, wp_emit.
  apply wp_read. apply wp_write. cbv beta iota.
  apply wp_bind.
  cbv beta. unfold wp at 1.
  match goal with |- context [format_pairs_args ?w ?a ?s] =>
    pose proof (format_pairs_args_raises w a s) as W; unfold wp in W;
    destruct (format_pairs_args w a s) as [[formatted|e] b3] eqn:Ef
  end; cbn [fst snd] in *; destruct W as [-> He].
  - assert (forall b', fs (os b') = fs (os b2) -> request b' = request b2 ->
              fst (format_pairs_args (os b')
                     (skipn 2 (base_command b'
                               ++ flat_map encode_option (additional_params b'))) b')
              = Ok formatted) as Hargs.
    { intros b' Hfs Hreq.
      match type of Ef with
      | format_pairs_args ?w ?a ?s = _ =>
          transitivity (fst (format_pairs_args w a s)); [|by rewrite Ef]
      end.
      unfold request in Hreq. injection Hreq as Hs Ho Ht Ha.
      unfold base_command, uat_path_of. rewrite Hs, Ho, Ht, Ha.
      apply format_pairs_args_world. exact Hfs. }
    apply wp_bind. unfold start. apply wp_read.
    cbn [os set_process add_signals].
    destruct (can_spawn (os b2) (uat_path_of b2)) eqn:Hs.
    + apply wp_put. apply wp_ret. split.
      * eexists. unfold emitted. cbn. by rewrite <- app_assoc.
      * eexists _, formatted. split; [reflexivity|]. split; [reflexivity|].
        split; [reflexivity|]. split; [by apply Hargs | reflexivity].
    + apply wp_put. apply wp_ret. split.
      * eexists. unfold emitted. cbn. by rewrite <- app_assoc.
      * eexists _, formatted. split; [reflexivity|]. split; [reflexivity|].
        split; [reflexivity|]. split; [by apply Hargs | cbn; by rewrite app_nil_r].
  - cbn. split; [by apply He|]. split; [|by split].
    eexists. unfold emitted. cbn. by rewrite <- app_assoc.
Qed.


(** X11. A call of [build_plugin] ends in one of three ways. It returns
    [False] after exactly one error line, with the handle slot as it was
    and no process started. It returns [True] after the command line and
    the start event, with a new handle in the slot for the entry script,
    whose arguments are [BuildPlugin] and what the formatting loop makes
    of the rest of the command; a process has been started exactly when
    that handle is running. Or it raises [IndexError], after the command
    line and the start event, leaving a handle that was never started. *)
Theorem build_plugin_ends_in_three_ways (src out tgt : str)
    (params : option (list (str * pyval))) (b : builder) :
  build_outcome b (fst (build_plugin src out tgt params b))
                  (snd (build_plugin src out tgt params b)).
Proof. apply build_plugin_outcome. Qed.

End BuilderOutcome.

(** ** PluginBuilder: cancellation, error output, the descriptor *)

Section BuilderFurther.
Context `{PyLib} `{Unicode}.
Import PluginBuilder.

(** X12. [cancel_build] on a running build runs three commands, in this
    order: taskkill for the process tree of the handle, then for every
    process named UnrealBuildTool.exe, then for every process named UBT.exe.
    It removes the stored output folder if that exists, starts nothing, and
    leaves the request and the handle as they were: the handle still counts
    as running, so a second call does all of it again. *)
Theorem cancel_build_kills_and_cleans (b : builder) (p : qprocess) :
  process b = Some p ->
  handle_running b = true ->
  exists b',
    cancel_build b = (Ok true, b')
    /\ shell_log (os b') = shell_log (os b) ++ kill_commands (processId p)
    /\ fs (os b') = without_output b
    /\ spawn_log (os b') = spawn_log (os b)
    /\ request b' = request b
    /\ process b' = Some p
    /\ handle_running b' = true.
Proof.
  intros Hp Hr.
  enough (wp cancel_build b (fun r b' =>
            r = Ok true
            /\ shell_log (os b') = shell_log (os b) ++ kill_commands (processId p)
            /\ fs (os b') = without_output b
            /\ spawn_log (os b') = spawn_log (os b)
            /\ request b' = request b
            /\ process b' = Some p
            /\ handle_running b' = true)) as W.
  { unfold wp in W. destruct (cancel_build b) as [r b'].
    cbn [fst snd] in W. destruct W as (-> & W). by exists b'. }
  unfold cancel_build. apply wp_read. unfold handle_running in Hr. rewrite Hp in *.
  assert (forall (Q : res bool -> builder -> Prop) m,
            wp m b Q ->
            wp (match state p with NotRunning => ret false | _ => m end) b Q) as K.
  { intros Q m W. destruct (state p); [discriminate | exact W | exact W]. }
  apply K. clear K. cbn [kill_by_name].
  repeat (cbv beta iota;
          first [ wp_step | apply wp_log | apply wp_emit | apply wp_shell ]).
  all: unfold without_output, kill_commands, handle_running, path_exists, attr in *.
  all: cbn in *.
  all: match goal with E : _ && _ = _ |- _ => rewrite E end.
  all: try match goal with E : shutil_rmtree _ _ = _ |- _ => rewrite E end.
  all: rewrite Hp, <- !app_assoc.
  all: repeat split; done.
Qed.

Lemma stderr_lines_events lines b :
  stderr_lines lines b
  = (Ok tt, add_signals b (map (fun m => LogMessage m ERROR)
                               (log_texts (flat_map line_events lines)))).
Proof.
  revert b. induction lines as [|raw rest IH]; intros b; cbn [stderr_lines flat_map].
  - by rewrite add_signals_nil.
  - unfold line_events at 1. destruct (strip raw) as [|c line].
    + apply IH.
    + unfold bind, log, emit. cbv beta iota. rewrite IH.
      unfold add_signals, log_texts.
      cbn [process source_plugin_path output_folder target_engine_path
           additional_params localization os signals].
      rewrite flat_map_app, <- app_assoc.
      destruct (search_percent (c :: line)); reflexivity.
Qed.

(** X13. [_process_stderr] logs the lines [_process_stdout] would log for
    the same text, in the same order, each as ERROR whatever it says, and
    emits no progress event. *)
Theorem process_stderr_events (data : str) (b : builder) :
  exists evs,
    _process_stdout data b = (Ok tt, add_signals b evs)
    /\ _process_stderr data b
       = (Ok tt, add_signals b (map (fun m => LogMessage m ERROR) (log_texts evs))).
Proof.
  exists (flat_map line_events (splitlines data)). split.
  - apply stdout_lines_events.
  - apply stderr_lines_events.
Qed.

Lemma module_names_pure ms b : snd (module_names ms b) = b.
Proof.
  induction ms as [|m ms IH]; [reflexivity|]. cbn [module_names].
  unfold bind. destruct m; try reflexivity. cbn.
  destruct (module_names ms b) as [[ns|e] b1]; cbn in *; exact IH.
Qed.

(** X14. [extract_plugin_info] never raises: whatever the file holds, it
    returns the information and logs nothing, or returns [None] after one
    error line. Nothing else changes. *)
Theorem extract_plugin_info_never_raises (plugin_path : str) (b : builder) :
  exists r evs,
    extract_plugin_info plugin_path b = (Ok r, add_signals b evs)
    /\ match r with
       | Some _ => evs = []
       | None => exists m, evs = [LogMessage m ERROR]
       end.
Proof.
  enough (wp (extract_plugin_info plugin_path) b
             (fun r b' => exists evs,
                b' = add_signals b evs
                /\ match r with
                   | Ok (Some _) => evs = []
                   | Ok None => exists m, evs = [LogMessage m ERROR]
                   | Raise _ => False
                   end)) as W.
  { unfold wp in W. destruct (extract_plugin_info plugin_path b) as [[r|e] b'];
      cbn [fst snd] in W; destruct W as (evs & -> & W); [|done]. by exists r, evs. }
  unfold extract_plugin_info. apply wp_try.
  assert (forall e,
            wp (bind (log (u "Error reading plugin information: " ++ exn_text e) ERROR)
                     (fun _ => ret (@None plugin_info))) b
               (fun r b' => exists evs,
                  b' = add_signals b evs
                  /\ match r with
                     | Ok (Some _) => evs = []
                     | Ok None => exists m, evs = [LogMessage m ERROR]
                     | Raise _ => False
                     end)) as Hfail.
  { intros e. apply wp_bind, wp_log, wp_ret. eexists. split; [reflexivity | by eexists]. }
  apply wp_bind. unfold read_json. apply wp_read.
  destruct (fs (os b) !! plugin_path) as [[|[ | | |j]]|]; try (apply wp_raise, Hfail).
  apply wp_ret. unfold py_get.
  destruct j; try (apply wp_bind, wp_raise, Hfail).
  do 5 apply wp_bind, wp_ret. apply wp_bind.
  destruct (py_iter _) as [ms|]; [|apply wp_raise, Hfail].
  apply (wp_mono _ _ (fun r b' => b' = b)).
  { unfold wp. apply module_names_pure. }
  intros [ns|e] b' ->; [|apply Hfail].
  do 4 apply wp_bind, wp_ret. apply wp_ret.
  exists []. by rewrite add_signals_nil.
Qed.

End BuilderFurther.

(** ** PluginBuilder: the arguments of the process *)

Section BuilderArguments.
Context `{PyLib} `{Unicode}.
Import PluginBuilder.

Lemma lstrip_dash_flag k : lstrip_dash (u "-" ++ k) = lstrip_dash k.
Proof. reflexivity. Qed.

Lemma capitalized_flag k b :
  named k -> capitalized (u "-" ++ k) b = (Ok (capital k), b).
Proof.
  unfold named, capitalized, capital. rewrite lstrip_dash_flag.
  by destruct (lstrip_dash k).
Qed.

(** The formatting loop takes its arguments two by two. *)
Lemma format_pairs_args_pair w flag value rest b :
  format_pairs_args w (flag :: value :: rest) b
  = bind (capitalized flag)
         (fun p => bind (format_pairs_args w rest)
                        (fun others => ret ((u "-" ++ p ++ u "=" ++ slashed w value) :: others)))
         b.
Proof. reflexivity. Qed.

Lemma encode_valued k v : has_value v -> encode_option (k, v) = [u "-" ++ k; py_str v].
Proof. destruct v as [ | [|] | [|p|p] | [|c s] | l | l ]; cbn; done. Qed.

(** X15. Options that all carry a value reach the process as one
    argument each: for an option map whose values are neither [True] nor
    dropped and whose names are more than dashes, the formatting loop of
    [build_plugin] turns what [get_build_command] appended into
    [-Key=value], option by option, the name capitalized and the value
    with forward slashes when its directory exists. *)
Theorem valued_options_become_key_value (w : world)
    (params : list (str * pyval)) (b : builder) :
  Forall (fun kv => named (fst kv) /\ has_value (snd kv)) params ->
  format_pairs_args w (flat_map encode_option params) b
  = (Ok (map (fun kv => key_value w (fst kv) (py_str (snd kv))) params), b).
Proof.
  induction 1 as [|[k v] rest [Hk Hv] _ IH]; [reflexivity|].
  cbn [flat_map fst snd map] in *. rewrite (encode_valued k v Hv). cbn [app].
  rewrite format_pairs_args_pair. unfold bind.
  rewrite (capitalized_flag k b Hk), IH. reflexivity.
Qed.

(** X16. The loop pairs arguments without regard to what they are: two
    bare flags in a row, after options that all carry a value, reach the
    process as the single argument [-First=-second]. *)
Theorem consecutive_flags_are_merged (w : world) (pre post : list (str * pyval))
    (k1 k2 : str) (b : builder) :
  Forall (fun kv => named (fst kv) /\ has_value (snd kv)) pre ->
  named k1 ->
  format_pairs_args w
    (flat_map encode_option (pre ++ (k1, PBool true) :: (k2, PBool true) :: post)) b
  = bind (format_pairs_args w (flat_map encode_option post))
         (fun others =>
            ret (map (fun kv => key_value w (fst kv) (py_str (snd kv))) pre
                 ++ key_value w k1 (u "-" ++ k2) :: others)) b.
Proof.
  intros Hpre Hk1. revert b.
  induction Hpre as [|[k v] rest [Hk Hv] _ IH]; intros b.
  - cbn [app flat_map map]. unfold encode_option at 1 2. cbn [fst snd app].
    rewrite format_pairs_args_pair. unfold bind at 1.
    rewrite (capitalized_flag k1 b Hk1). reflexivity.
  - cbn [app flat_map fst snd map] in *. rewrite (encode_valued k v Hv). cbn [app].
    rewrite format_pairs_args_pair. unfold bind at 1.
    rewrite (capitalized_flag k b Hk). unfold bind at 1. rewrite IH.
    unfold bind. by destruct (format_pairs_args w (flat_map encode_option post) b)
                      as [[others|e] b'].
Qed.

End BuilderArguments.

(** ** AdvancedOptionsDialog: from the check boxes to the process *)

Section DialogOptions.
Context `{PyLib} `{Unicode}.
Import PluginBuilder AdvancedOptionsDialog.

Lemma Forall_dict_set (P : pyval -> Prop) key v (opts : list (str * pyval)) :
  P v -> Forall (fun kv => P (snd kv)) opts ->
  Forall (fun kv => P (snd kv)) (dict_set key v opts).
Proof.
  intros Hv. induction 1 as [|[k x] rest Hx Hrest IH]; cbn [dict_set].
  - by repeat constructor.
  - destruct (str_eqb k key); constructor; done.
Qed.

Lemma get_build_options_values d :
  NoDup (map fst (get_build_options d))
  /\ Forall (fun kv => flag_or_text (snd kv)) (get_build_options d).
Proof.
  set (Inv := fun opts : list (str * pyval) =>
                NoDup (map fst opts) /\ Forall (fun kv => flag_or_text (snd kv)) opts).
  assert (forall k v o, flag_or_text v -> Inv o -> Inv (dict_set k v o)) as Hset.
  { intros k v o Hv [Hnd Hall]. split; [by apply dict_set_NoDup|].
    by apply (Forall_dict_set flag_or_text). }
  assert (forall (c : bool) k o, Inv o -> Inv (if c then dict_set k (PBool true) o else o))
    as Hif.
  { intros [] k o Ho; [apply Hset; [by left | exact Ho] | exact Ho]. }
  assert (forall params o, Inv o -> Inv (fold_left add_custom params o)) as Hfold.
  { induction params as [|param params IH]; intros o Ho; [exact Ho|].
    cbn [fold_left]. apply IH. unfold add_custom.
    destruct (starts_with (u "-") param); [|exact Ho].
    destruct (split_once 61 (skipn 1 param)) as [[key value]|].
    - apply Hset; [right; by eexists | exact Ho].
    - apply Hset; [by left | exact Ho]. }
  change (Inv (get_build_options d)). unfold get_build_options. cbv zeta.
  match goal with
  | |- Inv (match _ with [] => ?o | _ => _ end) => assert (Inv o) as Ho
  end.
  { do 5 apply Hif. destruct (map fst _).
    - split; constructor.
    - apply Hset; [right; by eexists | split; constructor]. }
  destruct (strip (extra_params_edit d)); [exact Ho | by apply Hfold].
Qed.

(** X17. Whatever is checked and typed in the dialog, the option map it
    hands over has distinct names and holds only bare flags and texts; so
    the loop of [get_build_command] encodes it as flag for a flag, nothing
    for an empty text, and flag and text for any other text. *)
Theorem dialog_options_are_flags_and_texts (d : dialog) (command : list str) :
  NoDup (map fst (get_build_options d))
  /\ Forall (fun kv => flag_or_text (snd kv)) (get_build_options d)
  /\ add_params (get_build_options d) command
     = command ++ flat_map encode_option_as_specified (get_build_options d).
Proof.
  destruct (get_build_options_values d) as [Hnd Hall].
  split; [exact Hnd|]. split; [exact Hall|].
  rewrite add_params_flat_map. f_equal. clear Hnd.
  induction Hall as [|kv rest Hkv _ IH]; [reflexivity|]. cbn [flat_map].
  rewrite IH. f_equal. apply encode_option_as_specified_eq.
  destruct kv as [k v]. cbn [snd] in *. destruct Hkv as [-> | [s ->]]; discriminate.
Qed.

Lemma format_pairs_args_valued_prefix w pre post b :
  Forall (fun kv => named (fst kv) /\ has_value (snd kv)) pre ->
  format_pairs_args w (flat_map encode_option pre ++ post) b
  = bind (format_pairs_args w post)
         (fun others =>
            ret (map (fun kv => key_value w (fst kv) (py_str (snd kv))) pre ++ others)) b.
Proof.
  intros Hpre. revert b. induction Hpre as [|[k v] rest [Hk Hv] _ IH]; intros b.
  - cbn [flat_map map app]. unfold bind.
    by destruct (format_pairs_args w post b) as [[others|e] b'].
  - cbn [flat_map fst snd map] in *. rewrite (encode_valued k v Hv). cbn [app].
    rewrite format_pairs_args_pair. unfold bind at 1.
    rewrite (capitalized_flag k b Hk). unfold bind at 1. rewrite IH.
    unfold bind. by destruct (format_pairs_args w post b) as [[others|e] b'].
Qed.

Lemma format_pairs_args_flags w flags b :
  Forall named flags ->
  format_pairs_args w (flat_map encode_option (map (fun k => (k, PBool true)) flags)) b
  = (Ok (merged_flags w flags), b).
Proof.
  revert flags. fix IH 1. intros [|k1 [|k2 rest]] Hn.
  - reflexivity.
  - cbn [map flat_map]. unfold encode_option. cbn [fst snd app format_pairs_args].
    inversion Hn as [|? ? Hk1 _]; subst. unfold bind.
    by rewrite (capitalized_flag k1 b Hk1).
  - inversion Hn as [|? ? Hk1 Hn']; subst. inversion Hn' as [|? ? Hk2 Hn'']; subst.
    cbn [map flat_map merged_flags]. unfold encode_option at 1 2. cbn [fst snd app].
    rewrite format_pairs_args_pair. unfold bind.
    rewrite (capitalized_flag k1 b Hk1), (IH rest Hn''). reflexivity.
Qed.

Lemma get_build_options_plain d :
  strip (extra_params_edit d) = [] ->
  get_build_options d
  = match selected_platforms d with
    | [] => []
    | platforms => [(u "TargetPlatforms", PStr (str_join (u "+") platforms))]
    end
    ++ map (fun k => (k, PBool true)) (checked_flags d).
Proof.
  intros Hblank. unfold get_build_options, checked_flags, selected_platforms. cbv zeta.
  rewrite Hblank.
  destruct (map fst (List.filter snd (platform_checkboxes d))) as [|p l];
    destruct (create_dist_checkbox d), (no_host_platform_checkbox d),
             (include_debug_files_checkbox d), (strict_checkbox d),
             (unversioned_checkbox d);
    vm_compute; reflexivity.
Qed.

Lemma checked_flags_named d : Forall named (checked_flags d).
Proof.
  unfold checked_flags.
  destruct (create_dist_checkbox d), (no_host_platform_checkbox d),
           (include_debug_files_checkbox d), (strict_checkbox d),
           (unversioned_checkbox d);
    repeat constructor; vm_compute; discriminate.
Qed.

Lemma selected_platforms_join d p l :
  map fst (platform_checkboxes d) = PLATFORMS ->
  selected_platforms d = p :: l ->
  has_value (PStr (str_join (u "+") (p :: l))).
Proof.
  intros Hnames Hsel.
  assert (In p PLATFORMS) as Hp.
  { rewrite <- Hnames. unfold selected_platforms in Hsel.
    assert (In p (map fst (List.filter snd (platform_checkboxes d)))) as Hin
      by (rewrite Hsel; by left).
    apply in_map_iff in Hin as (kv & <- & Hkv). apply in_map.
    by apply filter_In in Hkv as [Hkv _]. }
  assert (p <> []) as Hne.
  { destruct Hp as [<-|[<-|[<-|[<-|[]]]]]; vm_compute; discriminate. }
  destruct p as [|c p]; [done|]. cbn [str_join]. by destruct l.
Qed.

(** X18. How the check boxes reach the process. For the dialog with its
    four platforms and nothing typed as additional parameter, the
    formatting loop of [build_plugin] turns the options of the dialog into
    one argument [-TargetPlatforms=...] when a platform is checked, followed
    by the checked option boxes two by two: the second of each pair is
    passed as the value of the first, [-First=-second], and only an odd
    one left over is passed as a flag of its own. *)
Theorem checked_boxes_reach_the_process_in_pairs (w : world) (d : dialog) (b : builder) :
  map fst (platform_checkboxes d) = PLATFORMS ->
  strip (extra_params_edit d) = [] ->
  format_pairs_args w (flat_map encode_option (get_build_options d)) b
  = (Ok (platform_arguments w d ++ merged_flags w (checked_flags d)), b).
Proof.
  intros Hnames Hblank. rewrite (get_build_options_plain d Hblank), flat_map_app.
  unfold platform_arguments.
  destruct (selected_platforms d) as [|p l] eqn:Hsel.
  - cbn [flat_map app]. apply format_pairs_args_flags, checked_flags_named.
  - rewrite format_pairs_args_valued_prefix.
    + unfold bind. rewrite format_pairs_args_flags by apply checked_flags_named.
      reflexivity.
    + repeat constructor; [vm_compute; discriminate|].
      cbn [snd]. by apply (selected_platforms_join d).
Qed.

End DialogOptions.

(** ** EngineFinder: the errors that leave a search *)

Section FinderRaises.
Context `{PyLib} `{Unicode}.
Import EngineFinder.

Section Calm.
Context (w : world) (P : exn -> Prop).















End Calm.









End FinderRaises.

(** ** PluginBuilder: the event loop *)

Section BuilderLoop.
Context `{PyLib} `{Unicode}.
Import PluginBuilder.

Lemma announced_app a b : announced (a ++ b) = (announced a + announced b)%nat.
Proof. unfold announced. by rewrite List.filter_app, length_app. Qed.

Lemma announced_line_events lines : announced (flat_map line_events lines) = 0%nat.
Proof.
  induction lines as [|raw rest IH]; [reflexivity|]. cbn [flat_map].
  rewrite announced_app, IH. unfold line_events.
  destruct (strip raw); [reflexivity|]. by destruct (search_percent _).
Qed.

Lemma announced_logs texts : announced (map (fun m => LogMessage m ERROR) texts) = 0%nat.
Proof. induction texts as [|m rest IH]; [reflexivity | exact IH]. Qed.

Lemma progress_refl b : progress b b [] [].
Proof. unfold progress. by rewrite !app_nil_r. Qed.

Lemma progress_add_signals b evs : progress b (add_signals b evs) evs [].
Proof. unfold progress. cbn. by rewrite app_nil_r. Qed.

Lemma progress_trans b1 b2 b3 e1 e2 p1 p2 :
  progress b1 b2 e1 p1 -> progress b2 b3 e2 p2 -> progress b1 b3 (e1 ++ e2) (p1 ++ p2).
Proof.
  unfold progress. intros [Hs1 Hp1] [Hs2 Hp2].
  rewrite Hs2, Hs1, Hp2, Hp1. by rewrite !app_assoc.
Qed.

Lemma cancel_build_progress b :
  exists evs, progress b (snd (cancel_build b)) evs [] /\ announced evs = 0%nat.
Proof.
  enough (wp cancel_build b
             (fun _ b' => exists evs, progress b b' evs [] /\ announced evs = 0%nat))
    as W by exact W.
  unfold cancel_build. apply wp_read.
  destruct (process b) as [p|]; [|apply wp_ret; exists []; split; [apply progress_refl | done]].
  destruct (state p); [apply wp_ret; exists []; split; [apply progress_refl | done] | |];
    cbn [kill_by_name];
    repeat (cbv beta iota;
            first [ wp_step | apply wp_log | apply wp_emit | apply wp_shell ]);
    unfold progress; cbn; rewrite <- ?app_assoc, ?app_nil_r;
    (eexists; split; [split; reflexivity | reflexivity]).
Qed.

Lemma build_plugin_progress src out tgt params b :
  exists evs procs,
    progress b (snd (build_plugin src out tgt params b)) evs procs
    /\ (length procs <= announced evs)%nat.
Proof.
  pose proof (build_plugin_outcome src out tgt params b) as W. unfold wp in W.
  destruct (build_plugin src out tgt params b) as [[[|]|e] b']; cbn [fst snd] in *.
  - destruct W as ((msg & Hs) & p & formatted & Hp & _ & _ & _ & Hl).
    eexists _, _. split; [split; [exact Hs | exact Hl]|].
    destruct (state p); cbn; lia.
  - destruct W as ((msg & Hs) & _ & Hl).
    exists [LogMessage msg ERROR], []. split; [|cbn; lia].
    split; [exact Hs | by rewrite app_nil_r].
  - destruct W as (_ & (msg & Hs) & _ & Hl).
    exists [LogMessage msg INFO; BuildStarted], []. split; [|cbn; lia].
    split; [exact Hs | by rewrite app_nil_r].
Qed.

Lemma step_progress a b b' :
  step a b = Some b' ->
  exists evs procs, progress b b' evs procs /\ (length procs <= announced evs)%nat.
Proof.
  destruct a as [src out tgt params | | data | data | code]; cbn [step].
  - intros [= <-]. unfold forget, bind.
    destruct (build_plugin_progress src out tgt params b) as (evs & procs & Hp & Hl).
    exists evs, procs. split; [|exact Hl].
    by destruct (build_plugin src out tgt params b) as [[r|e] b1].
  - intros [= <-]. unfold forget, bind.
    destruct (cancel_build_progress b) as (evs & Hp & Ha).
    exists evs, []. split; [|cbn; lia].
    by destruct (cancel_build b) as [[r|e] b1].
  - destruct (handle_running b); [|discriminate]. intros [= <-].
    unfold _process_stdout. rewrite stdout_lines_events. cbn [snd].
    eexists _, []. split; [apply progress_add_signals | cbn; lia].
  - destruct (handle_running b); [|discriminate]. intros [= <-].
    unfold _process_stderr. rewrite stderr_lines_events. cbn [snd].
    eexists _, []. split; [apply progress_add_signals | cbn; lia].
  - destruct (handle_running b); [|discriminate]. intros [= <-].
    destruct (process_finished_events code (mark_exited b)) as (msg & ty & ->). cbn [snd].
    exists [LogMessage msg ty; BuildFinished (code =? 0)%Z msg], [].
    split; [|cbn; lia].
    unfold progress, mark_exited. destruct (process b); cbn; rewrite app_nil_r;
      split; reflexivity.
Qed.

(** X20. No process is started unannounced. Whatever the application
    calls and whatever Qt delivers, in any order, the events of the builder
    and the list of started processes only grow, and for every process that
    was started a start event was emitted: the processes started are at
    most as many as the start events. *)
Theorem every_start_is_announced (actions : list action) (b b' : builder) :
  run actions b = Some b' ->
  exists evs procs, progress b b' evs procs /\ (length procs <= announced evs)%nat.
Proof.
  revert b. induction actions as [|a rest IH]; intros b; cbn [run].
  - intros [= <-]. exists [], []. split; [apply progress_refl | cbn; lia].
  - destruct (step a b) as [b1|] eqn:E; [|discriminate]. intros Hrun.
    destruct (step_progress a b b1 E) as (e1 & p1 & H1 & L1).
    destruct (IH b1 Hrun) as (e2 & p2 & H2 & L2).
    exists (e1 ++ e2), (p1 ++ p2). split; [by apply (progress_trans b b1 b')|].
    rewrite length_app, announced_app. lia.
Qed.

End BuilderLoop.

(** ** From the finder to the builder *)

Section FinderToBuilder.
Context `{PyLib} `{Unicode}.
Import PluginBuilder.

(** X21. An engine the finder accepts can be built with: when the target
    path is one that [is_valid_engine_path] accepts, and the entry script
    is found under its normalized path as under the joined one, then with
    plugin and output folder set [get_build_command] gives the command and
    logs no error. *)
Theorem validated_engine_has_a_build_command (b : builder) (tgt : str) :
  target_engine_path b = Some tgt ->
  unset (Some tgt) = false ->
  unset (source_plugin_path b) = false ->
  unset (output_folder b) = false ->
  EngineFinder.is_valid_engine_path (os b) tgt = true ->
  path_exists (os b) (os_path_normpath (os_path_join tgt EngineFinder.uat_rel))
  = path_exists (os b) (os_path_join tgt EngineFinder.uat_rel) ->
  get_build_command b
  = (Ok (Some (base_command b ++ flat_map encode_option (additional_params b))), b).
Proof.
  intros Ht Hset Hs Ho Hvalid Hnorm.
  destruct (get_build_command_cases b) as [(msg & E) | E]; [exfalso | exact E].
  revert E. unfold get_build_command, bind, get_state.
  rewrite Hs, Ho, Ht, Hset. cbn [orb attr default from_option id].
  unfold EngineFinder.uat_rel in Hnorm. rewrite Hnorm.
  unfold EngineFinder.is_valid_engine_path in Hvalid. cbv zeta in Hvalid.
  unfold EngineFinder.uat_rel in Hvalid.
  destruct (path_exists (os b) (os_path_join tgt _)); [|discriminate Hvalid].
  cbn [negb]. discriminate.
Qed.

End FinderToBuilder.

(** ** MainWindow: the engine selected as target *)

Section TargetEngine.
Context `{PyLib} `{Unicode}.
Import MainWindow.

Lemma starts_with_app p s : starts_with p (p ++ s) = true.
Proof. induction p as [|c p IH]; [reflexivity|]. cbn. by rewrite N.eqb_refl, IH. Qed.

(** X22. Selecting a version in the combo box gives the engine stored
    under it, unless the version begins with [UE_]: such a version is
    looked up without the prefix, so an engine stored under [UE_5.3] is not
    found by its own name. The versions the finder reads from a folder name
    begin with a digit (given that the letter U is not a decimal digit) and
    so always select their own engine. *)
Theorem selected_version_finds_its_engine (engines : list (str * str)) :
  (forall v, starts_with (u "UE_") v = false ->
     get_target_engine_path (mkWindow engines v) = dict_get v engines)
  /\ (forall v, get_target_engine_path (mkWindow engines (u "UE_" ++ v))
                = dict_get v engines)
  /\ (is_decimal 85 = false ->
      forall path v, search_ue_version path = Some v ->
        get_target_engine_path (mkWindow engines v) = dict_get v engines).
Proof.
  split; [|split].
  - intros v Hv. unfold get_target_engine_path. cbn [target_version_combo engine_paths].
    by rewrite Hv.
  - intros v. unfold get_target_engine_path. cbn [target_version_combo engine_paths].
    by rewrite starts_with_app.
  - intros HU path v Hs. unfold get_target_engine_path.
    cbn [target_version_combo engine_paths].
    apply search_ue_version_sound in Hs as [(major & minor & -> & Hne & Hd & _) _].
    destruct major as [|c major]; [done|]. inversion Hd as [|? ? Hc _]; subst.
    assert (starts_with (u "UE_") ((c :: major) ++ [46] ++ minor) = false) as ->;
      [|reflexivity].
    change (u "UE_") with [85; 69; 95]. cbn [app starts_with].
    destruct (85 =? c) eqn:E; [|reflexivity].
    apply N.eqb_eq in E as <-. congruence.
Qed.

End TargetEngine.

(** ** EngineFinder: the default configuration path *)

Section FinderDefaultPath.
Context `{PyLib} `{Unicode}.
Import EngineFinder.

Lemma save_config_unwritable C f :
  access_w (os f) (os_path_dirname (config_file f)) = false ->
  fst (save_config C f) = Ok false /\ place (snd (save_config C f)) = place f.
Proof.
  intros Hno. unfold save_config, bind, get_state. rewrite Hno. by split.
Qed.

Lemma unwritable_place f g :
  place g = place f ->
  access_w (os f) (os_path_dirname (config_file f)) = false ->
  access_w (os g) (os_path_dirname (config_file g)) = false.
Proof. unfold place. intros [= -> ->]. exact id. Qed.

Lemma process_found_paths_unwritable paths f :
  access_w (os f) (os_path_dirname (config_file f)) = false ->
  keeps_at place (_process_found_paths paths) f.
Proof.
  intros Hno. unfold _process_found_paths.
  apply keeps_at_bind; [apply (quiet_process_paths _ place_signals)|].
  intros [|kv result] f1 E; [reflexivity|].
  pose proof (quiet_process_paths _ place_signals paths [] f) as K.
  unfold keeps_at in K. rewrite E in K. cbn [snd] in K.
  apply keeps_at_bind.
  - apply save_config_unwritable. by apply (unwritable_place f).
  - intros ok f2 _. apply keeps_at_read. reflexivity.
Qed.

Lemma fresh_scan_unwritable stop f :
  access_w (os f) (os_path_dirname (config_file f)) = false ->
  keeps_at place (fresh_scan stop) f.
Proof.
  intros Hno. unfold fresh_scan.
  assert (forall (m : M finder (list (str * str))) l g,
            place g = place f ->
            keeps_at place m g ->
            keeps_at place (match stop, l with
                            | true, p :: _ => _process_found_paths [p]
                            | _, _ => m
                            end) g) as Hstop.
  { intros m l g Hg K. destruct stop; [|exact K]. destruct l; [exact K|].
    apply process_found_paths_unwritable. by apply (unwritable_place f). }
  assert (forall {A} (m : M finder A) g r g',
            keeps place m -> place g = place f -> m g = (r, g') -> place g' = place f)
    as Hthen.
  { intros A m g r g' K Hg E. specialize (K g). unfold keeps_at in K.
    rewrite E in K. cbn [snd] in K. congruence. }
  apply keeps_at_bind; [apply (quiet_find_unreal_in_registry _ place_signals)|].
  intros reg f1 E1.
  pose proof (Hthen _ _ _ _ _ (quiet_find_unreal_in_registry _ place_signals) eq_refl E1)
    as H1.
  apply Hstop; [exact H1|].
  apply keeps_at_bind; [apply (quiet_find_unreal_in_env_vars _ place_signals)|].
  intros env f2 E2.
  pose proof (Hthen _ _ _ _ _ (quiet_find_unreal_in_env_vars _ place_signals) H1 E2) as H2.
  apply Hstop; [exact H2|].
  apply keeps_at_bind; [apply (quiet_find_unreal_in_standard_paths _ place_signals)|].
  intros std f3 E3.
  pose proof (Hthen _ _ _ _ _ (quiet_find_unreal_in_standard_paths _ place_signals) H2 E3)
    as H3.
  apply Hstop; [exact H3|].
  destruct (reg ++ env ++ std).
  - repeat (keeps_step; try apply (keeps_finder_log _ place_signals)).
  - apply process_found_paths_unwritable. by apply (unwritable_place f).
Qed.

(** X23. A finder whose configuration file lies in a directory that is
    not writable never writes: whatever [find_all_engines] finds, it leaves
    the world, and with it the file system, exactly as it was. This is the
    case of a finder constructed without a configuration path, whenever the
    directory part of the default name is the empty path and the empty path
    is not writable. *)
Theorem unwritable_configuration_is_never_written (stop_on_first force_rescan : bool)
    (f : finder) :
  access_w (os f) (os_path_dirname (config_file f)) = false ->
  os (snd (find_all_engines stop_on_first force_rescan f)) = os f.
Proof.
  intros Hno.
  enough (keeps_at place (find_all_engines stop_on_first force_rescan) f) as K.
  { unfold keeps_at, place in K. congruence. }
  assert (forall g, place g = place f -> keeps_at place (fresh_scan stop_on_first) g)
    as Hscan.
  { intros g Hg. apply fresh_scan_unwritable. by apply (unwritable_place f). }
  assert (forall {A} (m : M finder A) g r g',
            keeps place m -> place g = place f -> m g = (r, g') -> place g' = place f)
    as Hthen.
  { intros A m g r g' K Hg E. specialize (K g). unfold keeps_at in K.
    rewrite E in K. cbn [snd] in K. congruence. }
  unfold find_all_engines.
  apply keeps_at_bind; [apply (keeps_finder_log _ place_signals)|].
  intros [] f1 E1.
  pose proof (Hthen _ _ _ _ _ (keeps_finder_log _ place_signals _ _) eq_refl E1) as H1.
  destruct (negb force_rescan).
  - apply keeps_at_bind; [apply (quiet_load_config _ place_signals)|].
    intros saved f2 E2.
    pose proof (Hthen _ _ _ _ _ (quiet_load_config _ place_signals) H1 E2) as H2.
    destruct (truthy saved); [|by apply Hscan].
    apply keeps_at_read.
    apply keeps_at_bind; [apply (keeps_finder_log _ place_signals)|].
    intros [] f3 E3.
    pose proof (Hthen _ _ _ _ _ (keeps_finder_log _ place_signals _ _) H2 E3) as H3.
    apply keeps_at_bind.
    { destruct saved; try reflexivity. apply (quiet_revalidate _ place_signals). }
    intros valid f4 E4.
    assert (place f4 = place f) as H4.
    { destruct saved; try discriminate E4.
      exact (Hthen _ _ _ _ _ (quiet_revalidate _ place_signals _ _) H3 E4). }
    destruct valid as [|kv valid].
    + apply keeps_at_read.
      apply keeps_at_bind; [apply (keeps_finder_log _ place_signals)|].
      intros [] f5 E5. apply Hscan.
      exact (Hthen _ _ _ _ _ (keeps_finder_log _ place_signals _ _) H4 E5).
    + apply keeps_at_read. reflexivity.
  - apply keeps_at_bind; [apply (keeps_finder_log _ place_signals)|].
    intros [] f2 E2. apply Hscan.
    exact (Hthen _ _ _ _ _ (keeps_finder_log _ place_signals _ _) H1 E2).
Qed.

End FinderDefaultPath.

Section DefaultPathConcrete.
Import Plain Examples SetupScenarios.

(** The finder constructed without a configuration path finds the engine
    of the workstation, fails to save it and leaves the file system as it
    was. *)
Lemma unwritable_configuration_is_never_written_witness :
  EngineFinder.os (snd (EngineFinder.find_all_engines false false default_finder))
  = EngineFinder.os default_finder.
Proof.
  apply (unwritable_configuration_is_never_written false false default_finder).
  vm_compute. reflexivity.
Defined.

Example default_finder_cannot_save :
  os_path_dirname EngineFinderSetup.CONFIG_FILE = []
  /\ fst (EngineFinder.find_all_engines false false default_finder)
     = Ok [(u "5.3", engine_root)]
  /\ last (EngineFinder.signals
             (snd (EngineFinder.find_all_engines false false default_finder)))
     = Some (LogMessage (u "No write permission for config directory: ") ERROR).
Proof. repeat split; vm_compute; reflexivity. Qed.

End DefaultPathConcrete.

(** ** The further properties on concrete inputs *)

Section FurtherConcrete.
Import Plain Examples Scenarios.

(** Of the two entries of the stale configuration the installed one is
    returned, the other is dropped with a warning. *)
Lemma reload_returns_survivors_witness :
  EngineFinder.find_all_engines false false stale_finder
  = (Ok (survivors (EngineFinder.os stale_finder) stale_mapping),
     EngineFinder.set_found_engines
       (logged stale_finder
          (reload_log stale_finder
           ++ map dropped_line (dropped (EngineFinder.os stale_finder) stale_mapping)))
       (survivors (EngineFinder.os stale_finder) stale_mapping)).
Proof.
  apply (reload_returns_survivors false stale_finder stale_mapping).
  - apply (bool_decide_unpack _). vm_compute. exact I.
  - vm_compute. reflexivity.
  - vm_compute. discriminate.
Defined.

Example stale_entry_is_dropped :
  survivors (EngineFinder.os stale_finder) stale_mapping = [(u "5.3", engine_root)]
  /\ dropped (EngineFinder.os stale_finder) stale_mapping = [(u "4.27", gone_root)].
Proof. split; vm_compute; reflexivity. Qed.

Lemma malformed_configuration_raises_witness :
  EngineFinder.find_all_engines false false list_finder
  = (Raise AttributeError, logged list_finder (take 3 (reload_log list_finder))).
Proof.
  apply (malformed_configuration_raises false list_finder (PList [])).
  - vm_compute. reflexivity.
  - left. exact I.
Defined.

Lemma later_candidate_wins_witness :
  dict_get (u "5.3") [(u "5.3", engine_root)]
  = Some (normalized (EngineFinder.os fresh_finder) engine_root).
Proof.
  assert (EngineFinder._process_found_paths two_candidates fresh_finder
          = (Ok [(u "5.3", engine_root)],
             snd (EngineFinder._process_found_paths two_candidates fresh_finder))) as E.
  { vm_compute. reflexivity. }
  apply (proj2 (later_candidate_wins two_candidates fresh_finder _ _ (u "5.3") E)
               [u "D:\Old\UE_5.3"] engine_root []).
  - reflexivity.
  - split; [vm_compute; reflexivity | vm_compute; discriminate].
  - intros q [].
Defined.

Lemma cancel_build_kills_and_cleans_witness :
  exists b',
    PluginBuilder.cancel_build running_builder = (Ok true, b')
    /\ shell_log (PluginBuilder.os b')
       = shell_log (PluginBuilder.os running_builder)
         ++ kill_commands (PluginBuilder.processId running_handle)
    /\ fs (PluginBuilder.os b') = without_output running_builder
    /\ spawn_log (PluginBuilder.os b') = spawn_log (PluginBuilder.os running_builder)
    /\ request b' = request running_builder
    /\ PluginBuilder.process b' = Some running_handle
    /\ PluginBuilder.handle_running b' = true.
Proof.
  apply (cancel_build_kills_and_cleans running_builder running_handle).
  - vm_compute. reflexivity.
  - vm_compute. reflexivity.
Defined.

Example cancellation_on_the_workstation :
  kill_commands (PluginBuilder.processId running_handle)
  = [ u "taskkill /F /PID 1000 /T";
      u "taskkill /F /IM UnrealBuildTool.exe";
      u "taskkill /F /IM UBT.exe" ]
  /\ path_exists (PluginBuilder.os running_builder) output_dir = true
  /\ without_output running_builder !! output_dir = None.
Proof. repeat split; vm_compute; reflexivity. Qed.

Lemma valued_options_become_key_value_witness :
  PluginBuilder.format_pairs_args workstation (flat_map encode_option valued_params)
                                  fresh_builder
  = (Ok (map (fun kv => key_value workstation (fst kv) (py_str (snd kv))) valued_params),
     fresh_builder).
Proof.
  apply (valued_options_become_key_value workstation valued_params fresh_builder).
  repeat constructor; vm_compute; discriminate.
Defined.

Example valued_options_on_the_workstation :
  map (fun kv => key_value workstation (fst kv) (py_str (snd kv))) valued_params
  = [u "-TargetPlatforms=Win64+Linux"; u "-Jobs=4"].
Proof. vm_compute. reflexivity. Qed.

Lemma consecutive_flags_are_merged_witness :
  PluginBuilder.format_pairs_args workstation
    (flat_map encode_option
       ([(u "TargetPlatforms", PStr (u "Win64"))]
        ++ [(u "Strict", PBool true); (u "Unversioned", PBool true)])) fresh_builder
  = bind (PluginBuilder.format_pairs_args workstation (flat_map encode_option []))
         (fun others =>
            ret (map (fun kv => key_value workstation (fst kv) (py_str (snd kv)))
                     [(u "TargetPlatforms", PStr (u "Win64"))]
                 ++ key_value workstation (u "Strict") (u "-" ++ u "Unversioned") :: others))
         fresh_builder.
Proof.
  apply (consecutive_flags_are_merged workstation
           [(u "TargetPlatforms", PStr (u "Win64"))] [] (u "Strict") (u "Unversioned")
           fresh_builder).
  - repeat constructor; vm_compute; discriminate.
  - vm_compute. discriminate.
Defined.

Lemma checked_boxes_reach_the_process_in_pairs_witness :
  PluginBuilder.format_pairs_args workstation
    (flat_map encode_option (AdvancedOptionsDialog.get_build_options two_boxes))
    fresh_builder
  = (Ok (platform_arguments workstation two_boxes
         ++ merged_flags workstation (checked_flags two_boxes)), fresh_builder).
Proof.
  apply (checked_boxes_reach_the_process_in_pairs workstation two_boxes fresh_builder).
  - reflexivity.
  - reflexivity.
Defined.

(** With Win64, Strict and Unversioned checked the process is given two
    arguments after [BuildPlugin], [-Plugin] and [-Package]. *)
Example two_boxes_on_the_workstation :
  AdvancedOptionsDialog.get_build_options two_boxes
  = [ (u "TargetPlatforms", PStr (u "Win64"));
      (u "Strict", PBool true); (u "Unversioned", PBool true) ]
  /\ platform_arguments workstation two_boxes
     ++ merged_flags workstation (checked_flags two_boxes)
     = [u "-TargetPlatforms=Win64"; u "-Strict=-Unversioned"].
Proof. split; vm_compute; reflexivity. Qed.


(** A configuration file that is not UTF-8 text stops the search. *)
Example garbled_configuration_raises :
  fst (EngineFinder.find_all_engines false false garbled_finder) = Raise UnicodeDecodeError
  /\ fst (EngineFinder.find_all_engines false false locked_finder) = Raise PermissionError.
Proof. split; vm_compute; reflexivity. Qed.

Lemma every_start_is_announced_witness :
  exists evs procs,
    progress fresh_builder after_cancelled_run evs procs
    /\ (length procs <= announced evs)%nat.
Proof.
  apply (every_start_is_announced cancelled_run fresh_builder after_cancelled_run).
  vm_compute. reflexivity.
Defined.

Lemma validated_engine_has_a_build_command_witness :
  PluginBuilder.get_build_command (with_params sample_params)
  = (Ok (Some (base_command (with_params sample_params)
               ++ flat_map encode_option
                    (PluginBuilder.additional_params (with_params sample_params)))),
     with_params sample_params).
Proof.
  apply (validated_engine_has_a_build_command (with_params sample_params) engine_root).
  - reflexivity.
  - reflexivity.
  - reflexivity.
  - reflexivity.
  - vm_compute. reflexivity.
  - vm_compute. reflexivity.
Defined.

End FurtherConcrete.
